(** * openclaw-deploy: the rollback sequencer and the workflow drivers

    A shallow embedding of [openclaw_deploy/rollback.py], of the parts of
    [docker_utils.py] and [config.py] that the registered undo operations
    run through, and of the two workflow drivers [deploy.py] and
    [update.py], followed by the properties of the rollback sequencer.

    Python objects that are mutated in place and shared by reference (the
    [DeploymentConfig] instance) live in a heap; everything outside the
    process (the container engine, the file system, the terminal) is an
    environment that answers each external call and records it. *)

From stdpp Require Import base gmap strings list pretty.

Open Scope string_scope.
Open Scope Z_scope.
Open Scope list_scope.

(** ** Exceptions *)

(** The exception classes that the modelled code raises, catches or lets
    through.  [KeyboardInterrupt], [SystemExit] and [GeneratorExit] derive
    from [BaseException] only; every other class derives from [Exception]. *)
Inductive exn_class :=
  | DockerError | ValidationError | OSError | TimeoutExpired
  | TypeError | EOFError | YAMLError | OtherException
  | KeyboardInterrupt | SystemExit | GeneratorExit.

#[global] Instance exn_class_eq_dec : EqDecision exn_class.
Proof. solve_decision. Defined.

Record exn := mk_exn { exn_cls : exn_class; exn_msg : string }.

#[global] Instance exn_eq_dec : EqDecision exn.
Proof. solve_decision. Defined.

(** [isinstance(e, Exception)] *)
Definition isinstance_Exception (e : exn) : bool :=
  match exn_cls e with
  | KeyboardInterrupt | SystemExit | GeneratorExit => false
  | _ => true
  end.

(** [isinstance(e, c)] for a leaf class [c] *)
Definition isinstance (e : exn) (c : exn_class) : bool :=
  bool_decide (exn_cls e = c).

(** What a call does: it returns a value or raises. *)
Inductive result (A : Type) :=
  | Ret (a : A)
  | Raise (e : exn).
Arguments Ret {A} a.
Arguments Raise {A} e.

Definition is_Ret {A} (r : result A) : bool :=
  match r with Ret _ => true | Raise _ => false end.

(** ** config.py: DeploymentConfig *)

(** A [pathlib.Path], by its string form. *)
Definition Path := string.

(** [p / name] for a relative [name] *)
Definition path_join (p : Path) (name : string) : Path :=
  if String.eqb p "/" then "/" +:+ name else p +:+ "/" +:+ name.

Record DeploymentConfig := mk_DeploymentConfig {
  project_dir : Path;
  openclaw_home : Path;
  workspace_dir : Path;
  image_name : string;
  container_name : string;
  gateway_port : Z;
  openclaw_version : string;
  gateway_token : option string;
  gateway_bind : string;
  anthropic_api_key : option string;
  openai_api_key : option string;
  google_ai_api_key : option string;
  ollama_base_url : option string;
  apt_packages : string;
  home_volume : string;
  restart_policy : string;
  read_only : bool;
  tmpfs_size : string;
  log_max_size : string;
  log_max_file : string;
  health_interval : Z;
  health_timeout : Z;
  health_start_period : Z;
  health_retries : Z
}.

(** Attribute assignments [config.x = v] used by the modelled code. *)
Definition set_project_dir (v : Path) (c : DeploymentConfig) : DeploymentConfig :=
  mk_DeploymentConfig v (openclaw_home c) (workspace_dir c) (image_name c)
    (container_name c) (gateway_port c) (openclaw_version c) (gateway_token c)
    (gateway_bind c) (anthropic_api_key c) (openai_api_key c)
    (google_ai_api_key c) (ollama_base_url c) (apt_packages c) (home_volume c)
    (restart_policy c) (read_only c) (tmpfs_size c) (log_max_size c)
    (log_max_file c) (health_interval c) (health_timeout c)
    (health_start_period c) (health_retries c).

Definition set_container_name (v : string) (c : DeploymentConfig) : DeploymentConfig :=
  mk_DeploymentConfig (project_dir c) (openclaw_home c) (workspace_dir c)
    (image_name c) v (gateway_port c) (openclaw_version c) (gateway_token c)
    (gateway_bind c) (anthropic_api_key c) (openai_api_key c)
    (google_ai_api_key c) (ollama_base_url c) (apt_packages c) (home_volume c)
    (restart_policy c) (read_only c) (tmpfs_size c) (log_max_size c)
    (log_max_file c) (health_interval c) (health_timeout c)
    (health_start_period c) (health_retries c).

Definition set_gateway_port (v : Z) (c : DeploymentConfig) : DeploymentConfig :=
  mk_DeploymentConfig (project_dir c) (openclaw_home c) (workspace_dir c)
    (image_name c) (container_name c) v (openclaw_version c) (gateway_token c)
    (gateway_bind c) (anthropic_api_key c) (openai_api_key c)
    (google_ai_api_key c) (ollama_base_url c) (apt_packages c) (home_volume c)
    (restart_policy c) (read_only c) (tmpfs_size c) (log_max_size c)
    (log_max_file c) (health_interval c) (health_timeout c)
    (health_start_period c) (health_retries c).

Definition set_gateway_token (v : option string) (c : DeploymentConfig) : DeploymentConfig :=
  mk_DeploymentConfig (project_dir c) (openclaw_home c) (workspace_dir c)
    (image_name c) (container_name c) (gateway_port c) (openclaw_version c) v
    (gateway_bind c) (anthropic_api_key c) (openai_api_key c)
    (google_ai_api_key c) (ollama_base_url c) (apt_packages c) (home_volume c)
    (restart_policy c) (read_only c) (tmpfs_size c) (log_max_size c)
    (log_max_file c) (health_interval c) (health_timeout c)
    (health_start_period c) (health_retries c).

Definition set_anthropic_api_key (v : option string) (c : DeploymentConfig) : DeploymentConfig :=
  mk_DeploymentConfig (project_dir c) (openclaw_home c) (workspace_dir c)
    (image_name c) (container_name c) (gateway_port c) (openclaw_version c)
    (gateway_token c) (gateway_bind c) v (openai_api_key c)
    (google_ai_api_key c) (ollama_base_url c) (apt_packages c) (home_volume c)
    (restart_policy c) (read_only c) (tmpfs_size c) (log_max_size c)
    (log_max_file c) (health_interval c) (health_timeout c)
    (health_start_period c) (health_retries c).

(** Truth value of a [str] and of an [Optional[str]]. *)
Definition truthy (s : string) : bool := negb (String.eqb s "").
Definition truthy_opt (o : option string) : bool :=
  match o with Some s => truthy s | None => false end.

(** [DeploymentConfig.to_env_dict]: a dict in insertion order. *)
Definition env_entry (key : string) (o : option string) : list (string * string) :=
  match o with
  | Some s => if truthy s then [(key, s)] else []
  | None => []
  end.

Definition to_env_dict (self : DeploymentConfig) : list (string * string) :=
  env_entry "OPENCLAW_GATEWAY_TOKEN" (gateway_token self) ++
  env_entry "OPENCLAW_GATEWAY_BIND" (Some (gateway_bind self)) ++
  env_entry "ANTHROPIC_API_KEY" (anthropic_api_key self) ++
  env_entry "OPENAI_API_KEY" (openai_api_key self) ++
  env_entry "GOOGLE_AI_API_KEY" (google_ai_api_key self) ++
  env_entry "OLLAMA_BASE_URL" (ollama_base_url self) ++
  env_entry "OPENCLAW_DOCKER_APT_PACKAGES" (Some (apt_packages self)) ++
  env_entry "OPENCLAW_HOME_VOLUME" (Some (home_volume self)).

(** ** The world outside the sequencer *)

(** [subprocess.CompletedProcess] *)
Record CompletedProcess := mk_CompletedProcess {
  returncode : Z;
  stdout : string;
  stderr : string
}.

(** The calls that leave the process, with the arguments they are made
    with.  [validate_and_report] and [wait_for_healthy] are taken at their
    interface: a call that returns or raises. *)
Inductive ext_call :=
  | subprocess_run (cmd : list string) (cwd : option Path)
      (env : option (gmap string string)) (capture_output : bool)
      (timeout : option Z)
  | Path_unlink (p : Path)
  | Path_exists (p : Path)
  | Path_mkdir (p : Path)
  | write_file (p : Path) (content : string)
  | input (prompt : string)
  | secrets_token_hex (n : Z)
  | from_yaml (p : Path)
  | from_env_file (p : Path)
  | validate_and_report (port : Z) (project_dir : Path) (strict : bool)
  | wait_for_healthy (container_name : string) (timeout interval : Z).

(** The environment answers the [n]-th external call of a run. *)
Record Environment := mk_Environment {
  os_environ : gmap string string;
  Path_cwd : Path;
  Path_home : Path;
  reply_proc : nat → ext_call → result CompletedProcess;
  reply_unit : nat → ext_call → result unit;
  reply_bool : nat → ext_call → result bool;
  reply_str : nat → ext_call → result string;
  reply_config : nat → ext_call → result DeploymentConfig
}.

Inductive log_level := DEBUG | INFO | WARNING | ERROR.

Record LogRecord := mk_LogRecord {
  lr_name : string;
  lr_level : log_level;
  lr_msg : string
}.

(** A reference to a [DeploymentConfig] object. *)
Definition loc := nat.

Record World := mk_World {
  environment : Environment;
  heap : gmap loc DeploymentConfig;
  issued : list ext_call;
  logs : list LogRecord
}.

Definition set_heap (h : gmap loc DeploymentConfig) (w : World) : World :=
  mk_World (environment w) h (issued w) (logs w).

(** ** Computations that may raise *)

(** A computation over a state [S]: it ends by returning a value or by
    raising, and in both cases leaves a state behind. *)
Definition ST (S A : Type) : Type := S → result A * S.

#[global] Instance ST_ret {S} : MRet (ST S) := λ A a s, (Ret a, s).

#[global] Instance ST_bind {S} : MBind (ST S) := λ A B f m s,
  match m s with
  | (Ret a, s') => f a s'
  | (Raise e, s') => (Raise e, s')
  end.

Definition raise {S A} (e : exn) : ST S A := λ s, (Raise e, s).

(** The [except] clauses of a [try] statement, tried in order: a clause
    is the test of its class list and its handler.  An exception raised
    by a handler is not seen by the other clauses. *)
Fixpoint handle {S A} (clauses : list ((exn → bool) * (exn → ST S A)))
    (e : exn) : ST S A :=
  match clauses with
  | [] => raise e
  | (matches, handler) :: rest =>
      if matches e then handler e else handle rest e
  end.

Definition try_except {S A} (body : ST S A)
    (clauses : list ((exn → bool) * (exn → ST S A))) : ST S A := λ s,
  match body s with
  | (Ret a, s') => (Ret a, s')
  | (Raise e, s') => handle clauses e s'
  end.

(** Computations of the code below the drivers act on the world. *)
Abbreviation M := (ST World).

(** An external call: recorded, and answered by the environment. *)
Definition external {A} (reply : Environment → nat → ext_call → result A)
    (c : ext_call) : M A := λ w,
  (reply (environment w) (length (issued w)) c,
   mk_World (environment w) (heap w) (issued w ++ [c]) (logs w)).

(** *** logging *)

Definition log (name : string) (lvl : log_level) (msg : string) : M unit := λ w,
  (Ret tt, mk_World (environment w) (heap w) (issued w)
             (logs w ++ [mk_LogRecord name lvl msg])).

(** *** the heap *)

(** Reading an attribute of the object at [l]. *)
Definition deref (l : loc) : M DeploymentConfig := λ w,
  match heap w !! l with
  | Some c => (Ret c, w)
  | None => (Raise (mk_exn TypeError "not a DeploymentConfig"), w)
  end.

(** Assigning attributes of the object at [l] in place. *)
Definition setattr (l : loc) (f : DeploymentConfig → DeploymentConfig) : M unit := λ w,
  match heap w !! l with
  | Some c => (Ret tt, set_heap (<[l := f c]> (heap w)) w)
  | None => (Raise (mk_exn TypeError "not a DeploymentConfig"), w)
  end.

(** Creating a new object. *)
Definition alloc (c : DeploymentConfig) : M loc := λ w,
  let l := fresh (dom (heap w)) in
  (Ret l, set_heap (<[l := c]> (heap w)) w).

(** ** config.py: load_config *)

(** [DeploymentConfig()] with the defaults of its fields. *)
Definition DeploymentConfig_default : M DeploymentConfig := λ w,
  let cwd := Path_cwd (environment w) in
  let home := Path_home (environment w) in
  (Ret (mk_DeploymentConfig cwd (path_join home ".openclaw")
          (path_join (path_join home "openclaw") "workspace")
          "openclaw:local" "openclaw-gateway" 18789 "latest" None "lan"
          None None None None "" "openclaw-home" "unless-stopped" true
          "512M" "10m" "3" 30 10 60 3), w).

(** [path and path.exists()] for an [Optional[Path]] *)
Definition opt_exists (path : option Path) : M bool :=
  match path with
  | Some p => external reply_bool (Path_exists p)
  | None => mret false
  end.

(** [load_config(config_file, env_file, project_dir=..., gateway_token=...)];
    reading and parsing a file is an external call.  The result is the
    new object. *)
Definition load_config (config_file env_file : option Path)
    (o_project_dir : option Path) (o_gateway_token : option string)
    : M loc :=
  b ← opt_exists config_file;
  c ← (if b : bool
       then external reply_config (from_yaml (default "" config_file))
       else
         b' ← opt_exists env_file;
         if b' : bool
         then external reply_config (from_env_file (default "" env_file))
         else DeploymentConfig_default) : M DeploymentConfig;
  config ← alloc c;
  (match o_project_dir with
   | Some v => setattr config (set_project_dir v)
   | None => mret tt
   end : M unit) ≫= λ _,
  (match o_gateway_token with
   | Some v => setattr config (set_gateway_token (Some v))
   | None => mret tt
   end : M unit) ≫= λ _,
  mret config.

(** ** docker_utils.py *)

Definition nl : string := String (Ascii.ascii_of_nat 10) EmptyString.

(** [' '.join(cmd)] *)
Definition join_cmd (cmd : list string) : string := String.concat " " cmd.

(** [sub in s] on strings *)
Fixpoint str_in (sub s : string) : bool :=
  String.prefix sub s ||
  match s with
  | EmptyString => false
  | String _ rest => str_in sub rest
  end.

(** [f"{timeout}"] for an [Optional[int]] *)
Definition fmt_timeout (timeout : option Z) : string :=
  match timeout with Some t => pretty t | None => "None" end.

Module docker_utils.

Definition logger : string := "openclaw_deploy.docker_utils".

(** [result.stderr if result.stderr else result.stdout] *)
Definition error_msg (r : CompletedProcess) : string :=
  if truthy (stderr r) then stderr r else stdout r.

(** [run_command]; the second [except] clause also re-wraps the
    [DockerError] raised inside the [try] block. *)
Definition run_command (cmd : list string) (cwd : option Path)
    (env : option (gmap string string)) (capture_output : bool)
    (timeout : option Z) (check : bool) : M CompletedProcess :=
  try_except
    (log logger DEBUG ("Running command: " +:+ join_cmd cmd) ≫= λ _,
     r ← external reply_proc (subprocess_run cmd cwd env capture_output timeout);
     if check && negb (returncode r =? 0)
     then raise (mk_exn DockerError
                   ("Command failed: " +:+ join_cmd cmd +:+ nl +:+ error_msg r))
     else mret r)
    [ (λ e, isinstance e TimeoutExpired,
       λ _, raise (mk_exn DockerError
                     ("Command timed out after " +:+ fmt_timeout timeout +:+
                      "s: " +:+ join_cmd cmd)));
      (isinstance_Exception,
       λ e, raise (mk_exn DockerError
                     ("Command execution error: " +:+ exn_msg e))) ].

Definition check_container_exists (container_name : string) : M bool :=
  try_except
    (r ← run_command
           ["docker"; "ps"; "-a"; "--filter"; "name=" +:+ container_name;
            "--format"; "{{.Names}}"]
           None None true None false;
     mret (str_in container_name (stdout r)))
    [ (isinstance_Exception, λ _, mret false) ].

(** [{**subprocess.os.environ, **config.to_env_dict()}] *)
Definition compose_env (c : DeploymentConfig) : M (gmap string string) := λ w,
  (Ret (list_to_map (to_env_dict c) ∪ os_environ (environment w)), w).

Definition compose_file (c : DeploymentConfig) : string :=
  path_join (project_dir c) "docker-compose.yml".

Definition create_directories (config : loc) : M unit :=
  log logger INFO "Creating host directories..." ≫= λ _,
  c ← deref config;
  external reply_unit (Path_mkdir (openclaw_home c)) ≫= λ _,
  log logger DEBUG ("Created directory: " +:+ openclaw_home c) ≫= λ _,
  external reply_unit (Path_mkdir (workspace_dir c)) ≫= λ _,
  log logger DEBUG ("Created directory: " +:+ workspace_dir c) ≫= λ _,
  log logger INFO ("✓ Directories created: " +:+ openclaw_home c +:+ ", " +:+
                   workspace_dir c).

(** [DeploymentConfig.save_env_file] *)
Definition env_file_content (c : DeploymentConfig) : string :=
  "# OpenClaw Docker Configuration" +:+ nl +:+
  "# Generated by openclaw-deploy CLI" +:+ nl +:+ nl +:+
  String.concat ""
    (map (λ kv : string * string, kv.1 +:+ "=" +:+ kv.2 +:+ nl) (to_env_dict c)).

Definition save_env_file (self : loc) (path : Path) : M unit :=
  c ← deref self;
  external reply_unit (write_file path (env_file_content c)).

Definition generate_env_file (config : loc) : M unit :=
  c ← deref config;
  let env_file := path_join (project_dir c) ".env" in
  log logger INFO ("Generating environment file: " +:+ env_file) ≫= λ _,
  (if negb (truthy_opt (gateway_token c))
   then
     t ← external reply_str (secrets_token_hex 32);
     setattr config (set_gateway_token (Some t)) ≫= λ _,
     log logger INFO "Generated new gateway token"
   else mret tt) ≫= λ _,
  save_env_file config env_file ≫= λ _,
  log logger INFO ("✓ Environment file created: " +:+ env_file).

Definition build_image (config : loc) (no_cache : bool) : M unit :=
  c ← deref config;
  log logger INFO ("Building Docker image: " +:+ image_name c) ≫= λ _,
  log logger INFO "This may take several minutes on first build..." ≫= λ _,
  let cmd := ["docker"; "compose"; "-f"; compose_file c; "build"] ++
             (if no_cache then ["--no-cache"] else []) in
  env ← compose_env c;
  run_command cmd (Some (project_dir c)) (Some env) true (Some 1200) true ≫= λ _,
  log logger INFO ("✓ Docker image built successfully: " +:+ image_name c).

Definition start_services (config : loc) : M unit :=
  log logger INFO "Starting OpenClaw services..." ≫= λ _,
  c ← deref config;
  env ← compose_env c;
  let cmd := ["docker"; "compose"; "-f"; compose_file c; "up"; "-d"] in
  run_command cmd (Some (project_dir c)) (Some env) true (Some 120) true ≫= λ _,
  log logger INFO "✓ Services started successfully".

Definition stop_services (config : loc) (remove_volumes : bool) : M unit :=
  log logger INFO "Stopping OpenClaw services..." ≫= λ _,
  c ← deref config;
  env ← compose_env c;
  let cmd := ["docker"; "compose"; "-f"; compose_file c; "down"] ++
             (if remove_volumes then ["-v"] else []) in
  run_command cmd (Some (project_dir c)) (Some env) true (Some 60) true ≫= λ _,
  log logger INFO "✓ Services stopped successfully".

Definition remove_container (container_name : string) (force : bool) : M unit :=
  b ← check_container_exists container_name;
  if negb b then mret tt
  else
    log logger INFO ("Removing container: " +:+ container_name) ≫= λ _,
    let cmd := if force then ["docker"; "rm"; "-f"; container_name]
               else ["docker"; "rm"; container_name] in
    run_command cmd None None true None false ≫= λ _,
    log logger INFO ("✓ Container removed: " +:+ container_name).

Definition remove_volume (volume_name : string) (force : bool) : M unit :=
  log logger INFO ("Removing volume: " +:+ volume_name) ≫= λ _,
  let cmd := if force then ["docker"; "volume"; "rm"; "-f"; volume_name]
             else ["docker"; "volume"; "rm"; volume_name] in
  r ← run_command cmd None None true None false;
  if returncode r =? 0
  then log logger INFO ("✓ Volume removed: " +:+ volume_name)
  else log logger WARNING ("Could not remove volume: " +:+ volume_name).

End docker_utils.

(** ** rollback.py *)

(** The values passed to undo operations.  A [DeploymentConfig] is passed
    as a reference to the object, as Python passes it. *)
Inductive pyval :=
  | VNone
  | VBool (b : bool)
  | VStr (s : string)
  | VRef (l : loc).

(** A callable is applied to positional and keyword arguments; it acts on
    the world and returns (its value is not used) or raises.  It holds no
    reference to the manager that records it, as is the case of every
    operation that the drivers register. *)
Definition Callable : Type := list pyval → list (string * pyval) → M unit.

Record RollbackAction := mk_RollbackAction {
  name : string;
  action : Callable;
  args : list pyval;
  kwargs : list (string * pyval)
}.

(** The dataclass constructor with its [__post_init__]: [kwargs=None]
    becomes the empty dict. *)
Definition RollbackAction_new (name : string) (action : Callable)
    (args : list pyval) (kwargs : option (list (string * pyval))) : RollbackAction :=
  mk_RollbackAction name action args (default [] kwargs).

Record RollbackManager := mk_RollbackManager {
  config : loc;
  actions : list RollbackAction;
  enabled : bool
}.

(** What one call of [execute] did: the manager afterwards, the operations
    it invoked, in the order of invocation and each with what it did, and
    how the call ended. *)
Record Execution := mk_Execution {
  ex_self : RollbackManager;
  ex_invoked : list (RollbackAction * result unit);
  ex_result : result bool;
  ex_world : World
}.

Module rollback.

Definition logger : string := "openclaw_deploy.rollback".

Definition RollbackManager_init (config : loc) : RollbackManager :=
  mk_RollbackManager config [] true.

Definition add_action (self : RollbackManager) (name : string)
    (action : Callable) (args : list pyval) (kwargs : list (string * pyval))
    : M RollbackManager :=
  let rollback_action := RollbackAction_new name action args (Some kwargs) in
  log logger DEBUG ("Added rollback action: " +:+ name) ≫= λ _,
  mret (mk_RollbackManager (config self) (actions self ++ [rollback_action])
          (enabled self)).

Definition disable (self : RollbackManager) : M RollbackManager :=
  log logger DEBUG "Rollback disabled" ≫= λ _,
  mret (mk_RollbackManager (config self) (actions self) false).

Definition clear (self : RollbackManager) : M RollbackManager :=
  log logger DEBUG "Rollback actions cleared" ≫= λ _,
  mret (mk_RollbackManager (config self) [] (enabled self)).

(** The body of [for action in reversed(self.actions)], on the actions
    still to visit: the invocations made, then the value of [success]
    when the loop ends, or the exception that leaves it. *)
Fixpoint unwind (todo : list RollbackAction) (success : bool) (w : World)
    : list (RollbackAction * result unit) * (result bool * World) :=
  match todo with
  | [] => ([], (Ret success, w))
  | a :: rest =>
      match (log logger INFO ("Rolling back: " +:+ name a) ≫= λ _,
             action a (args a) (kwargs a)) w with
      | (Ret tt, w') =>
          let '(tr, out) := unwind rest success w' in
          ((a, Ret tt) :: tr, out)
      | (Raise e, w') =>
          if isinstance_Exception e then
            let '(_, w'') :=
              log logger ERROR ("Rollback action failed: " +:+ name a +:+
                                " - " +:+ exn_msg e) w' in
            let '(tr, out) := unwind rest false w'' in
            ((a, Raise e) :: tr, out)
          else ([(a, Raise e)], (Raise e, w'))
      end
  end.

Definition execute (self : RollbackManager) (w : World) : Execution :=
  if negb (enabled self) then
    let '(_, w1) := log logger INFO "Rollback is disabled, skipping" w in
    mk_Execution self [] (Ret true) w1
  else if bool_decide (actions self = []) then
    let '(_, w1) := log logger INFO "No rollback actions to execute" w in
    mk_Execution self [] (Ret true) w1
  else
    let '(_, w1) :=
      (log logger WARNING "Executing rollback..." ≫= λ _,
       log logger INFO ("Rolling back " +:+ pretty (length (actions self)) +:+
                        " action(s)")) w in
    match unwind (rev (actions self)) true w1 with
    | (tr, (Ret success, w2)) =>
        let '(_, w3) :=
          (if success
           then log logger INFO "✓ Rollback completed successfully"
           else log logger WARNING "⚠ Rollback completed with some errors") w2 in
        mk_Execution self tr (Ret success) w3
    | (tr, (Raise e, w2)) => mk_Execution self tr (Raise e) w2
    end.

Definition cleanup_failed_deployment (config : loc) (remove_volumes : bool)
    : M unit :=
  log logger INFO "Cleaning up failed deployment..." ≫= λ _,
  try_except (docker_utils.stop_services config remove_volumes)
    [ (isinstance_Exception,
       λ e, log logger WARNING ("Error stopping services: " +:+ exn_msg e)) ] ≫= λ _,
  try_except
    (c ← deref config; docker_utils.remove_container (container_name c) true)
    [ (isinstance_Exception,
       λ e, log logger WARNING ("Error removing container: " +:+ exn_msg e)) ] ≫= λ _,
  (if remove_volumes then
     try_except
       (c ← deref config; docker_utils.remove_volume (home_volume c) true)
       [ (isinstance_Exception,
          λ e, log logger WARNING ("Error removing volume: " +:+ exn_msg e)) ]
   else mret tt) ≫= λ _,
  log logger INFO "✓ Cleanup completed".

End rollback.

(** ** The callables that the drivers register

    A call that does not fit the signature raises [TypeError]. *)

Definition bad_call : M unit :=
  raise (mk_exn TypeError "arguments do not fit the signature").

(** [cleanup_failed_deployment(config, remove_volumes=False)] *)
Definition cleanup_failed_deployment_callable : Callable := λ args kwargs,
  match args, kwargs with
  | [VRef config], [] => rollback.cleanup_failed_deployment config false
  | [VRef config; VBool remove_volumes], [] =>
      rollback.cleanup_failed_deployment config remove_volumes
  | [VRef config], [(key, VBool remove_volumes)] =>
      if String.eqb key "remove_volumes"
      then rollback.cleanup_failed_deployment config remove_volumes
      else bad_call
  | _, _ => bad_call
  end.

(** [start_services(config)] *)
Definition start_services_callable : Callable := λ args kwargs,
  match args, kwargs with
  | [VRef config], [] => docker_utils.start_services config
  | _, _ => bad_call
  end.

(** The bound method [env_file.unlink], of signature
    [unlink(missing_ok=False)]: the path is part of the callable. *)
Definition unlink_callable (env_file : Path) : Callable := λ args kwargs,
  match args, kwargs with
  | [], [] => external reply_unit (Path_unlink env_file)
  | _, _ => bad_call
  end.

(** ** Python string helpers used by the drivers (on ASCII text) *)

(** [s * n] *)
Fixpoint str_mul (s : string) (n : nat) : string :=
  match n with
  | O => ""
  | S n' => s +:+ str_mul s n'
  end.

Definition is_space (a : Ascii.ascii) : bool :=
  let n := Ascii.nat_of_ascii a in
  ((9 <=? n) && (n <=? 13) || (28 <=? n) && (n <=? 32))%nat.

Fixpoint lstrip (s : string) : string :=
  match s with
  | String a rest => if is_space a then lstrip rest else s
  | EmptyString => EmptyString
  end.

(** [rstrip]: the text without its trailing white space *)
Fixpoint rstrip (s : string) : string :=
  match s with
  | String a rest =>
      match rstrip rest with
      | EmptyString => if is_space a then EmptyString else String a EmptyString
      | r => String a r
      end
  | EmptyString => EmptyString
  end.

Definition strip (s : string) : string := rstrip (lstrip s).

Definition lower_ascii (a : Ascii.ascii) : Ascii.ascii :=
  let n := Ascii.nat_of_ascii a in
  if ((65 <=? n) && (n <=? 90))%nat then Ascii.ascii_of_nat (n + 32) else a.

Fixpoint lower (s : string) : string :=
  match s with
  | String a rest => String (lower_ascii a) (lower rest)
  | EmptyString => EmptyString
  end.

(** ** What a driver run holds: the world, its [rollback] object, and the
    calls it has made on that object so far, in order. *)

Inductive seq_call :=
  | call_add_action (name : string)
  | call_disable
  | call_clear
  | call_execute (r : result bool).

Record Run := mk_Run {
  world : World;
  rollback_obj : RollbackManager;
  calls : list seq_call
}.

Abbreviation D := (ST Run).

(** A step that does not touch the [rollback] object. *)
Definition lift {A} (m : M A) : D A := λ s,
  let '(r, w') := m (world s) in
  (r, mk_Run w' (rollback_obj s) (calls s)).

(** A call of one of the mutating methods on the [rollback] object. *)
Definition method (c : seq_call) (m : RollbackManager → M RollbackManager)
    : D unit := λ s,
  match m (rollback_obj s) (world s) with
  | (Ret self', w') => (Ret tt, mk_Run w' self' (calls s ++ [c]))
  | (Raise e, w') => (Raise e, mk_Run w' (rollback_obj s) (calls s ++ [c]))
  end.

Definition rollback_add_action (name : string) (action : Callable)
    (args : list pyval) : D unit :=
  method (call_add_action name)
    (λ self, rollback.add_action self name action args []).

Definition rollback_disable : D unit := method call_disable rollback.disable.

Definition rollback_clear : D unit := method call_clear rollback.clear.

Definition rollback_execute : D bool := λ s,
  let x := rollback.execute (rollback_obj s) (world s) in
  (ex_result x,
   mk_Run (ex_world x) (ex_self x) (calls s ++ [call_execute (ex_result x)])).

(** [if cond: body] for a body without a value *)
Definition when {S} (cond : bool) (body : ST S unit) : ST S unit :=
  if cond then body else mret tt.

(** How a driver run ends: what it returned or raised, the calls it made
    on its [rollback] object, and the world it leaves. *)
Record Outcome := mk_Outcome {
  out_result : result bool;
  out_calls : list seq_call;
  out_world : World
}.

(** Running the part of a driver that owns a [rollback] object. *)
Definition with_rollback (rollback : RollbackManager) (body : D bool)
    (w : World) : Outcome :=
  let '(r, s) := body (mk_Run w rollback []) in
  mk_Outcome r (calls s) (world s).

(** ** deploy.py *)

Module deploy.

Definition logger : string := "openclaw_deploy.deploy".
Definition info (msg : string) : D unit := lift (log logger INFO msg).
Definition warning (msg : string) : D unit := lift (log logger WARNING msg).
Definition error (msg : string) : D unit := lift (log logger ERROR msg).

(** What follows the health check when the deployment has succeeded. *)
Definition success (config : loc) : D bool :=
  rollback_clear;;
  info (str_mul "=" 50);;
  info "✓ Deployment completed successfully!";;
  info (str_mul "=" 50);;
  info "";;
  c ← lift (deref config);
  info ("Web UI:  http://localhost:" +:+ pretty (gateway_port c));;
  when (truthy_opt (gateway_token c))
    (info ("Token:   " +:+ default "" (gateway_token c));;
     info "";;
     info "Full URL:";;
     info ("  http://localhost:" +:+ pretty (gateway_port c) +:+ "?token=" +:+
           default "" (gateway_token c)));;
  info "";;
  info "Useful commands:";;
  info "  openclaw-deploy status      # Check deployment status";;
  info "  openclaw-deploy cleanup     # Remove deployment";;
  info "  docker compose logs -f      # View logs";;
  info "";;
  mret true.

(** [generate_env_file(config)] and the registration of its undo. *)
Definition generate_and_register (config : loc) (env_file : Path) : D unit :=
  lift (docker_utils.generate_env_file config);;
  rollback_add_action "Remove .env file" (unlink_callable env_file) [].

(** The body of the [try] statement of [run_deploy]. *)
Definition try_block (config : loc)
    (no_cache skip_health_check interactive auto_rollback : bool) : D bool :=
  (* Step 1: Validate prerequisites *)
  info "Step 1/6: Validating prerequisites";;
  info (str_mul "-" 50);;
  c ← lift (deref config);
  lift (external reply_unit
          (validate_and_report (gateway_port c) (project_dir c) true));;
  info "";;
  (* Step 2: Create directories *)
  info "Step 2/6: Creating host directories";;
  info (str_mul "-" 50);;
  lift (docker_utils.create_directories config);;
  info "";;
  (* Step 3: Generate environment file *)
  info "Step 3/6: Generating environment configuration";;
  info (str_mul "-" 50);;
  c ← lift (deref config);
  let env_file := path_join (project_dir c) ".env" in
  b ← lift (external reply_bool (Path_exists env_file));
  (if b && interactive then
     warning (".env file already exists: " +:+ env_file);;
     response ← lift (external reply_str
                        (input "Overwrite existing .env file? [y/N]: "));
     if negb (String.eqb (lower (strip response)) "y")
     then info "Keeping existing .env file"
     else generate_and_register config env_file
   else generate_and_register config env_file);;
  c ← lift (deref config);
  when (negb (truthy_opt (anthropic_api_key c) || truthy_opt (openai_api_key c) ||
              truthy_opt (google_ai_api_key c) || truthy_opt (ollama_base_url c)))
    (warning "";;
     warning "⚠ No API keys configured!";;
     warning ("Edit " +:+ env_file +:+
              " to add your API keys before the gateway will work.");;
     warning "");;
  info "";;
  (* Step 4: Build Docker image *)
  info "Step 4/6: Building Docker image";;
  info (str_mul "-" 50);;
  lift (docker_utils.build_image config no_cache);;
  info "";;
  (* Step 5: Start services *)
  info "Step 5/6: Starting services";;
  info (str_mul "-" 50);;
  lift (docker_utils.start_services config);;
  rollback_add_action "Stop services" cleanup_failed_deployment_callable
    [VRef config; VBool false];;
  info "";;
  (* Step 6: Health check *)
  if negb skip_health_check then
    info "Step 6/6: Verifying deployment health";;
    info (str_mul "-" 50);;
    c ← lift (deref config);
    healthy ← lift (external reply_bool
                      (wait_for_healthy (container_name c) 120 5));
    if negb healthy then
      error "";;
      error "Health check failed!";;
      error "Check logs for details:";;
      error ("  docker compose logs -f " +:+ container_name c);;
      error "";;
      if auto_rollback then
        rollback_execute;;
        mret false
      else
        warning "Auto-rollback is disabled. Services are still running.";;
        warning "Run 'openclaw-deploy cleanup' to remove the deployment.";;
        mret false
    else
      info "";;
      success config
  else
    info "Step 6/6: Health check skipped";;
    info "";;
    success config.

(** The three [except] clauses of [run_deploy], in order. *)
Definition except_clauses (auto_rollback : bool)
    : list ((exn → bool) * (exn → D bool)) :=
  [ (λ e, isinstance e ValidationError || isinstance e DockerError,
     λ e, error "";;
          error ("Deployment failed: " +:+ exn_msg e);;
          error "";;
          when auto_rollback (rollback_execute;; mret tt);;
          mret false);
    (λ e, isinstance e KeyboardInterrupt,
     λ _, warning "";;
          warning "Deployment interrupted by user";;
          warning "";;
          when auto_rollback (rollback_execute;; mret tt);;
          mret false);
    (isinstance_Exception,
     λ e, error "";;
          error ("Unexpected error during deployment: " +:+ exn_msg e);;
          error "";;
          when auto_rollback (rollback_execute;; mret tt);;
          mret false) ].

(** What [run_deploy] does before it creates its [rollback] object. *)
Definition prepare (config_file : option Path) (project_dir : Path)
    (gateway_token api_key : option string) : M loc :=
  config ← load_config config_file (Some (path_join project_dir ".env"))
             (Some project_dir) gateway_token;
  when (truthy_opt api_key)
    (c ← deref config;
     when (negb (truthy_opt (anthropic_api_key c)))
       (setattr config (set_anthropic_api_key api_key)));;
  mret config.

Definition run_deploy (config_file project_dir : option Path)
    (gateway_token api_key : option string)
    (no_cache skip_health_check interactive auto_rollback : bool)
    (w : World) : Outcome :=
  let project_dir := default (Path_cwd (environment w)) project_dir in
  match prepare config_file project_dir gateway_token api_key w with
  | (Raise e, w') => mk_Outcome (Raise e) [] w'
  | (Ret config, w') =>
      with_rollback (rollback.RollbackManager_init config)
        (when (negb auto_rollback) rollback_disable;;
         info (str_mul "=" 50);;
         info "OpenClaw Deployment";;
         info (str_mul "=" 50);;
         info "";;
         try_except
           (try_block config no_cache skip_health_check interactive
              auto_rollback)
           (except_clauses auto_rollback))
        w'
  end.

End deploy.

(** ** update.py *)

Module update.

Definition logger : string := "openclaw_deploy.update".
Definition info (msg : string) : D unit := lift (log logger INFO msg).
Definition warning (msg : string) : D unit := lift (log logger WARNING msg).
Definition error (msg : string) : D unit := lift (log logger ERROR msg).

(** The end of a successful update. *)
Definition success (config : loc) : D bool :=
  info (str_mul "=" 50);;
  info "âœ“ Update completed successfully!";;
  info (str_mul "=" 50);;
  info "";;
  c ← lift (deref config);
  info ("Web UI: http://localhost:" +:+ pretty (gateway_port c));;
  info "";;
  mret true.

(** The body of the [try] statement of [run_update]. *)
Definition try_block (config : loc)
    (no_cache skip_health_check auto_rollback : bool) : D bool :=
  (* Step 1: Validate prerequisites *)
  info "Step 1/4: Validating prerequisites";;
  info (str_mul "-" 50);;
  c ← lift (deref config);
  lift (external reply_unit
          (validate_and_report (gateway_port c) (project_dir c) true));;
  info "";;
  (* Step 2: Stop services *)
  info "Step 2/4: Stopping current services";;
  info (str_mul "-" 50);;
  lift (docker_utils.stop_services config false);;
  rollback_add_action "Start services" start_services_callable [VRef config];;
  info "";;
  (* Step 3: Rebuild image *)
  info "Step 3/4: Rebuilding Docker image";;
  info (str_mul "-" 50);;
  info "Building with --no-cache to get latest OpenClaw version...";;
  lift (docker_utils.build_image config no_cache);;
  info "";;
  (* Step 4: Start services *)
  info "Step 4/4: Starting updated services";;
  info (str_mul "-" 50);;
  lift (docker_utils.start_services config);;
  rollback_clear;;
  info "";;
  (* Health check *)
  if negb skip_health_check then
    info "Verifying deployment health...";;
    info (str_mul "-" 50);;
    c ← lift (deref config);
    healthy ← lift (external reply_bool
                      (wait_for_healthy (container_name c) 120 5));
    if negb healthy then
      error "";;
      error "Health check failed after update!";;
      error "Check logs for details:";;
      error ("  docker compose logs -f " +:+ container_name c);;
      error "";;
      if auto_rollback then
        warning "Rolling back to previous state...";;
        lift (docker_utils.stop_services config false);;
        warning "Previous image was overwritten. You may need to redeploy.";;
        mret false
      else mret false
    else
      info "";;
      success config
  else success config.

(** The two [except] clauses of [run_update], in order. *)
Definition except_clauses (auto_rollback : bool)
    : list ((exn → bool) * (exn → D bool)) :=
  [ (λ e, isinstance e DockerError || isinstance_Exception e,
     λ e, error "";;
          error ("Update failed: " +:+ exn_msg e);;
          error "";;
          when auto_rollback
            (warning "Attempting to restart previous services...";;
             rollback_execute;; mret tt);;
          mret false);
    (λ e, isinstance e KeyboardInterrupt,
     λ _, warning "";;
          warning "Update interrupted by user";;
          warning "";;
          when auto_rollback (rollback_execute;; mret tt);;
          mret false) ].

(** What [run_update] does before it creates its [rollback] object: the
    configuration object, when the container exists. *)
Definition prepare (config_file : option Path) (project_dir : Path)
    : M (option loc) :=
  config ← load_config config_file (Some (path_join project_dir ".env"))
             (Some project_dir) None;
  c ← deref config;
  b ← docker_utils.check_container_exists (container_name c);
  if negb b then
    log logger ERROR ("Container '" +:+ container_name c +:+ "' does not exist");;
    log logger ERROR "Run 'openclaw-deploy deploy' first to create a deployment";;
    mret None
  else mret (Some config).

Definition run_update (config_file project_dir : option Path)
    (no_cache skip_health_check auto_rollback : bool) (w : World) : Outcome :=
  let project_dir := default (Path_cwd (environment w)) project_dir in
  match prepare config_file project_dir w with
  | (Raise e, w') => mk_Outcome (Raise e) [] w'
  | (Ret None, w') => mk_Outcome (Ret false) [] w'
  | (Ret (Some config), w') =>
      with_rollback (rollback.RollbackManager_init config)
        (when (negb auto_rollback) rollback_disable;;
         info (str_mul "=" 50);;
         info "OpenClaw Update";;
         info (str_mul "=" 50);;
         info "";;
         try_except
           (try_block config no_cache skip_health_check auto_rollback)
           (except_clauses auto_rollback))
        w'
  end.

End update.

(** ** A client's calls on one sequencer, one after the other *)

Inductive op :=
  | op_add_action (name : string) (action : Callable) (args : list pyval)
      (kwargs : list (string * pyval))
  | op_disable
  | op_clear
  | op_execute.

Definition is_op_disable (o : op) : bool :=
  match o with op_disable => true | _ => false end.

(** The manager after a method that returns it. *)
Definition after (self : RollbackManager)
    (r : result RollbackManager * World) : RollbackManager * World :=
  match r with
  | (Ret self', w') => (self', w')
  | (Raise _, w') => (self, w')
  end.

(** One call; the client goes on whatever [execute] returns or raises. *)
Definition apply_op (o : op) (self : RollbackManager) (w : World)
    : RollbackManager * World :=
  match o with
  | op_add_action name action args kwargs =>
      after self (rollback.add_action self name action args kwargs w)
  | op_disable => after self (rollback.disable self w)
  | op_clear => after self (rollback.clear self w)
  | op_execute =>
      (ex_self (rollback.execute self w), ex_world (rollback.execute self w))
  end.

Fixpoint apply_ops (ops : list op) (self : RollbackManager) (w : World)
    : RollbackManager * World :=
  match ops with
  | [] => (self, w)
  | o :: rest => let '(self', w') := apply_op o self w in apply_ops rest self' w'
  end.

(** A registration, as the arguments of [add_action]. *)
Definition registration : Type :=
  string * Callable * list pyval * list (string * pyval).

Definition op_of_registration (r : registration) : op :=
  let '(name, action, args, kwargs) := r in
  op_add_action name action args kwargs.

(** The log entry that a registration makes. *)
Definition action_of_registration (r : registration) : RollbackAction :=
  let '(name, action, args, kwargs) := r in
  mk_RollbackAction name action args kwargs.

(** ** Observations on an unwind *)

(** No invocation of the unwind raised outside [Exception]. *)
Definition caught (r : result unit) : bool :=
  match r with Ret _ => true | Raise e => isinstance_Exception e end.

Definition all_caught (tr : list (RollbackAction * result unit)) : bool :=
  forallb (λ x, caught x.2) tr.


(** What an unwind does, as its caller and the outside see it: how
    [execute] ended, what each invocation did, the external calls made and
    the lines logged. *)
Definition behaviour (x : Execution)
    : result bool * list (result unit) * list ext_call * list LogRecord :=
  (ex_result x, (ex_invoked x).*2, issued (ex_world x), logs (ex_world x)).

(** Writing a line in the log is all that happens to the world. *)
Definition logged (name : string) (lvl : log_level) (msg : string)
    (w : World) : World :=
  mk_World (environment w) (heap w) (issued w)
    (logs w ++ [mk_LogRecord name lvl msg]).

(** The attributes of the configuration object that the registered undo
    operations read: [project_dir], what [to_env_dict] exports,
    [container_name] and [home_volume]. *)
Definition undo_view (c : DeploymentConfig)
    : Path * list (string * string) * string * string :=
  (project_dir c, to_env_dict c, container_name c, home_volume c).

(** Two worlds that differ at most in attributes of configuration objects
    that the undo operations do not read. *)
Definition same_for_undo (w1 w2 : World) : Prop :=
  environment w1 = environment w2 ∧
  issued w1 = issued w2 ∧
  logs w1 = logs w2 ∧
  ∀ l, undo_view <$> (heap w1 !! l) = undo_view <$> (heap w2 !! l).

(** The operations that the drivers register. *)
Definition driver_callable (f : Callable) : Prop :=
  f = cleanup_failed_deployment_callable ∨
  f = start_services_callable ∨
  ∃ env_file, f = unlink_callable env_file.

(** The loop of [execute], entered after the two lines that announce it. *)
Definition execute_loop (self : RollbackManager) (w : World)
    : list (RollbackAction * result unit) * (result bool * World) :=
  rollback.unwind (rev (actions self)) true
    (logged rollback.logger INFO
       ("Rolling back " +:+ pretty (length (actions self)) +:+ " action(s)")
       (logged rollback.logger WARNING "Executing rollback..." w)).

(** ** Observations on the calls of a driver run *)

Definition is_execute (c : seq_call) : bool :=
  match c with call_execute _ => true | _ => false end.

Definition is_add_action (c : seq_call) : bool :=
  match c with call_add_action _ => true | _ => false end.

Definition execute_raised (c : seq_call) : bool :=
  match c with call_execute (Raise _) => true | _ => false end.

(** [execute] was called exactly once, and no call follows it. *)
Definition executed_once_last (cs : list seq_call) : bool :=
  match rev cs with
  | call_execute _ :: before => forallb (λ c, negb (is_execute c)) before
  | _ => false
  end.

(** [execute] was called at most once, and no call follows it. *)
Definition executed_at_most_once_last (cs : list seq_call) : bool :=
  forallb (λ c, negb (is_execute c)) cs || executed_once_last cs.

(** ** Example worlds *)

Definition example_config : DeploymentConfig :=
  mk_DeploymentConfig "/srv/openclaw" "/home/op/.openclaw"
    "/home/op/openclaw/workspace" "openclaw:local" "openclaw-gateway" 18789
    "latest" (Some "s3cr3t") "lan" None None None None "" "openclaw-home"
    "unless-stopped" true "512M" "10m" "3" 30 10 60 3.

(** Every external call succeeds; [docker ps] lists the container. *)
Definition quiet_environment : Environment :=
  mk_Environment ∅ "/srv/openclaw" "/home/op"
    (λ _ _, Ret (mk_CompletedProcess 0 "openclaw-gateway" ""))
    (λ _ _, Ret tt)
    (λ _ _, Ret true)
    (λ _ _, Ret "y")
    (λ _ _, Ret example_config).

(** The container never gets healthy; no [.env] file exists yet. *)
Definition unhealthy_environment : Environment :=
  mk_Environment ∅ "/srv/openclaw" "/home/op"
    (λ _ _, Ret (mk_CompletedProcess 0 "openclaw-gateway" ""))
    (λ _ _, Ret tt)
    (λ _ c, match c with
            | wait_for_healthy _ _ _ | Path_exists _ => Ret false
            | _ => Ret true
            end)
    (λ _ _, Ret "y")
    (λ _ _, Ret example_config).

(** As above, and the operator presses Ctrl-C during the eleventh
    external call of the run. *)
Definition interrupted_rollback_environment : Environment :=
  mk_Environment ∅ "/srv/openclaw" "/home/op"
    (λ n _, if bool_decide (n = 10%nat)
            then Raise (mk_exn KeyboardInterrupt "")
            else Ret (mk_CompletedProcess 0 "openclaw-gateway" ""))
    (λ _ _, Ret tt)
    (λ _ c, match c with
            | wait_for_healthy _ _ _ | Path_exists _ => Ret false
            | _ => Ret true
            end)
    (λ _ _, Ret "y")
    (λ _ _, Ret example_config).

(** The operator presses Ctrl-C while a [docker] command runs. *)
Definition interrupted_environment : Environment :=
  mk_Environment ∅ "/srv/openclaw" "/home/op"
    (λ _ _, Raise (mk_exn KeyboardInterrupt ""))
    (λ _ _, Ret tt)
    (λ _ _, Ret true)
    (λ _ _, Ret "y")
    (λ _ _, Ret example_config).

(** The [docker] commands fail, and the [.env] file is already gone. *)
Definition failing_environment : Environment :=
  mk_Environment ∅ "/srv/openclaw" "/home/op"
    (λ _ _, Ret (mk_CompletedProcess 1 "" "Cannot connect to the Docker daemon"))
    (λ _ c, match c with
            | Path_unlink _ => Raise (mk_exn OSError "No such file or directory")
            | _ => Ret tt
            end)
    (λ _ _, Ret true)
    (λ _ _, Ret "y")
    (λ _ _, Ret example_config).

(** A world whose only object is the configuration, at reference [0]. *)
Definition world_of (env : Environment) (c : DeploymentConfig) : World :=
  mk_World env {[ 0%nat := c ]} [] [].

(** The registrations that [run_deploy] makes, in their order. *)
Definition deploy_registrations : list registration :=
  [ ("Remove .env file", unlink_callable "/srv/openclaw/.env", [], []);
    ("Stop services", cleanup_failed_deployment_callable,
     [VRef 0%nat; VBool false], []) ].

(** * Properties of the sequencer *)

Section unwind.

Import rollback.

Lemma unwind_cons a rest success w :
  unwind (a :: rest) success w =
  match action a (args a) (kwargs a)
          (logged logger INFO ("Rolling back: " +:+ name a) w) with
  | (Ret tt, w') =>
      ((a, Ret tt) :: (unwind rest success w').1, (unwind rest success w').2)
  | (Raise e, w') =>
      if isinstance_Exception e then
        let w'' := logged logger ERROR
                     ("Rollback action failed: " +:+ name a +:+ " - " +:+
                      exn_msg e) w' in
        ((a, Raise e) :: (unwind rest false w'').1, (unwind rest false w'').2)
      else ([(a, Raise e)], (Raise e, w'))
  end.
Proof.
  simpl. unfold mbind, ST_bind, log, logged. simpl.
  destruct (action a _ _ _) as [[[]|e] w']; simpl.
  - by destruct (unwind rest success w').
  - destruct (isinstance_Exception e); [|done].
    by destruct (unwind rest false _).
Qed.

(** The invocations of the loop are an initial part of the actions it has
    to visit. *)
Lemma unwind_prefix todo success w :
  (unwind todo success w).1.*1 `prefix_of` todo.
Proof.
  revert success w. induction todo as [|a rest IH]; intros success w.
  - done.
  - rewrite unwind_cons.
    destruct (action a _ _ _) as [[[]|e] w']; simpl.
    + apply prefix_cons, IH.
    + destruct (isinstance_Exception e); simpl.
      * apply prefix_cons, IH.
      * apply prefix_cons, prefix_nil.
Qed.


(** The loop is left by an exception only when an invocation raised it,
    the last one made, and it is not an instance of [Exception]. *)
Lemma unwind_raise todo success w e :
  (unwind todo success w).2.1 = Raise e →
  isinstance_Exception e = false ∧
  ∃ a, last (unwind todo success w).1 = Some (a, Raise e).
Proof.
  revert success w. induction todo as [|a rest IH]; intros success w.
  - done.
  - rewrite unwind_cons.
    destruct (action a _ _ _) as [[[]|e'] w']; simpl.
    + intros H. destruct (IH _ _ H) as [? [b Hb]]. split; [done|].
      exists b. destruct (unwind rest success w').1; [done|]. done.
    + destruct (isinstance_Exception e') eqn:He; simpl.
      * intros H. destruct (IH _ _ H) as [? [b Hb]]. split; [done|].
        exists b. destruct (unwind rest false _).1; [done|]. done.
      * intros [= <-]. split; [done|]. by exists a.
Qed.

(** The loop returns exactly when nothing was raised outside [Exception]. *)
Lemma unwind_returns todo success w :
  is_Ret (unwind todo success w).2.1 = all_caught (unwind todo success w).1.
Proof.
  revert success w. induction todo as [|a rest IH]; intros success w.
  - done.
  - rewrite unwind_cons.
    destruct (action a _ _ _) as [[[]|e] w']; simpl.
    + apply IH.
    + destruct (isinstance_Exception e) eqn:He; simpl; rewrite He; simpl.
      * apply IH.
      * done.
Qed.

End unwind.

Section sequencer.

Import rollback.

Lemma execute_disabled self w :
  enabled self = false →
  execute self w =
  mk_Execution self [] (Ret true)
    (logged logger INFO "Rollback is disabled, skipping" w).
Proof. intros H. unfold execute. by rewrite H. Qed.

Lemma execute_empty self w :
  enabled self = true → actions self = [] →
  execute self w =
  mk_Execution self [] (Ret true)
    (logged logger INFO "No rollback actions to execute" w).
Proof. intros H1 H2. unfold execute. by rewrite H1, H2. Qed.

Lemma execute_nonempty self w :
  enabled self = true → actions self ≠ [] →
  ex_invoked (execute self w) = (execute_loop self w).1 ∧
  ex_result (execute self w) = (execute_loop self w).2.1.
Proof.
  intros H1 H2. unfold execute, execute_loop. rewrite H1. simpl.
  rewrite bool_decide_eq_false_2 by done.
  unfold mbind, ST_bind, log, logged. simpl.
  destruct (unwind _ _ _) as [tr [[b|e] w2]]; simpl; [|done].
  by destruct b.
Qed.

(** [execute] never assigns to [self]. *)
Lemma execute_self self w : ex_self (execute self w) = self.
Proof.
  unfold execute. destruct (enabled self); simpl; [|done].
  case_bool_decide; [done|].
  unfold mbind, ST_bind, log. simpl.
  destruct (unwind _ _ _) as [tr [[b|e] w2]]; simpl; [|done].
  by destruct b.
Qed.


(** [execute] returns exactly when nothing was raised outside
    [Exception]. *)
Lemma execute_returns self w :
  is_Ret (ex_result (execute self w)) = all_caught (ex_invoked (execute self w)).
Proof.
  destruct (enabled self) eqn:Hen.
  - destruct (decide (actions self = [])) as [Hnil|Hne].
    + by rewrite (execute_empty _ _ Hen Hnil).
    + destruct (execute_nonempty self w Hen Hne) as [-> ->].
      apply unwind_returns.
  - by rewrite (execute_disabled _ _ Hen).
Qed.

Lemma execute_raise self w e :
  ex_result (execute self w) = Raise e →
  isinstance_Exception e = false ∧
  ∃ a, last (ex_invoked (execute self w)) = Some (a, Raise e).
Proof.
  destruct (enabled self) eqn:Hen.
  - destruct (decide (actions self = [])) as [Hnil|Hne].
    + by rewrite (execute_empty _ _ Hen Hnil).
    + destruct (execute_nonempty self w Hen Hne) as [-> ->].
      apply unwind_raise.
  - by rewrite (execute_disabled _ _ Hen).
Qed.

(** The mutating methods: what they return and what they leave. *)
Lemma add_action_eq self name action args kwargs w :
  add_action self name action args kwargs w =
  (Ret (mk_RollbackManager (config self)
          (actions self ++ [mk_RollbackAction name action args kwargs])
          (enabled self)),
   logged logger DEBUG ("Added rollback action: " +:+ name) w).
Proof. done. Qed.

Lemma disable_eq self w :
  disable self w =
  (Ret (mk_RollbackManager (config self) (actions self) false),
   logged logger DEBUG "Rollback disabled" w).
Proof. done. Qed.

Lemma clear_eq self w :
  clear self w =
  (Ret (mk_RollbackManager (config self) [] (enabled self)),
   logged logger DEBUG "Rollback actions cleared" w).
Proof. done. Qed.

(** Registrations extend the log in their order and change nothing else
    of the manager. *)
Lemma apply_registrations (regs : list registration) self w :
  (apply_ops (op_of_registration <$> regs) self w).1 =
  mk_RollbackManager (config self)
    (actions self ++ (action_of_registration <$> regs)) (enabled self).
Proof.
  revert self w. induction regs as [|[[[n a] ar] kw] regs IH]; intros self w.
  - simpl. rewrite app_nil_r. by destruct self.
  - rewrite fmap_cons. simpl. rewrite IH. simpl.
    by rewrite <- app_assoc.
Qed.

(** Only [disable] changes [enabled], and it clears it. *)
Lemma apply_op_enabled o self w :
  enabled (apply_op o self w).1 =
  enabled self && negb (is_op_disable o).
Proof.
  destruct o; simpl.
  - by rewrite andb_true_r.
  - by rewrite andb_false_r.
  - by rewrite andb_true_r.
  - by rewrite execute_self, andb_true_r.
Qed.

Lemma apply_ops_enabled ops self w :
  enabled (apply_ops ops self w).1 =
  enabled self && negb (existsb is_op_disable ops).
Proof.
  revert self w. induction ops as [|o ops IH]; intros self w.
  - simpl. by rewrite andb_true_r.
  - simpl. pose proof (apply_op_enabled o self w) as Ho.
    destruct (apply_op o self w) as [self' w']. rewrite IH.
    simpl in Ho. rewrite Ho, negb_orb. by rewrite andb_assoc.
Qed.

End sequencer.

(** * The claims on the sequencer *)

Section claims.

Import rollback.







(** In that run the file was already gone, so one undo failed: every
    action was still invoked and [execute] returned false. *)
Example execute_failing_run :
  let s := apply_ops (op_of_registration <$> deploy_registrations)
             (RollbackManager_init 0%nat)
             (world_of failing_environment example_config) in
  (ex_invoked (execute s.1 s.2)).*2 =
    [Ret tt; Raise (mk_exn OSError "No such file or directory")] ∧
  ex_result (execute s.1 s.2) = Ret false.
Proof. vm_compute. done. Qed.

(** C3, as stated, fails: the interrupt raised inside the undo leaves
    [execute]. *)
Lemma execute_never_raises_fails :
  ¬ (∀ (self : RollbackManager) (w : World),
       ∃ b, ex_result (execute self w) = Ret b).
Proof.
  intros H.
  destruct (H (mk_RollbackManager 0%nat
                 (action_of_registration <$> deploy_registrations) true)
              (world_of interrupted_environment example_config)) as [b Hb].
  vm_compute in Hb. discriminate Hb.
Qed.

(** C3, amended: [execute] never lets an exception that is an instance of
    [Exception] reach its caller.  It returns a boolean exactly when no
    invoked operation raised outside [Exception]; the only exceptions that
    leave it are those, not instances of [Exception], that the operation
    invoked last has raised. *)
Theorem execute_raises_only_outside_Exception (self : RollbackManager)
    (w : World) :
  is_Ret (ex_result (execute self w)) =
    all_caught (ex_invoked (execute self w)) ∧
  ∀ e, ex_result (execute self w) = Raise e →
       isinstance_Exception e = false ∧
       ∃ a, last (ex_invoked (execute self w)) = Some (a, Raise e).
Proof. split; [apply execute_returns | apply execute_raise]. Qed.

(** C5: [disable] keeps the log, and whatever is called after it,
    [execute] returns true, invokes nothing and leaves the manager as it
    is: it only writes a line in the log. *)
Theorem execute_after_disable (self : RollbackManager) (w : World)
    (ops : list op) :
  let s0 := apply_op op_disable self w in
  let s := apply_ops ops s0.1 s0.2 in
  actions s0.1 = actions self ∧
  execute s.1 s.2 =
    mk_Execution s.1 [] (Ret true)
      (logged logger INFO "Rollback is disabled, skipping" s.2).
Proof.
  intros s0 s. split; [done|].
  apply execute_disabled. subst s. by rewrite apply_ops_enabled.
Qed.

(** C7: on an empty log, with [enabled] true, [execute] returns true and
    invokes nothing: it only writes a line in the log. *)
Theorem execute_on_empty_log (self : RollbackManager) (w : World) :
  enabled self = true → actions self = [] →
  execute self w =
    mk_Execution self [] (Ret true)
      (logged logger INFO "No rollback actions to execute" w).
Proof. apply execute_empty. Qed.

Lemma execute_on_empty_log_witness :
  execute (RollbackManager_init 0%nat)
    (world_of quiet_environment example_config) =
  mk_Execution (RollbackManager_init 0%nat) [] (Ret true)
    (logged logger INFO "No rollback actions to execute"
       (world_of quiet_environment example_config)).
Proof.
  apply (execute_on_empty_log (RollbackManager_init 0%nat)
           (world_of quiet_environment example_config)); reflexivity.
Defined.

(** C8: after any sequence of registrations, [clear] followed by
    [execute] invokes nothing and returns true, and does in every world
    what [execute] does on a manager whose log was never populated. *)
Theorem clear_then_execute (cfg : loc) (regs : list registration)
    (w0 w : World) :
  let s := apply_ops (op_of_registration <$> regs)
             (RollbackManager_init cfg) w0 in
  let c := apply_op op_clear s.1 s.2 in
  actions c.1 = [] ∧
  execute c.1 w = execute (RollbackManager_init cfg) w ∧
  ex_invoked (execute c.1 w) = [] ∧
  ex_result (execute c.1 w) = Ret true.
Proof.
  intros s c.
  assert (Hc : c.1 = RollbackManager_init cfg).
  { subst c s. simpl. by rewrite apply_registrations. }
  rewrite Hc. repeat split.
Qed.

(** C9: [execute] does not clear the log, whatever the invoked operations
    do. *)
Theorem execute_keeps_log (self : RollbackManager) (w : World) :
  actions (ex_self (execute self w)) = actions self.
Proof. by rewrite execute_self. Qed.

(** C10: [add_action], [clear] and [execute] leave [enabled] as it is,
    and [disable] sets it to false; so after any sequence of calls on a
    new manager [enabled] is false if and only if [disable] is one of
    them. *)
Theorem only_disable_changes_enabled :
  (∀ self name action args kwargs w,
     enabled (apply_op (op_add_action name action args kwargs) self w).1 =
     enabled self) ∧
  (∀ self w, enabled (apply_op op_clear self w).1 = enabled self) ∧
  (∀ self w, enabled (ex_self (execute self w)) = enabled self) ∧
  (∀ self w, enabled (apply_op op_disable self w).1 = false) ∧
  (∀ cfg ops w,
     enabled (apply_ops ops (RollbackManager_init cfg) w).1 =
     negb (existsb is_op_disable ops)).
Proof.
  repeat split; try done.
  - intros. by rewrite execute_self.
  - intros. by rewrite apply_ops_enabled.
Qed.

(** The scenarios of the specification, with operations that return or
    raise without touching the world. *)
Definition returns : Callable := λ _ _, mret tt.
Definition fails : Callable := λ _ _, raise (mk_exn OtherException "boom").

(** The names of the actions invoked, in the order of invocation. *)
Definition invoked_names (x : Execution) : list string :=
  name <$> (ex_invoked x).*1.

Definition run_scenario (ops : list op) : Execution :=
  let s := apply_ops ops (RollbackManager_init 0%nat)
             (world_of quiet_environment example_config) in
  execute s.1 s.2.

Example scenario_A :
  let x := run_scenario [op_add_action "remove-file" returns [] [];
                         op_add_action "stop-service" returns [] []] in
  invoked_names x = ["stop-service"; "remove-file"] ∧ ex_result x = Ret true.
Proof. vm_compute. done. Qed.

Example scenario_B :
  let x := run_scenario [op_add_action "1" returns [] [];
                         op_add_action "2" fails [] [];
                         op_add_action "3" returns [] []] in
  invoked_names x = ["3"; "2"; "1"] ∧ ex_result x = Ret false.
Proof. vm_compute. done. Qed.

Example scenario_C :
  let x := run_scenario [op_disable;
                         op_add_action "1" returns [] [];
                         op_add_action "2" returns [] []] in
  invoked_names x = [] ∧ ex_result x = Ret true.
Proof. vm_compute. done. Qed.

Example scenario_D :
  let x := run_scenario [op_add_action "1" returns [] []; op_clear] in
  invoked_names x = [] ∧ ex_result x = Ret true.
Proof. vm_compute. done. Qed.

End claims.

(** * Undo operations and the shared configuration object *)

(** The [docker] commands among external calls. *)
Definition commands (cs : list ext_call) : list (list string) :=
  omap (λ c, match c with
             | subprocess_run cmd _ _ _ _ => Some cmd
             | _ => None
             end) cs.

(** Two computations that, from worlds alike for the undo operations, end
    the same way in worlds that are still alike. *)
Definition related {A} (R : A → A → Prop) (m1 m2 : M A) : Prop :=
  ∀ w1 w2, same_for_undo w1 w2 →
    match m1 w1, m2 w2 with
    | (Ret a1, w1'), (Ret a2, w2') => R a1 a2 ∧ same_for_undo w1' w2'
    | (Raise e1, w1'), (Raise e2, w2') => e1 = e2 ∧ same_for_undo w1' w2'
    | _, _ => False
    end.

Section related.

Lemma same_for_undo_refl w : same_for_undo w w.
Proof. by repeat split. Qed.

Lemma same_for_undo_logged name lvl msg w1 w2 :
  same_for_undo w1 w2 →
  same_for_undo (logged name lvl msg w1) (logged name lvl msg w2).
Proof.
  intros (He & Hi & Hl & Hh). repeat split; simpl; try done. by rewrite Hl.
Qed.

Lemma related_ret {A} (R : A → A → Prop) a1 a2 :
  R a1 a2 → related R (mret a1) (mret a2).
Proof. intros H w1 w2 Hw. by split. Qed.

Lemma related_raise {A} (R : A → A → Prop) e :
  related R (raise e) (raise e).
Proof. intros w1 w2 Hw. by split. Qed.

Lemma related_bind {A B} (R : A → A → Prop) (R' : B → B → Prop)
    (m1 m2 : M A) (k1 k2 : A → M B) :
  related R m1 m2 →
  (∀ a1 a2, R a1 a2 → related R' (k1 a1) (k2 a2)) →
  related R' (m1 ≫= k1) (m2 ≫= k2).
Proof.
  intros Hm Hk w1 w2 Hw. specialize (Hm w1 w2 Hw).
  unfold mbind, ST_bind.
  destruct (m1 w1) as [[a1|e1] w1'], (m2 w2) as [[a2|e2] w2']; try done.
  destruct Hm as [Ha Hw']. by apply Hk.
Qed.

Lemma related_handle {A} (R : A → A → Prop)
    (cl1 cl2 : list ((exn → bool) * (exn → M A))) e :
  Forall2 (λ c1 c2, c1.1 = c2.1 ∧ ∀ e, related R (c1.2 e) (c2.2 e)) cl1 cl2 →
  related R (handle cl1 e) (handle cl2 e).
Proof.
  induction 1 as [|[t1 h1] [t2 h2] cl1 cl2 [Ht Hh] _ IH]; simpl in *.
  - apply related_raise.
  - subst t2. destruct (t1 e); [apply Hh | apply IH].
Qed.

Lemma related_try_except {A} (R : A → A → Prop) (b1 b2 : M A) cl1 cl2 :
  related R b1 b2 →
  Forall2 (λ c1 c2, c1.1 = c2.1 ∧ ∀ e, related R (c1.2 e) (c2.2 e)) cl1 cl2 →
  related R (try_except b1 cl1) (try_except b2 cl2).
Proof.
  intros Hb Hcl w1 w2 Hw. specialize (Hb w1 w2 Hw). unfold try_except.
  destruct (b1 w1) as [[a1|e1] w1'], (b2 w2) as [[a2|e2] w2']; try done.
  destruct Hb as [<- Hw']. by apply related_handle.
Qed.

Lemma related_clauses_cons {A} (R : A → A → Prop) test (h1 h2 : exn → M A)
    (cl1 cl2 : list ((exn → bool) * (exn → M A))) :
  (∀ e, related R (h1 e) (h2 e)) →
  Forall2 (λ c1 c2, c1.1 = c2.1 ∧ ∀ e, related R (c1.2 e) (c2.2 e)) cl1 cl2 →
  Forall2 (λ c1 c2, c1.1 = c2.1 ∧ ∀ e, related R (c1.2 e) (c2.2 e))
    ((test, h1) :: cl1) ((test, h2) :: cl2).
Proof. intros Hh Hcl. by constructor. Qed.

Lemma related_clauses_nil {A} (R : A → A → Prop) :
  Forall2 (λ c1 c2 : (exn → bool) * (exn → M A),
             c1.1 = c2.1 ∧ ∀ e, related R (c1.2 e) (c2.2 e)) [] [].
Proof. constructor. Qed.

Lemma related_log name lvl msg : related eq (log name lvl msg) (log name lvl msg).
Proof.
  intros w1 w2 (He & Hi & Hl & Hh). unfold log. simpl.
  repeat split; simpl; try done. by rewrite Hl.
Qed.

Lemma related_external {A} (reply : Environment → nat → ext_call → result A) c :
  related eq (external reply c) (external reply c).
Proof.
  intros w1 w2 (He & Hi & Hl & Hh). unfold external. rewrite He, Hi.
  destruct (reply _ _ _); repeat split; simpl; try done; by rewrite Hi.
Qed.

Lemma related_deref l :
  related (λ c1 c2, undo_view c1 = undo_view c2) (deref l) (deref l).
Proof.
  intros w1 w2 Hw. pose proof Hw as (He & Hi & Hl & Hh).
  specialize (Hh l). unfold deref.
  destruct (heap w1 !! l), (heap w2 !! l); simpl in *; try done.
  split; [congruence | done].
Qed.

Lemma related_compose_env c1 c2 :
  undo_view c1 = undo_view c2 →
  related eq (docker_utils.compose_env c1) (docker_utils.compose_env c2).
Proof.
  intros Hc w1 w2 Hw. pose proof Hw as (He & Hi & Hl & Hh).
  unfold docker_utils.compose_env. split; [|done].
  injection Hc as _ -> _ _. by rewrite He.
Qed.

End related.

(** Steps of a proof that a computation is related to itself. *)
Ltac related_clauses :=
  first [ apply related_clauses_nil
        | apply related_clauses_cons; [intros ? | related_clauses] ].

Ltac related_step :=
  match goal with
  | |- related _ (mret _) (mret _) => by apply related_ret
  | |- related _ (raise _) (raise _) => apply related_raise
  | |- related _ (log _ _ _) (log _ _ _) => apply related_log
  | |- related _ (external _ _) (external _ _) => apply related_external
  | |- related _ (log _ _ _ ≫= _) (log _ _ _ ≫= _) =>
      eapply related_bind; [apply related_log | intros ? ? <-]
  | |- related _ (external _ _ ≫= _) (external _ _ ≫= _) =>
      eapply related_bind; [apply related_external | intros ? ? <-]
  | |- related _ (try_except _ _) (try_except _ _) =>
      apply related_try_except; [| related_clauses]
  | |- related _ (if ?b then _ else _) (if ?b then _ else _) => destruct b
  end.

Section undo_operations.

Import docker_utils rollback.

Lemma related_run_command cmd cwd env capture_output timeout check :
  related eq (run_command cmd cwd env capture_output timeout check)
    (run_command cmd cwd env capture_output timeout check).
Proof. unfold run_command. repeat related_step. Qed.

Lemma related_check_container_exists n :
  related eq (check_container_exists n) (check_container_exists n).
Proof.
  unfold check_container_exists. related_step; [|related_step].
  eapply related_bind; [apply related_run_command | intros ? ? <-].
  related_step.
Qed.

Lemma related_stop_services config remove_volumes :
  related eq (stop_services config remove_volumes)
    (stop_services config remove_volumes).
Proof.
  unfold stop_services. related_step.
  eapply related_bind; [apply related_deref | intros c1 c2 Hc].
  eapply related_bind; [by apply related_compose_env | intros ? ? <-].
  unfold compose_file. injection Hc as -> _ _ _.
  eapply related_bind; [apply related_run_command | intros ? ? <-].
  related_step.
Qed.

Lemma related_start_services config :
  related eq (start_services config) (start_services config).
Proof.
  unfold start_services. related_step.
  eapply related_bind; [apply related_deref | intros c1 c2 Hc].
  eapply related_bind; [by apply related_compose_env | intros ? ? <-].
  unfold compose_file. injection Hc as -> _ _ _.
  eapply related_bind; [apply related_run_command | intros ? ? <-].
  related_step.
Qed.

Lemma related_remove_container n force :
  related eq (remove_container n force) (remove_container n force).
Proof.
  unfold remove_container.
  eapply related_bind; [apply related_check_container_exists | intros b ? <-].
  destruct b; simpl; [|related_step]. related_step.
  eapply related_bind; [apply related_run_command | intros ? ? <-].
  related_step.
Qed.

Lemma related_remove_volume n force :
  related eq (remove_volume n force) (remove_volume n force).
Proof.
  unfold remove_volume. related_step.
  eapply related_bind; [apply related_run_command | intros r ? <-].
  repeat related_step.
Qed.

Lemma related_cleanup_failed_deployment config remove_volumes :
  related eq (cleanup_failed_deployment config remove_volumes)
    (cleanup_failed_deployment config remove_volumes).
Proof.
  unfold cleanup_failed_deployment. related_step.
  apply (related_bind eq); [|intros ? ? <-].
  { related_step; [apply related_stop_services | related_step]. }
  apply (related_bind eq); [|intros ? ? <-].
  { related_step; [|related_step].
    eapply related_bind; [apply related_deref | intros c1 c2 Hc].
    injection Hc as _ _ -> _. apply related_remove_container. }
  apply (related_bind eq); [|intros ? ? <-; related_step].
  destruct remove_volumes; [|related_step].
  related_step; [|related_step].
  eapply related_bind; [apply related_deref | intros c1 c2 Hc].
  injection Hc as _ _ _ ->. apply related_remove_volume.
Qed.

(** Every operation that the drivers register, on whatever arguments,
    does the same in worlds alike for the undo operations. *)
Lemma related_driver_callable f args kwargs :
  driver_callable f → related eq (f args kwargs) (f args kwargs).
Proof.
  intros [-> | [-> | [p ->]]].
  - unfold cleanup_failed_deployment_callable, bad_call.
    repeat case_match; subst;
      first [apply related_cleanup_failed_deployment | apply related_raise].
  - unfold start_services_callable, bad_call.
    repeat case_match; subst;
      first [apply related_start_services | apply related_raise].
  - unfold unlink_callable, bad_call.
    repeat case_match; subst;
      first [apply related_external | apply related_raise].
Qed.

Lemma related_unwind todo success w1 w2 :
  Forall (λ a, driver_callable (action a)) todo →
  same_for_undo w1 w2 →
  (unwind todo success w1).1.*2 = (unwind todo success w2).1.*2 ∧
  (unwind todo success w1).2.1 = (unwind todo success w2).2.1 ∧
  same_for_undo (unwind todo success w1).2.2 (unwind todo success w2).2.2.
Proof.
  intros Hall. revert success w1 w2.
  induction Hall as [|a rest Ha _ IH]; intros success w1 w2 Hw.
  - done.
  - rewrite !unwind_cons.
    pose proof (related_driver_callable _ (args a) (kwargs a) Ha
                  (logged logger INFO ("Rolling back: " +:+ name a) w1)
                  (logged logger INFO ("Rolling back: " +:+ name a) w2)
                  (same_for_undo_logged _ _ _ _ _ Hw)) as Hr.
    destruct (action a _ _ (logged _ _ _ w1)) as [[[]|e1] w1'],
             (action a _ _ (logged _ _ _ w2)) as [[[]|e2] w2']; try done.
    + destruct Hr as [_ Hw'].
      destruct (IH success _ _ Hw') as (H1 & H2 & H3). simpl.
      split; [by f_equal | by split].
    + destruct Hr as [<- Hw'].
      destruct (isinstance_Exception e1); simpl; [|done].
      destruct (IH false _ _
                  (same_for_undo_logged logger ERROR
                     ("Rollback action failed: " +:+ name a +:+ " - " +:+
                      exn_msg e1) _ _ Hw'))
        as (H1 & H2 & H3).
      split; [by f_equal | by split].
Qed.

End undo_operations.

Section shared_configuration.

Import rollback.

Lemma related_execute self w1 w2 :
  Forall (λ a, driver_callable (action a)) (actions self) →
  same_for_undo w1 w2 →
  behaviour (execute self w1) = behaviour (execute self w2).
Proof.
  intros Hall Hw. pose proof Hw as (He & Hi & Hl & Hh).
  unfold execute, behaviour. destruct (enabled self); simpl.
  - case_bool_decide; simpl.
    + by rewrite Hi, Hl.
    + unfold mbind, ST_bind, log. simpl.
      apply Forall_rev in Hall.
      pose proof (related_unwind (rev (actions self)) true
                    (logged logger INFO
                       ("Rolling back " +:+ pretty (length (actions self)) +:+
                        " action(s)")
                       (logged logger WARNING "Executing rollback..." w1))
                    (logged logger INFO
                       ("Rolling back " +:+ pretty (length (actions self)) +:+
                        " action(s)")
                       (logged logger WARNING "Executing rollback..." w2))
                    Hall
                    (same_for_undo_logged _ _ _ _ _
                       (same_for_undo_logged _ _ _ _ _ Hw)))
        as (H1 & H2 & H3).
      unfold logged in H1, H2, H3. simpl in *.
      destruct (unwind _ _ _) as [tr1 [r1 w1']].
      destruct (unwind _ _ _) as [tr2 [r2 w2']].
      simpl in *. subst r2. destruct H3 as (He' & Hi' & Hl' & Hh').
      destruct r1 as [[]|e]; simpl; by rewrite H1, Hi', Hl'.
  - by rewrite Hi, Hl.
Qed.

(** Assigning attributes that the undo operations do not read leaves the
    world alike for them. *)
Lemma same_for_undo_setattr l f w :
  (∀ c, undo_view (f c) = undo_view c) →
  same_for_undo w (setattr l f w).2.
Proof.
  intros Hf. unfold setattr.
  destruct (heap w !! l) as [c|] eqn:Hl; simpl; [|apply same_for_undo_refl].
  repeat split. simpl. intros l'.
  destruct (decide (l = l')) as [<-|Hne].
  - rewrite lookup_insert_eq, Hl. simpl. by rewrite Hf.
  - by rewrite lookup_insert_ne.
Qed.

(** C4, as stated, fails: the configuration object is registered by
    reference.  When [container_name] is assigned after the registration
    of "Stop services", the undo looks for, and removes, another
    container. *)
Lemma registered_arguments_by_value_fails :
  ¬ (∀ (self : RollbackManager) (r : registration) (w : World) (l : loc)
       (f : DeploymentConfig → DeploymentConfig),
       let s := apply_op (op_of_registration r) self w in
       behaviour (execute s.1 s.2) =
       behaviour (execute s.1 (setattr l f s.2).2)).
Proof.
  intros H.
  specialize (H (RollbackManager_init 0%nat)
                ("Stop services", cleanup_failed_deployment_callable,
                 [VRef 0%nat; VBool false], [])
                (world_of quiet_environment example_config)
                0%nat (set_container_name "openclaw-staging")).
  apply (f_equal (λ b, commands b.1.2)) in H.
  vm_compute in H. discriminate H.
Qed.

(** C4, amended: [add_action] records the callable and the tuple of its
    arguments as they are given, and a configuration object among them is
    held by reference.  For the operations that the drivers register,
    assigning, between registration and [execute], attributes of the
    shared configuration object that the undo operations do not read does
    not change what the unwind does. *)
Theorem registered_arguments_by_reference (self : RollbackManager)
    (r : registration) (w : World) (l : loc)
    (f : DeploymentConfig → DeploymentConfig) :
  let s := apply_op (op_of_registration r) self w in
  Forall (λ a, driver_callable (action a)) (actions s.1) →
  (∀ c, undo_view (f c) = undo_view c) →
  actions s.1 = actions self ++ [action_of_registration r] ∧
  behaviour (execute s.1 s.2) = behaviour (execute s.1 (setattr l f s.2).2).
Proof.
  intros s Hall Hf. split.
  - subst s. by destruct r as [[[n a] ar] kw].
  - apply related_execute; [done|]. by apply same_for_undo_setattr.
Qed.

Lemma registered_arguments_by_reference_witness :
  let s := apply_op
             (op_of_registration
                ("Stop services", cleanup_failed_deployment_callable,
                 [VRef 0%nat; VBool false], []))
             (RollbackManager_init 0%nat)
             (world_of quiet_environment example_config) in
  actions s.1 =
    actions (RollbackManager_init 0%nat) ++
    [action_of_registration
       ("Stop services", cleanup_failed_deployment_callable,
        [VRef 0%nat; VBool false], [])] ∧
  behaviour (execute s.1 s.2) =
  behaviour (execute s.1 (setattr 0%nat (set_gateway_port 8080) s.2).2).
Proof.
  apply (registered_arguments_by_reference (RollbackManager_init 0%nat)
           ("Stop services", cleanup_failed_deployment_callable,
            [VRef 0%nat; VBool false], [])
           (world_of quiet_environment example_config)
           0%nat (set_gateway_port 8080)).
  - simpl. repeat constructor.
  - intros c. reflexivity.
Defined.

(** What the undo does in the two runs of the counterexample. *)
Example stop_services_follows_container_name :
  let s := apply_op
             (op_of_registration
                ("Stop services", cleanup_failed_deployment_callable,
                 [VRef 0%nat; VBool false], []))
             (RollbackManager_init 0%nat)
             (world_of quiet_environment example_config) in
  commands (issued (ex_world (execute s.1 s.2))) =
    [ ["docker"; "compose"; "-f"; "/srv/openclaw/docker-compose.yml"; "down"];
      ["docker"; "ps"; "-a"; "--filter"; "name=openclaw-gateway"; "--format";
       "{{.Names}}"];
      ["docker"; "rm"; "-f"; "openclaw-gateway"] ] ∧
  commands (issued (ex_world
     (execute s.1
        (setattr 0%nat (set_container_name "openclaw-staging") s.2).2))) =
    [ ["docker"; "compose"; "-f"; "/srv/openclaw/docker-compose.yml"; "down"];
      ["docker"; "ps"; "-a"; "--filter"; "name=openclaw-staging"; "--format";
       "{{.Names}}"] ].
Proof. vm_compute. done. Qed.

End shared_configuration.

(** * The drivers and their calls on the sequencer *)

(** From calls [cs] made so far, the computation [m] ends with a result
    and calls that satisfy [Q]. *)
Definition wp {A} (m : D A) (Q : result A → list seq_call → Prop)
    (cs : list seq_call) : Prop :=
  ∀ s, calls s = cs → Q (m s).1 (calls (m s).2).

Section wp.

Context {A B : Type}.

Lemma wp_ret (a : A) Q cs : Q (Ret a) cs → wp (mret a) Q cs.
Proof. intros H s <-. done. Qed.

Lemma wp_bind (m : D A) (k : A → D B) Q cs :
  wp m (λ r cs', match r with
                 | Ret a => wp (k a) Q cs'
                 | Raise e => Q (Raise e) cs'
                 end) cs →
  wp (m ≫= k) Q cs.
Proof.
  intros H s Hs. specialize (H s Hs). unfold mbind, ST_bind.
  destruct (m s) as [[a|e] s']; simpl in *; [|done]. by apply H.
Qed.

Lemma wp_lift (m : M A) Q cs : (∀ r, Q r cs) → wp (lift m) Q cs.
Proof.
  intros H s <-. unfold lift. destruct (m (world s)) as [r w']. apply H.
Qed.

Lemma wp_try_except (body : D A) clauses Q cs :
  wp body (λ r cs', match r with
                    | Ret a => Q (Ret a) cs'
                    | Raise e => wp (handle clauses e) Q cs'
                    end) cs →
  wp (try_except body clauses) Q cs.
Proof.
  intros H s Hs. specialize (H s Hs). unfold try_except.
  destruct (body s) as [[a|e] s']; simpl in *; [done|]. by apply H.
Qed.

Lemma wp_handle_nil e (Q : result A → list seq_call → Prop) cs :
  Q (Raise e) cs → wp (handle [] e) Q cs.
Proof. intros H s <-. done. Qed.

Lemma wp_handle_cons e test handler clauses
    (Q : result A → list seq_call → Prop) cs :
  (if test e : bool then wp (handler e) Q cs
   else wp (handle clauses e) Q cs) →
  wp (handle ((test, handler) :: clauses) e) Q cs.
Proof. simpl. by destruct (test e). Qed.

End wp.

Lemma wp_log name lvl msg (Q : result unit → list seq_call → Prop) cs :
  Q (Ret tt) cs → wp (lift (log name lvl msg)) Q cs.
Proof. intros H s <-. done. Qed.

Lemma wp_add_action name action args
    (Q : result unit → list seq_call → Prop) cs :
  Q (Ret tt) (cs ++ [call_add_action name]) →
  wp (rollback_add_action name action args) Q cs.
Proof. intros H s <-. done. Qed.

Lemma wp_disable (Q : result unit → list seq_call → Prop) cs :
  Q (Ret tt) (cs ++ [call_disable]) → wp rollback_disable Q cs.
Proof. intros H s <-. done. Qed.

Lemma wp_clear (Q : result unit → list seq_call → Prop) cs :
  Q (Ret tt) (cs ++ [call_clear]) → wp rollback_clear Q cs.
Proof. intros H s <-. done. Qed.

Lemma wp_execute (Q : result bool → list seq_call → Prop) cs :
  (∀ r, Q r (cs ++ [call_execute r])) → wp rollback_execute Q cs.
Proof. intros H s <-. apply H. Qed.

Lemma wp_with_rollback rollback body w
    (Q : result bool → list seq_call → Prop) :
  wp body Q [] →
  Q (out_result (with_rollback rollback body w))
    (out_calls (with_rollback rollback body w)).
Proof.
  intros H. unfold with_rollback.
  specialize (H (mk_Run w rollback []) eq_refl).
  by destruct (body _) as [r s].
Qed.

(** One step through a driver. *)
Ltac wp_step :=
  cbv beta iota;
  lazymatch goal with
  | |- wp (mbind _ _) _ _ => apply wp_bind
  | |- wp (mret _) _ _ => apply wp_ret
  | |- wp (lift (log _ _ _)) _ _ => apply wp_log
  | |- wp (lift _) _ _ => apply wp_lift; intros [?|?]
  | |- wp (rollback_add_action _ _ _) _ _ => apply wp_add_action
  | |- wp rollback_disable _ _ => apply wp_disable
  | |- wp rollback_clear _ _ => apply wp_clear
  | |- wp rollback_execute _ _ => apply wp_execute; intros [?|?]
  | |- wp (try_except _ _) _ _ => apply wp_try_except
  | |- wp (handle [] _) _ _ => apply wp_handle_nil
  | |- wp (handle (_ :: _) _) _ _ => apply wp_handle_cons
  | |- wp (when _ _) _ _ => unfold when
  | |- wp (if ?b then _ else _) _ _ => destruct b
  | |- if ?b then _ else _ => destruct b
  end.

Lemma wp_mono {A} (m : D A) (Q1 Q2 : result A → list seq_call → Prop) cs :
  wp m Q1 cs → (∀ r cs', Q1 r cs' → Q2 r cs') → wp m Q2 cs.
Proof. intros H HQ s Hs. apply HQ. by apply H. Qed.

(** [execute] has not been called. *)
Definition no_execute (cs : list seq_call) : bool :=
  forallb (λ c, negb (is_execute c)) cs.

Lemma executed_once_last_snoc cs r :
  executed_once_last (cs ++ [call_execute r]) = no_execute cs.
Proof.
  unfold executed_once_last, no_execute. rewrite rev_app_distr. simpl.
  induction cs as [|c cs IH]; [done|]. simpl.
  rewrite forallb_app, IH. simpl. rewrite andb_true_r. apply andb_comm.
Qed.

Section drivers.

(** What holds of the calls of a run of [run_deploy] that reports
    failure. *)
Definition deploy_post (r : result bool) (cs : list seq_call) : Prop :=
  r = Ret false →
  existsb execute_raised cs = false →
  executed_once_last cs = true.

(** When an exception leaves the [try] block of [run_deploy], [execute]
    has not been called, or the exception comes from it. *)
Definition deploy_raised (cs : list seq_call) : Prop :=
  no_execute cs = true ∨ existsb execute_raised cs = true.

Lemma deploy_except_clauses e cs :
  deploy_raised cs →
  wp (handle (deploy.except_clauses true) e) deploy_post cs.
Proof.
  intros Hcs.
  assert (Hpost : ∀ b, deploy_post (Ret false) (cs ++ [call_execute (Ret b)])).
  { intros b _. rewrite existsb_app, executed_once_last_snoc. simpl.
    rewrite orb_false_r. intros Hno. by destruct Hcs as [?|?]; [|congruence]. }
  unfold deploy.except_clauses, deploy.info, deploy.warning, deploy.error.
  repeat wp_step; try done; try apply Hpost.
Qed.

Lemma deploy_try_block config no_cache skip_health_check interactive :
  wp (deploy.try_block config no_cache skip_health_check interactive true)
    (λ r cs, match r with
             | Ret b => deploy_post (Ret b) cs
             | Raise _ => deploy_raised cs
             end) [].
Proof.
  unfold deploy.try_block, deploy.success, deploy.generate_and_register,
    deploy.info, deploy.warning, deploy.error.
  repeat wp_step;
    first [ done | by left | by right ].
Qed.

Lemma run_deploy_calls config_file project_dir gateway_token api_key
    no_cache skip_health_check interactive w :
  let o := deploy.run_deploy config_file project_dir gateway_token api_key
             no_cache skip_health_check interactive true w in
  deploy_post (out_result o) (out_calls o).
Proof.
  unfold deploy.run_deploy.
  destruct (deploy.prepare _ _ _ _ _) as [[config|e] w']; [|done].
  apply wp_with_rollback. unfold deploy.info. simpl negb.
  repeat (lazymatch goal with
          | |- wp (try_except _ _) _ _ => fail
          | _ => wp_step
          end).
  apply wp_try_except. eapply wp_mono; [apply deploy_try_block|].
  intros [b|e] cs; [done|]. apply deploy_except_clauses.
Qed.

(** C6, as stated, fails for [run_update]: when the health check fails
    after the restart it stops the services itself and reports failure
    without a call of [execute]; the log was cleared when the services
    started. *)
Lemma driver_executes_once_fails :
  ¬ ((∀ config_file project_dir gateway_token api_key no_cache
        skip_health_check interactive w,
        let o := deploy.run_deploy config_file project_dir gateway_token
                   api_key no_cache skip_health_check interactive true w in
        out_result o = Ret false → executed_once_last (out_calls o) = true) ∧
     (∀ config_file project_dir no_cache skip_health_check w,
        let o := update.run_update config_file project_dir no_cache
                   skip_health_check true w in
        out_result o = Ret false → executed_once_last (out_calls o) = true)).
Proof.
  intros [_ H].
  specialize (H None None true false
                (mk_World unhealthy_environment ∅ [] []) eq_refl).
  vm_compute in H. discriminate H.
Qed.

(** The calls of that run of [run_update]. *)
Example run_update_unhealthy :
  let o := update.run_update None None true false true
             (mk_World unhealthy_environment ∅ [] []) in
  out_result o = Ret false ∧
  out_calls o = [call_add_action "Start services"; call_clear] ∧
  last (commands (issued (out_world o))) =
    Some ["docker"; "compose"; "-f"; "/srv/openclaw/docker-compose.yml";
          "down"].
Proof. vm_compute. done. Qed.

(** The calls of that run of [run_deploy]: the two registrations, then
    [execute]. *)
Example run_deploy_unhealthy :
  let o := deploy.run_deploy None None None None false false true true
             (mk_World unhealthy_environment ∅ [] []) in
  out_result o = Ret false ∧
  out_calls o = [call_add_action "Remove .env file";
                 call_add_action "Stop services";
                 call_execute (Ret true)].
Proof. vm_compute. done. Qed.

(** The runs that the amended statement leaves aside: the health check
    of [run_deploy] fails, and the unwind that follows is interrupted
    inside [docker compose down].  The [execute] call stands in the [try]
    block, so the [except KeyboardInterrupt] clause calls [execute] a
    second time. *)
Example run_deploy_interrupted_rollback :
  let o := deploy.run_deploy None None None None false false true true
             (mk_World interrupted_rollback_environment ∅ [] []) in
  out_result o = Ret false ∧
  out_calls o = [call_add_action "Remove .env file";
                 call_add_action "Stop services";
                 call_execute (Raise (mk_exn KeyboardInterrupt ""));
                 call_execute (Ret true)].
Proof. vm_compute. done. Qed.

End drivers.

(** * More of docker_utils.py: commands and their failures *)

(** The world after [run_command]: one line logged, one call made. *)
Definition after_run_command (cmd : list string) (cwd : option Path)
    (env : option (gmap string string)) (capture_output : bool)
    (timeout : option Z) (w : World) : World :=
  mk_World (environment w) (heap w)
    (issued w ++ [subprocess_run cmd cwd env capture_output timeout])
    (logs w ++ [mk_LogRecord docker_utils.logger DEBUG
                  ("Running command: " +:+ join_cmd cmd)]).

(** What the environment answers to the call that [run_command] makes. *)
Definition run_reply (cmd : list string) (cwd : option Path)
    (env : option (gmap string string)) (capture_output : bool)
    (timeout : option Z) (w : World) : result CompletedProcess :=
  reply_proc (environment w) (length (issued w))
    (subprocess_run cmd cwd env capture_output timeout).

(** The [docker ps] command of [check_container_exists]. *)
Definition ps_command (container_name : string) : list string :=
  ["docker"; "ps"; "-a"; "--filter"; "name=" +:+ container_name;
   "--format"; "{{.Names}}"].

(** The [docker rm] command of [remove_container]. *)
Definition rm_command (container_name : string) (force : bool) : list string :=
  if force then ["docker"; "rm"; "-f"; container_name]
  else ["docker"; "rm"; container_name].

Section run_command.

Import docker_utils.

Lemma run_command_eq cmd cwd env capture_output timeout check w :
  run_command cmd cwd env capture_output timeout check w =
  (match run_reply cmd cwd env capture_output timeout w with
   | Ret r =>
       if check && negb (returncode r =? 0)
       then Raise (mk_exn DockerError
                     ("Command execution error: Command failed: " +:+
                      join_cmd cmd +:+ nl +:+ error_msg r))
       else Ret r
   | Raise e =>
       if isinstance e TimeoutExpired
       then Raise (mk_exn DockerError
                     ("Command timed out after " +:+ fmt_timeout timeout +:+
                      "s: " +:+ join_cmd cmd))
       else if isinstance_Exception e
       then Raise (mk_exn DockerError
                     ("Command execution error: " +:+ exn_msg e))
       else Raise e
   end,
   after_run_command cmd cwd env capture_output timeout w).
Proof.
  unfold run_command, try_except, run_reply, after_run_command, mbind,
    ST_bind, external, log. simpl.
  destruct (reply_proc _ _ _) as [r|e]; simpl.
  - by destruct (check && negb (returncode r =? 0)).
  - destruct (isinstance e TimeoutExpired); [done|].
    by destruct (isinstance_Exception e).
Qed.

(** X1: whatever goes wrong, the only exception of class [Exception]
    that [run_command] raises is [DockerError]; anything else it lets
    through is outside [Exception]. *)
Theorem run_command_raises_DockerError cmd cwd env capture_output timeout
    check w e w' :
  run_command cmd cwd env capture_output timeout check w = (Raise e, w') →
  exn_cls e = DockerError ∨ isinstance_Exception e = false.
Proof.
  rewrite run_command_eq. intros [= H _]. revert H.
  destruct (run_reply _ _ _ _ _ _) as [r|e0].
  - destruct (check && negb (returncode r =? 0)); [|done].
    intros [= <-]. by left.
  - destruct (isinstance e0 TimeoutExpired); [intros [= <-]; by left|].
    destruct (isinstance_Exception e0) eqn:He; intros [= <-]; auto.
Qed.

Lemma run_command_raises_DockerError_witness :
  exn_cls (mk_exn DockerError
             ("Command execution error: Command failed: docker info" +:+ nl
              +:+ "Cannot connect to the Docker daemon")) = DockerError ∨
  isinstance_Exception
    (mk_exn DockerError
       ("Command execution error: Command failed: docker info" +:+ nl
        +:+ "Cannot connect to the Docker daemon")) = false.
Proof.
  apply (run_command_raises_DockerError ["docker"; "info"] None None true
           None true (world_of failing_environment example_config) _
           (after_run_command ["docker"; "info"] None None true None
              (world_of failing_environment example_config))).
  vm_compute. reflexivity.
Defined.

(** X2: when the process ends, [run_command] with [check] returns it only
    if its exit status is zero, and otherwise raises a [DockerError] that
    carries the command and what the process wrote (stderr, or stdout
    when stderr is empty); without [check] it returns the process
    whatever its exit status. *)
Theorem run_command_exit_status cmd cwd env capture_output timeout check w r :
  run_reply cmd cwd env capture_output timeout w = Ret r →
  (run_command cmd cwd env capture_output timeout check w).1 =
    if check && negb (returncode r =? 0)
    then Raise (mk_exn DockerError
                  ("Command execution error: Command failed: " +:+
                   join_cmd cmd +:+ nl +:+
                   (if truthy (stderr r) then stderr r else stdout r)))
    else Ret r.
Proof. intros H. rewrite run_command_eq, H. done. Qed.

Lemma run_command_exit_status_witness :
  (run_command ["docker"; "info"] None None true None true
     (world_of failing_environment example_config)).1 =
  Raise (mk_exn DockerError
           ("Command execution error: Command failed: docker info" +:+ nl +:+
            "Cannot connect to the Docker daemon")).
Proof.
  apply (run_command_exit_status ["docker"; "info"] None None true None true
           (world_of failing_environment example_config)
           (mk_CompletedProcess 1 "" "Cannot connect to the Docker daemon")).
  reflexivity.
Defined.

End run_command.

Section container_checks.

Import docker_utils.

Lemma prefix_spec sub s :
  String.prefix sub s = true ↔ ∃ post, s = sub +:+ post.
Proof.
  revert s. induction sub as [|a sub IH]; intros s.
  - split; [intros _; by exists s | intros _; by destruct s].
  - destruct s as [|b s]; simpl; [split; [done | by intros [? ?]]|].
    destruct (Ascii.ascii_dec a b) as [<-|Hne].
    + rewrite IH. split; intros [post H]; exists post;
        [by rewrite H | by injection H].
    + split; [done|]. intros [post [= ? ?]]. done.
Qed.

(** [sub in s] holds exactly when [sub] occurs somewhere in [s]. *)
Lemma str_in_spec sub s :
  str_in sub s = true ↔ ∃ pre post, s = pre +:+ sub +:+ post.
Proof.
  induction s as [|b s IH].
  - cbn [str_in]. rewrite orb_false_r, prefix_spec. split.
    + intros [post H]. by exists "", post.
    + intros [[|? pre] [post H]]; [by exists post | done].
  - cbn [str_in]. rewrite orb_true_iff, IH, prefix_spec. split.
    + intros [[post H]|(pre & post & H)].
      * by exists "", post.
      * exists (String b pre), post. simpl. by rewrite H.
    + intros [[|a pre] [post H]].
      * left. by exists post.
      * right. injection H as _ H. by exists pre, post.
Qed.

Lemma check_container_exists_eq n w :
  check_container_exists n w =
  (match run_reply (ps_command n) None None true None w with
   | Ret p => Ret (str_in n (stdout p))
   | Raise e => if isinstance_Exception e then Ret false else Raise e
   end,
   after_run_command (ps_command n) None None true None w).
Proof.
  unfold check_container_exists, try_except, mbind, ST_bind.
  fold (ps_command n). rewrite run_command_eq.
  destruct (run_reply _ _ _ _ _ _) as [p|e]; simpl; [done|].
  destruct (isinstance e TimeoutExpired) eqn:Ht; simpl.
  - unfold isinstance in Ht. apply bool_decide_eq_true in Ht.
    unfold isinstance_Exception. rewrite Ht. reflexivity.
  - destruct (isinstance_Exception e) eqn:He; simpl; rewrite ?He; reflexivity.
Qed.

(** X3: when [docker ps] answers, [check_container_exists] returns true
    exactly when the name occurs somewhere in its output, whatever the
    exit status: a name that is part of a listed name is found too. *)
Theorem check_container_exists_substring n w p :
  run_reply (ps_command n) None None true None w = Ret p →
  ∃ b, (check_container_exists n w).1 = Ret b ∧
       (b = true ↔ ∃ pre post, stdout p = pre +:+ n +:+ post).
Proof.
  intros H. rewrite check_container_exists_eq, H. simpl.
  eexists. split; [done|]. apply str_in_spec.
Qed.

Lemma check_container_exists_substring_witness :
  ∃ b, (check_container_exists "claw"
          (world_of quiet_environment example_config)).1 = Ret b ∧
       (b = true ↔
        ∃ pre post, "openclaw-gateway" = pre +:+ "claw" +:+ post).
Proof.
  apply (check_container_exists_substring "claw"
           (world_of quiet_environment example_config)
           (mk_CompletedProcess 0 "openclaw-gateway" "")).
  reflexivity.
Defined.

(** X4: [check_container_exists] never raises an instance of
    [Exception]: when the command cannot be run or times out it answers
    false. *)
Theorem check_container_exists_no_Exception n w :
  (∀ e, (check_container_exists n w).1 = Raise e →
        isinstance_Exception e = false) ∧
  (∀ e, run_reply (ps_command n) None None true None w = Raise e →
        isinstance_Exception e = true →
        (check_container_exists n w).1 = Ret false).
Proof.
  rewrite check_container_exists_eq. simpl. split.
  - intros e. destruct (run_reply _ _ _ _ _ _) as [p|e0]; [done|].
    destruct (isinstance_Exception e0) eqn:He; [done|]. by intros [= <-].
  - intros e -> ->. done.
Qed.

Lemma remove_container_commands_eq n force w :
  commands (issued (remove_container n force w).2) =
  commands (issued w) ++ ps_command n ::
    match (check_container_exists n w).1 with
    | Ret true => [rm_command n force]
    | _ => []
    end.
Proof.
  unfold remove_container, mbind, ST_bind.
  rewrite check_container_exists_eq.
  destruct (run_reply _ _ _ _ _ _) as [p|e]; cbn beta iota.
  - destruct (str_in n (stdout p)); cbn [negb].
    + unfold log at 1. fold (rm_command n force). rewrite run_command_eq.
      match goal with
      | |- context [match ?r with Ret _ => _ | Raise _ => _ end] =>
          destruct r as [q|e]
      end;
        [|destruct (isinstance e TimeoutExpired);
          [|destruct (isinstance_Exception e)]];
        unfold commands, after_run_command; simpl;
        rewrite !omap_app; simpl; by rewrite <- app_assoc.
    + unfold commands, after_run_command. simpl.
      by rewrite omap_app.
  - destruct (isinstance_Exception e);
      unfold commands, after_run_command; simpl; by rewrite omap_app.
Qed.

(** X5: [remove_container] first looks for the container, and runs
    [docker rm] only when it has found it. *)
Theorem remove_container_commands n force w :
  commands (issued (remove_container n force w).2) =
  commands (issued w) ++ ps_command n ::
    match (check_container_exists n w).1 with
    | Ret true => [rm_command n force]
    | _ => []
    end.
Proof. apply remove_container_commands_eq. Qed.

End container_checks.

(** * More of rollback.py: cleaning up a failed deployment *)

(** The [docker compose down] command of [stop_services]. *)
Definition down_command (c : DeploymentConfig) (remove_volumes : bool)
    : list string :=
  ["docker"; "compose"; "-f"; docker_utils.compose_file c; "down"] ++
  (if remove_volumes then ["-v"] else []).


(** What of the world other than the lines logged. *)
Definition unlogged (w : World)
    : Environment * gmap loc DeploymentConfig * list ext_call :=
  (environment w, heap w, issued w).

Section cleanup_failed_deployment.

Import docker_utils rollback.





Lemma guarded_log_unlogged (body : M unit) name lvl (msg : exn → string) w :
  unlogged (try_except body
              [(isinstance_Exception, λ e, log name lvl (msg e))] w).2 =
  unlogged (body w).2.
Proof.
  unfold try_except. destruct (body w) as [[a|e] w']; simpl; [done|].
  by destruct (isinstance_Exception e).
Qed.




Lemma commands_snoc cs cmd cwd env capture_output timeout :
  commands (cs ++ [subprocess_run cmd cwd env capture_output timeout]) =
  commands cs ++ [cmd].
Proof. unfold commands. by rewrite omap_app. Qed.

(** [stop_services] on a live configuration object runs [docker compose
    down] once, whatever comes of it, and touches nothing else. *)
Lemma stop_services_unlogged config remove_volumes w c :
  heap w !! config = Some c →
  unlogged (stop_services config remove_volumes w).2 =
  (environment w, heap w,
   issued w ++ [subprocess_run (down_command c remove_volumes)
                  (Some (project_dir c))
                  (Some (list_to_map (to_env_dict c) ∪
                         os_environ (environment w)))
                  true (Some 60)]).
Proof.
  intros Hc. unfold stop_services, mbind, ST_bind, log at 1, deref, compose_env.
  simpl. rewrite Hc. fold (down_command c remove_volumes).
  rewrite run_command_eq.
  match goal with
  | |- context [match ?r with Ret _ => _ | Raise _ => _ end] =>
      destruct r as [q|e]
  end; simpl.
  - by destruct (negb (returncode q =? 0)).
  - destruct (isinstance e TimeoutExpired); [done|].
    by destruct (isinstance_Exception e).
Qed.

Lemma remove_container_unlogged n force w :
  (unlogged (remove_container n force w).2).1 = (environment w, heap w).
Proof.
  unfold remove_container, mbind, ST_bind.
  rewrite check_container_exists_eq.
  destruct (run_reply _ _ _ _ _ _) as [p|e]; cbn beta iota.
  - destruct (str_in n (stdout p)); cbn [negb]; [|done].
    unfold log at 1. rewrite run_command_eq.
    match goal with
    | |- context [match ?r with Ret _ => _ | Raise _ => _ end] =>
        destruct r as [q|e]
    end; [done|].
    destruct (isinstance e TimeoutExpired); [done|].
    by destruct (isinstance_Exception e).
  - by destruct (isinstance_Exception e).
Qed.

(** The first two steps of [cleanup_failed_deployment], each in its
    [try] statement. *)
Definition guarded_stop_services (config : loc) (remove_volumes : bool)
    : M unit :=
  try_except (stop_services config remove_volumes)
    [ (isinstance_Exception,
       λ e, log logger WARNING ("Error stopping services: " +:+ exn_msg e)) ].

Definition guarded_remove_container (config : loc) : M unit :=
  try_except
    (c ← deref config; remove_container (container_name c) true)
    [ (isinstance_Exception,
       λ e, log logger WARNING ("Error removing container: " +:+ exn_msg e)) ].

Lemma cleanup_failed_deployment_eq config w :
  cleanup_failed_deployment config false w =
  match guarded_stop_services config false
          (logged logger INFO "Cleaning up failed deployment..." w) with
  | (Ret _, w1) =>
      match guarded_remove_container config w1 with
      | (Ret _, w2) => (Ret tt, logged logger INFO "✓ Cleanup completed" w2)
      | (Raise e, w2) => (Raise e, w2)
      end
  | (Raise e, w1) => (Raise e, w1)
  end.
Proof.
  unfold cleanup_failed_deployment, guarded_stop_services,
    guarded_remove_container, mbind, ST_bind.
  unfold log at 1. unfold logged at 1. simpl.
  destruct (try_except _ _ _) as [[[]|e1] w1]; [|done].
  destruct (try_except _ _ _) as [[[]|e2] w2]; done.
Qed.

Lemma guarded_stop_services_unlogged config w c :
  heap w !! config = Some c →
  heap (guarded_stop_services config false w).2 = heap w ∧
  commands (issued (guarded_stop_services config false w).2) =
    commands (issued w) ++ [down_command c false].
Proof.
  intros Hc.
  pose proof (guarded_log_unlogged (stop_services config false) logger WARNING
                (λ e, "Error stopping services: " +:+ exn_msg e) w) as Hg.
  rewrite (stop_services_unlogged _ _ _ c Hc) in Hg.
  unfold guarded_stop_services.
  unfold unlogged in Hg. injection Hg as _ -> ->.
  split; [done | apply commands_snoc].
Qed.

Lemma guarded_remove_container_unlogged config w c :
  heap w !! config = Some c →
  heap (guarded_remove_container config w).2 = heap w ∧
  commands (issued (guarded_remove_container config w).2) =
    commands (issued w) ++ ps_command (container_name c) ::
      match (check_container_exists (container_name c) w).1 with
      | Ret true => [rm_command (container_name c) true]
      | _ => []
      end.
Proof.
  intros Hc.
  pose proof (guarded_log_unlogged
                (c ← deref config; remove_container (container_name c) true)
                logger WARNING
                (λ e, "Error removing container: " +:+ exn_msg e) w) as Hg.
  unfold guarded_remove_container.
  unfold unlogged in Hg. injection Hg as _ -> ->.
  unfold mbind, ST_bind, deref. rewrite Hc.
  split; [|apply remove_container_commands_eq].
  pose proof (remove_container_unlogged (container_name c) true w) as Hr.
  unfold unlogged in Hr. simpl in Hr. by injection Hr.
Qed.

Lemma cleanup_failed_deployment_commands_prefix config w c :
  heap w !! config = Some c →
  ∃ l, commands (issued (cleanup_failed_deployment config false w).2) =
         commands (issued w) ++ l ∧
       l `prefix_of` [down_command c false; ps_command (container_name c);
                      rm_command (container_name c) true] ∧
       heap (cleanup_failed_deployment config false w).2 = heap w.
Proof.
  intros Hc. rewrite cleanup_failed_deployment_eq.
  set (w0 := logged logger INFO "Cleaning up failed deployment..." w).
  destruct (guarded_stop_services_unlogged config w0 c Hc) as [Hh1 Hi1].
  destruct (guarded_stop_services _ _ _) as [[[]|e1] w1]; simpl in Hh1, Hi1.
  - assert (Hc1 : heap w1 !! config = Some c) by by rewrite Hh1.
    destruct (guarded_remove_container_unlogged config w1 c Hc1) as [Hh2 Hi2].
    assert (Hp : ps_command (container_name c) ::
                   match (check_container_exists (container_name c) w1).1 with
                   | Ret true => [rm_command (container_name c) true]
                   | _ => []
                   end `prefix_of`
                 [ps_command (container_name c);
                  rm_command (container_name c) true]).
    { apply prefix_cons.
      destruct (check_container_exists _ _).1 as [[]|];
        [reflexivity | apply prefix_nil | apply prefix_nil]. }
    destruct (guarded_remove_container _ _) as [[[]|e2] w2];
      simpl in *; eexists;
      (split; [by rewrite Hi2, Hi1, <- app_assoc|]);
      (split; [by apply prefix_cons | congruence]).
  - exists [down_command c false]. split; [done|]. split; [|done].
    apply prefix_cons, prefix_nil.
Qed.

(** X7: called without [remove_volumes] on a live configuration object,
    [cleanup_failed_deployment] runs at most three commands, in this
    order: [docker compose down] without [-v], the [docker ps] that looks
    for the container, and [docker rm -f] of the container.  It never
    removes a volume, and it leaves the configuration objects as they
    are. *)
Theorem cleanup_failed_deployment_commands config w c :
  heap w !! config = Some c →
  ∃ l, commands (issued (cleanup_failed_deployment config false w).2) =
         commands (issued w) ++ l ∧
       l `prefix_of` [down_command c false; ps_command (container_name c);
                      rm_command (container_name c) true] ∧
       heap (cleanup_failed_deployment config false w).2 = heap w.
Proof. apply cleanup_failed_deployment_commands_prefix. Qed.

Lemma cleanup_failed_deployment_commands_witness :
  ∃ l, commands (issued (cleanup_failed_deployment 0%nat false
                           (world_of quiet_environment example_config)).2) =
         commands (issued (world_of quiet_environment example_config)) ++ l ∧
       l `prefix_of` [down_command example_config false;
                      ps_command (container_name example_config);
                      rm_command (container_name example_config) true] ∧
       heap (cleanup_failed_deployment 0%nat false
               (world_of quiet_environment example_config)).2 =
       heap (world_of quiet_environment example_config).
Proof.
  apply (cleanup_failed_deployment_commands 0%nat
           (world_of quiet_environment example_config) example_config).
  reflexivity.
Defined.

End cleanup_failed_deployment.

(** * More of config.py: the environment file *)

(** Attribute assignments of [from_env_file]. *)
Definition set_gateway_bind (v : string) (c : DeploymentConfig) : DeploymentConfig :=
  mk_DeploymentConfig (project_dir c) (openclaw_home c) (workspace_dir c)
    (image_name c) (container_name c) (gateway_port c) (openclaw_version c)
    (gateway_token c) v (anthropic_api_key c) (openai_api_key c)
    (google_ai_api_key c) (ollama_base_url c) (apt_packages c) (home_volume c)
    (restart_policy c) (read_only c) (tmpfs_size c) (log_max_size c)
    (log_max_file c) (health_interval c) (health_timeout c)
    (health_start_period c) (health_retries c).

Definition set_openai_api_key (v : option string) (c : DeploymentConfig) : DeploymentConfig :=
  mk_DeploymentConfig (project_dir c) (openclaw_home c) (workspace_dir c)
    (image_name c) (container_name c) (gateway_port c) (openclaw_version c)
    (gateway_token c) (gateway_bind c) (anthropic_api_key c) v
    (google_ai_api_key c) (ollama_base_url c) (apt_packages c) (home_volume c)
    (restart_policy c) (read_only c) (tmpfs_size c) (log_max_size c)
    (log_max_file c) (health_interval c) (health_timeout c)
    (health_start_period c) (health_retries c).

Definition set_google_ai_api_key (v : option string) (c : DeploymentConfig) : DeploymentConfig :=
  mk_DeploymentConfig (project_dir c) (openclaw_home c) (workspace_dir c)
    (image_name c) (container_name c) (gateway_port c) (openclaw_version c)
    (gateway_token c) (gateway_bind c) (anthropic_api_key c) (openai_api_key c)
    v (ollama_base_url c) (apt_packages c) (home_volume c)
    (restart_policy c) (read_only c) (tmpfs_size c) (log_max_size c)
    (log_max_file c) (health_interval c) (health_timeout c)
    (health_start_period c) (health_retries c).

Definition set_ollama_base_url (v : option string) (c : DeploymentConfig) : DeploymentConfig :=
  mk_DeploymentConfig (project_dir c) (openclaw_home c) (workspace_dir c)
    (image_name c) (container_name c) (gateway_port c) (openclaw_version c)
    (gateway_token c) (gateway_bind c) (anthropic_api_key c) (openai_api_key c)
    (google_ai_api_key c) v (apt_packages c) (home_volume c)
    (restart_policy c) (read_only c) (tmpfs_size c) (log_max_size c)
    (log_max_file c) (health_interval c) (health_timeout c)
    (health_start_period c) (health_retries c).

Definition set_apt_packages (v : string) (c : DeploymentConfig) : DeploymentConfig :=
  mk_DeploymentConfig (project_dir c) (openclaw_home c) (workspace_dir c)
    (image_name c) (container_name c) (gateway_port c) (openclaw_version c)
    (gateway_token c) (gateway_bind c) (anthropic_api_key c) (openai_api_key c)
    (google_ai_api_key c) (ollama_base_url c) v (home_volume c)
    (restart_policy c) (read_only c) (tmpfs_size c) (log_max_size c)
    (log_max_file c) (health_interval c) (health_timeout c)
    (health_start_period c) (health_retries c).

Definition set_home_volume (v : string) (c : DeploymentConfig) : DeploymentConfig :=
  mk_DeploymentConfig (project_dir c) (openclaw_home c) (workspace_dir c)
    (image_name c) (container_name c) (gateway_port c) (openclaw_version c)
    (gateway_token c) (gateway_bind c) (anthropic_api_key c) (openai_api_key c)
    (google_ai_api_key c) (ollama_base_url c) (apt_packages c) v
    (restart_policy c) (read_only c) (tmpfs_size c) (log_max_size c)
    (log_max_file c) (health_interval c) (health_timeout c)
    (health_start_period c) (health_retries c).

(** [env_map] of [from_env_file], each attribute name by its assignment. *)
Definition env_map
    : list (string * (string → DeploymentConfig → DeploymentConfig)) :=
  [ ("OPENCLAW_GATEWAY_TOKEN", λ v, set_gateway_token (Some v));
    ("OPENCLAW_GATEWAY_BIND", set_gateway_bind);
    ("ANTHROPIC_API_KEY", λ v, set_anthropic_api_key (Some v));
    ("OPENAI_API_KEY", λ v, set_openai_api_key (Some v));
    ("GOOGLE_AI_API_KEY", λ v, set_google_ai_api_key (Some v));
    ("OLLAMA_BASE_URL", λ v, set_ollama_base_url (Some v));
    ("OPENCLAW_DOCKER_APT_PACKAGES", set_apt_packages);
    ("OPENCLAW_HOME_VOLUME", set_home_volume) ].

(** [d[key]] when [key in d], for a dict in insertion order with distinct
    keys. *)
Fixpoint dict_get {V} (d : list (string * V)) (key : string) : option V :=
  match d with
  | [] => None
  | (k, v) :: rest => if String.eqb k key then Some v else dict_get rest key
  end.

Definition is_char (n : nat) (a : Ascii.ascii) : bool :=
  (Ascii.nat_of_ascii a =? n)%nat.

(** The lines that iterating over a file opened in text mode yields,
    without their ends: a line ends at a line feed, at a carriage return,
    or at a carriage return followed by a line feed. *)
Fixpoint file_lines (text : string) : list string :=
  match text with
  | EmptyString => []
  | String a rest =>
      if is_char 10 a then EmptyString :: file_lines rest
      else if is_char 13 a then
        match rest with
        | String b _ =>
            if is_char 10 b then file_lines rest
            else EmptyString :: file_lines rest
        | EmptyString => [EmptyString]
        end
      else
        match file_lines rest with
        | [] => [String a EmptyString]
        | line :: lines => String a line :: lines
        end
  end.

(** [line.split('=', 1)] for a line that contains ['=']. *)
Fixpoint split_eq (line : string) : string * string :=
  match line with
  | EmptyString => (EmptyString, EmptyString)
  | String a rest =>
      if is_char 61 a then (EmptyString, rest)
      else let '(key, value) := split_eq rest in (String a key, value)
  end.

(** The body of the loop of [from_env_file], for one line of the file. *)
Definition env_line (line : string) (config : DeploymentConfig)
    : DeploymentConfig :=
  let line := strip line in
  if negb (truthy line) || String.prefix "#" line then config
  else if negb (str_in "=" line) then config
  else
    let '(key, value) := split_eq line in
    let key := strip key in
    let value := strip value in
    match dict_get env_map key with
    | Some assign => if truthy value then assign value config else config
    | None => config
    end.

(** The loop of [from_env_file] over the text of an existing file, from
    the configuration that [cls()] gives. *)
Definition from_env_text (text : string) (config : DeploymentConfig)
    : DeploymentConfig :=
  foldl (λ c line, env_line line c) config (file_lines text).

(** [DeploymentConfig()] where the working directory is [cwd] and the
    home directory [home]. *)
Definition default_config (cwd home : Path) : DeploymentConfig :=
  mk_DeploymentConfig cwd (path_join home ".openclaw")
    (path_join (path_join home "openclaw") "workspace")
    "openclaw:local" "openclaw-gateway" 18789 "latest" None "lan"
    None None None None "" "openclaw-home" "unless-stopped" true
    "512M" "10m" "3" 30 10 60 3.

(** The attributes that no [.env] file sets. *)
Definition not_in_env_map (c : DeploymentConfig) :=
  (project_dir c, openclaw_home c, workspace_dir c, image_name c,
   container_name c, gateway_port c, openclaw_version c, restart_policy c,
   read_only c, tmpfs_size c, log_max_size c, log_max_file c,
   health_interval c, health_timeout c, health_start_period c,
   health_retries c).

(** ASCII text without line ends. *)
Fixpoint plain (v : string) : bool :=
  match v with
  | EmptyString => true
  | String a rest =>
      (Ascii.nat_of_ascii a <? 128)%nat && negb (is_char 10 a) &&
      negb (is_char 13 a) && plain rest
  end.

(** A value that a line of a [.env] file carries as it is: plain, and
    without white space at its ends. *)
Definition tidy (v : string) : bool := plain v && String.eqb (strip v) v.

Section env_file.

Example from_env_text_test :
  let c := from_env_text
             (nl +:+ "OPENCLAW_GATEWAY_TOKEN=file-token" +:+ nl +:+
              "ANTHROPIC_API_KEY=sk-ant-file" +:+ nl +:+
              "OPENCLAW_GATEWAY_BIND=localhost" +:+ nl)
             (default_config "/srv" "/home/op") in
  gateway_token c = Some "file-token" ∧
  anthropic_api_key c = Some "sk-ant-file" ∧
  gateway_bind c = "localhost".
Proof. vm_compute. done. Qed.

Example save_and_load_test :
  let c := set_anthropic_api_key (Some "sk-ant-test")
             (set_gateway_token (Some "test-token-123")
                (default_config "/srv" "/home/op")) in
  let loaded := from_env_text (docker_utils.env_file_content c)
                  (default_config "/srv" "/home/op") in
  gateway_token loaded = Some "test-token-123" ∧
  anthropic_api_key loaded = Some "sk-ant-test".
Proof. vm_compute. done. Qed.

(** *** What [to_env_dict] exports *)

Lemma env_entry_cases key o :
  env_entry key o = [] ∨
  ∃ v, o = Some v ∧ truthy v = true ∧ env_entry key o = [(key, v)].
Proof.
  destruct o as [v|]; simpl; [|by left].
  destruct (truthy v) eqn:Hv; [right; by exists v | by left].
Qed.

Lemma env_entry_keys key o : (env_entry key o).*1 `sublist_of` [key].
Proof.
  destruct (env_entry_cases key o) as [->|(v & _ & _ & ->)].
  - apply sublist_nil_l.
  - reflexivity.
Qed.

Lemma env_entry_values key o assign :
  dict_get env_map key = Some assign →
  Forall (λ kv : string * string,
            truthy kv.2 = true ∧ is_Some (dict_get env_map kv.1))
    (env_entry key o).
Proof.
  intros Hk. destruct (env_entry_cases key o) as [->|(v & _ & Hv & ->)].
  - constructor.
  - constructor; [|constructor]. cbn [fst snd]. split; [done|]. by rewrite Hk.
Qed.

Lemma to_env_dict_exports c :
  NoDup (to_env_dict c).*1 ∧
  Forall (λ kv : string * string,
            truthy kv.2 = true ∧ is_Some (dict_get env_map kv.1))
    (to_env_dict c).
Proof.
  unfold to_env_dict. split.
  - eapply (sublist_NoDup _ env_map.*1).
    + simpl. apply (bool_decide_unpack _). by vm_compute.
    + rewrite !fmap_app.
      change (env_map.*1) with
        (["OPENCLAW_GATEWAY_TOKEN"] ++ ["OPENCLAW_GATEWAY_BIND"] ++
         ["ANTHROPIC_API_KEY"] ++ ["OPENAI_API_KEY"] ++
         ["GOOGLE_AI_API_KEY"] ++ ["OLLAMA_BASE_URL"] ++
         ["OPENCLAW_DOCKER_APT_PACKAGES"] ++ ["OPENCLAW_HOME_VOLUME"]).
      repeat (apply sublist_app; [apply env_entry_keys|]).
      apply env_entry_keys.
  - rewrite !Forall_app.
    repeat split; by eapply env_entry_values.
Qed.

(** X8: the variables that [to_env_dict] exports have distinct names and
    non-empty values, and each name is one that [from_env_file] reads. *)
Theorem to_env_dict_well_formed c :
  NoDup (to_env_dict c).*1 ∧
  Forall (λ kv : string * string,
            truthy kv.2 = true ∧ is_Some (dict_get env_map kv.1))
    (to_env_dict c).
Proof. apply to_env_dict_exports. Qed.

(** *** What [from_env_file] leaves alone *)

Lemma dict_get_elem_of {V} (d : list (string * V)) key v :
  dict_get d key = Some v → (key, v) ∈ d.
Proof.
  induction d as [|[k v'] d IH]; [done|]. simpl.
  destruct (String.eqb k key) eqn:Hk.
  - apply String.eqb_eq in Hk as ->. intros [= ->]. apply list_elem_of_here.
  - intros H. apply list_elem_of_further, IH, H.
Qed.

Lemma env_map_assign key assign v c :
  dict_get env_map key = Some assign →
  not_in_env_map (assign v c) = not_in_env_map c.
Proof.
  intros H%dict_get_elem_of. unfold env_map in H.
  repeat (apply elem_of_cons in H as [H|H];
          [injection H as -> ->; reflexivity|]).
  by apply elem_of_nil in H.
Qed.

Lemma env_line_not_in_env_map line c :
  not_in_env_map (env_line line c) = not_in_env_map c.
Proof.
  unfold env_line.
  destruct (negb (truthy (strip line)) || String.prefix "#" (strip line));
    [done|].
  destruct (negb (str_in "=" (strip line))); [done|].
  destruct (split_eq (strip line)) as [key value].
  destruct (dict_get env_map (strip key)) as [assign|] eqn:Hk; [|done].
  destruct (truthy (strip value)); [|done].
  by eapply env_map_assign.
Qed.

Lemma from_env_text_not_in_env_map text c :
  not_in_env_map (from_env_text text c) = not_in_env_map c.
Proof.
  unfold from_env_text. revert c.
  induction (file_lines text) as [|line lines IH]; intros c; [done|].
  simpl. by rewrite IH, env_line_not_in_env_map.
Qed.

(** X9: whatever the text of the [.env] file, loading it changes only the
    eight attributes of [env_map]: the paths, the image and container
    names, the port and the deployment and health settings stay as
    [cls()] gave them. *)
Theorem from_env_file_keeps_other_attributes text c :
  not_in_env_map (from_env_text text c) = not_in_env_map c.
Proof. apply from_env_text_not_in_env_map. Qed.

(** *** Saving, then loading *)

Lemma append_cons a s t : String a s +:+ t = String a (s +:+ t).
Proof. done. Qed.

Lemma append_assoc s1 s2 s3 : (s1 +:+ s2) +:+ s3 = s1 +:+ s2 +:+ s3.
Proof.
  induction s1 as [|a s1 IH]; [done|]. by rewrite !append_cons, IH.
Qed.

Lemma append_empty_r s : s +:+ "" = s.
Proof. induction s as [|a s IH]; [done|]. by rewrite append_cons, IH. Qed.

Lemma plain_app s1 s2 : plain (s1 +:+ s2) = plain s1 && plain s2.
Proof.
  induction s1 as [|a s1 IH]; [done|].
  rewrite append_cons. cbn [plain]. rewrite IH. by rewrite !andb_assoc.
Qed.

Lemma file_lines_plain s rest :
  plain s = true → file_lines (s +:+ nl +:+ rest) = s :: file_lines rest.
Proof.
  induction s as [|a s IH]; [done|].
  cbn [plain].
  intros (((_ & Hn)%andb_prop & Hr)%andb_prop & Hs)%andb_prop.
  apply negb_true_iff in Hn, Hr.
  rewrite append_cons. cbn [file_lines]. rewrite Hn, Hr. by rewrite (IH Hs).
Qed.

Lemma length_lstrip s :
  lstrip s = s ∨ (String.length (lstrip s) < String.length s)%nat.
Proof.
  induction s as [|a s IH]; simpl; [by left|].
  destruct (is_space a); [|by left]. right. destruct IH as [->|IH]; lia.
Qed.

Lemma length_rstrip s : (String.length (rstrip s) ≤ String.length s)%nat.
Proof.
  induction s as [|a s IH]; simpl; [done|].
  destruct (rstrip s) as [|b r]; simpl in *.
  - destruct (is_space a); simpl; lia.
  - lia.
Qed.

(** A text that [strip] leaves as it is has no white space at its ends. *)
Lemma strip_fixed v : strip v = v → lstrip v = v ∧ rstrip v = v.
Proof.
  unfold strip. intros H.
  destruct (length_lstrip v) as [Hl|Hl].
  - by rewrite Hl in H.
  - pose proof (length_rstrip (lstrip v)) as Hr. rewrite H in Hr. lia.
Qed.

Lemma rstrip_app s v :
  v ≠ "" → rstrip v = v → rstrip (s +:+ v) = s +:+ v.
Proof.
  intros Hv Hr. induction s as [|a s IH]; [done|].
  rewrite append_cons. cbn [rstrip]. rewrite IH.
  destruct (s +:+ v) as [|b r] eqn:Hs; [|done].
  destruct s; [done | discriminate].
Qed.

Lemma lstrip_app k x : k ≠ "" → lstrip k = k → lstrip (k +:+ x) = k +:+ x.
Proof.
  destruct k as [|a k]; [done|]. intros _. simpl.
  destruct (is_space a); [|done].
  intros H. pose proof (length_lstrip k) as [Hl|Hl].
  - rewrite Hl in H. apply (f_equal String.length) in H. simpl in H. lia.
  - rewrite H in Hl. simpl in Hl. lia.
Qed.

Lemma strip_app k x v :
  k ≠ "" → lstrip k = k → v ≠ "" → rstrip v = v →
  strip (k +:+ x +:+ v) = k +:+ x +:+ v.
Proof.
  intros Hk Hlk Hv Hrv. unfold strip. rewrite lstrip_app by done.
  rewrite <- !append_assoc. by apply rstrip_app.
Qed.

Lemma str_in_app x pre post : str_in x (pre +:+ x +:+ post) = true.
Proof. apply str_in_spec. by exists pre, post. Qed.

(** What makes a name of [env_map] readable back from a line. *)
Lemma env_map_key key assign :
  (key, assign) ∈ env_map →
  dict_get env_map key = Some assign ∧
  plain key = true ∧ key ≠ "" ∧ lstrip key = key ∧ strip key = key ∧
  (∀ x, String.prefix "#" (key +:+ x) = false) ∧
  (∀ v, split_eq (key +:+ "=" +:+ v) = (key, v)).
Proof.
  unfold env_map. intros H.
  repeat (apply elem_of_cons in H as [H|H];
          [injection H as -> ->; by vm_compute|]).
  by apply elem_of_nil in H.
Qed.

Lemma truthy_nonempty v : truthy v = true → v ≠ "".
Proof. by intros H ->. Qed.

Lemma env_line_entry key assign v c :
  (key, assign) ∈ env_map → tidy v = true → truthy v = true →
  env_line (key +:+ "=" +:+ v) c = assign v c.
Proof.
  intros Hk Ht Hv.
  destruct (env_map_key _ _ Hk) as (Hget & _ & Hne & Hl & Hs & Hhash & Hsplit).
  apply andb_prop in Ht as [_ Ht]. apply String.eqb_eq in Ht.
  destruct (strip_fixed _ Ht) as [_ Hr].
  pose proof (truthy_nonempty _ Hv) as Hvne.
  unfold env_line. rewrite strip_app by done.
  rewrite Hhash, str_in_app, Hsplit, Hs, Ht, Hget, Hv.
  destruct key; [done|]. done.
Qed.

(** The lines that [save_env_file] writes for a dict, and what loading
    them assigns. *)
Definition env_lines (d : list (string * string)) : string :=
  String.concat ""
    (map (λ kv : string * string, kv.1 +:+ "=" +:+ kv.2 +:+ nl) d).

Definition assign_all (d : list (string * string)) (c : DeploymentConfig)
    : DeploymentConfig :=
  foldl (λ c kv, match dict_get env_map kv.1 with
                 | Some assign => assign kv.2 c
                 | None => c
                 end) c d.

Definition readable (kv : string * string) : Prop :=
  (∃ assign, (kv.1, assign) ∈ env_map) ∧
  tidy kv.2 = true ∧ truthy kv.2 = true.

Lemma concat_cons_nonempty (x : string) xs :
  xs ≠ [] → String.concat "" (x :: xs) = x +:+ String.concat "" xs.
Proof. by destruct xs. Qed.

Lemma env_lines_cons kv d :
  env_lines (kv :: d) = (kv.1 +:+ "=" +:+ kv.2) +:+ nl +:+ env_lines d.
Proof.
  unfold env_lines. destruct d as [|kv' d].
  - simpl. by rewrite !append_assoc, append_empty_r.
  - rewrite map_cons, concat_cons_nonempty by done.
    by rewrite !append_assoc.
Qed.

Lemma from_env_lines d c :
  Forall readable d →
  foldl (λ c line, env_line line c) c (file_lines (env_lines d)) =
  assign_all d c.
Proof.
  intros Hd. revert c.
  induction Hd as [|[k v] d ([assign Hk] & Ht & Hv) _ IH]; intros c; [done|].
  simpl in Hk, Ht, Hv.
  destruct (env_map_key _ _ Hk) as (Hget & Hp & _).
  rewrite env_lines_cons. cbn [fst snd].
  rewrite file_lines_plain.
  - cbn [foldl]. rewrite (env_line_entry _ _ _ _ Hk Ht Hv), IH.
    unfold assign_all. cbn [foldl fst snd]. by rewrite Hget.
  - rewrite !plain_app, Hp. apply andb_prop in Ht as [-> _]. done.
Qed.

Lemma from_env_text_saved c d :
  Forall (λ kv : string * string, tidy kv.2 = true) (to_env_dict c) →
  from_env_text (docker_utils.env_file_content c) d =
  assign_all (to_env_dict c) d.
Proof.
  intros Ht. unfold from_env_text, docker_utils.env_file_content.
  fold (env_lines (to_env_dict c)).
  rewrite !file_lines_plain by done.
  change (nl +:+ env_lines (to_env_dict c))
    with ("" +:+ nl +:+ env_lines (to_env_dict c)).
  rewrite file_lines_plain by done.
  cbn [foldl].
  change (env_line "" (env_line "# Generated by openclaw-deploy CLI"
            (env_line "# OpenClaw Docker Configuration" d))) with d.
  apply from_env_lines.
  destruct (to_env_dict_exports c) as [_ He].
  rewrite Forall_forall in Ht, He. apply Forall_forall. intros kv Hkv.
  destruct (He kv Hkv) as [Hv [assign Hg]].
  split; [|by split; [apply Ht|]].
  exists assign. by apply dict_get_elem_of.
Qed.

(** The eight attributes of [env_map]. *)
Definition env_attributes (c : DeploymentConfig) :=
  (gateway_token c, gateway_bind c, anthropic_api_key c, openai_api_key c,
   google_ai_api_key c, ollama_base_url c, apt_packages c, home_volume c).

(** What [to_env_dict] exports of them. *)
Definition export (t : option string * string * option string *
                       option string * option string * option string *
                       string * string) : list (string * string) :=
  let '(token, bind, anthropic, openai, google, ollama, apt, volume) := t in
  env_entry "OPENCLAW_GATEWAY_TOKEN" token ++
  env_entry "OPENCLAW_GATEWAY_BIND" (Some bind) ++
  env_entry "ANTHROPIC_API_KEY" anthropic ++
  env_entry "OPENAI_API_KEY" openai ++
  env_entry "GOOGLE_AI_API_KEY" google ++
  env_entry "OLLAMA_BASE_URL" ollama ++
  env_entry "OPENCLAW_DOCKER_APT_PACKAGES" (Some apt) ++
  env_entry "OPENCLAW_HOME_VOLUME" (Some volume).

Lemma to_env_dict_export c : to_env_dict c = export (env_attributes c).
Proof. done. Qed.

(** An attribute after the assignment that an entry of the file makes:
    the value of the entry, when it has one. *)
Definition merge (o old : option string) : option string :=
  if truthy_opt o then o else old.

Definition merge_str (o : option string) (old : string) : string :=
  match o with
  | Some v => if truthy v then v else old
  | None => old
  end.

Definition cond_assign
    (assign : string → DeploymentConfig → DeploymentConfig)
    (o : option string) (d : DeploymentConfig) : DeploymentConfig :=
  match o with
  | Some v => if truthy v then assign v d else d
  | None => d
  end.

Lemma assign_all_app l1 l2 d :
  assign_all (l1 ++ l2) d = assign_all l2 (assign_all l1 d).
Proof. apply foldl_app. Qed.

Lemma assign_all_entry key assign o d :
  dict_get env_map key = Some assign →
  assign_all (env_entry key o) d = cond_assign assign o d.
Proof.
  intros Hk. unfold cond_assign.
  destruct (env_entry_cases key o) as [He|(v & -> & Hv & He)]; rewrite He.
  - destruct o as [v|]; [|done]. simpl in He.
    by destruct (truthy v).
  - rewrite Hv. unfold assign_all. cbn [foldl fst snd]. by rewrite Hk.
Qed.

Ltac cond_assign_cases o :=
  unfold cond_assign, merge, merge_str, truthy_opt;
  destruct o as [?v|]; [|reflexivity];
  destruct (truthy _); reflexivity.

Lemma env_attributes_token o d :
  env_attributes (cond_assign (λ v, set_gateway_token (Some v)) o d) =
  let '(t, b, a, oa, g, ol, ap, hv) := env_attributes d in
  (merge o t, b, a, oa, g, ol, ap, hv).
Proof. cond_assign_cases o. Qed.

Lemma env_attributes_bind o d :
  env_attributes (cond_assign set_gateway_bind o d) =
  let '(t, b, a, oa, g, ol, ap, hv) := env_attributes d in
  (t, merge_str o b, a, oa, g, ol, ap, hv).
Proof. cond_assign_cases o. Qed.

Lemma env_attributes_anthropic o d :
  env_attributes (cond_assign (λ v, set_anthropic_api_key (Some v)) o d) =
  let '(t, b, a, oa, g, ol, ap, hv) := env_attributes d in
  (t, b, merge o a, oa, g, ol, ap, hv).
Proof. cond_assign_cases o. Qed.

Lemma env_attributes_openai o d :
  env_attributes (cond_assign (λ v, set_openai_api_key (Some v)) o d) =
  let '(t, b, a, oa, g, ol, ap, hv) := env_attributes d in
  (t, b, a, merge o oa, g, ol, ap, hv).
Proof. cond_assign_cases o. Qed.

Lemma env_attributes_google o d :
  env_attributes (cond_assign (λ v, set_google_ai_api_key (Some v)) o d) =
  let '(t, b, a, oa, g, ol, ap, hv) := env_attributes d in
  (t, b, a, oa, merge o g, ol, ap, hv).
Proof. cond_assign_cases o. Qed.

Lemma env_attributes_ollama o d :
  env_attributes (cond_assign (λ v, set_ollama_base_url (Some v)) o d) =
  let '(t, b, a, oa, g, ol, ap, hv) := env_attributes d in
  (t, b, a, oa, g, merge o ol, ap, hv).
Proof. cond_assign_cases o. Qed.

Lemma env_attributes_apt o d :
  env_attributes (cond_assign set_apt_packages o d) =
  let '(t, b, a, oa, g, ol, ap, hv) := env_attributes d in
  (t, b, a, oa, g, ol, merge_str o ap, hv).
Proof. cond_assign_cases o. Qed.

Lemma env_attributes_volume o d :
  env_attributes (cond_assign set_home_volume o d) =
  let '(t, b, a, oa, g, ol, ap, hv) := env_attributes d in
  (t, b, a, oa, g, ol, ap, merge_str o hv).
Proof. cond_assign_cases o. Qed.

(** The attributes of [env_map] after loading what [save_env_file] wrote
    for [c]: those that [c] exports, and for the rest those of the
    configuration loaded into. *)
Lemma env_attributes_assign_all c d :
  env_attributes (assign_all (to_env_dict c) d) =
  (merge (gateway_token c) (gateway_token d),
   merge_str (Some (gateway_bind c)) (gateway_bind d),
   merge (anthropic_api_key c) (anthropic_api_key d),
   merge (openai_api_key c) (openai_api_key d),
   merge (google_ai_api_key c) (google_ai_api_key d),
   merge (ollama_base_url c) (ollama_base_url d),
   merge_str (Some (apt_packages c)) (apt_packages d),
   merge_str (Some (home_volume c)) (home_volume d)).
Proof.
  unfold to_env_dict. rewrite !assign_all_app.
  rewrite (assign_all_entry "OPENCLAW_GATEWAY_TOKEN" _ _ _ eq_refl),
    (assign_all_entry "OPENCLAW_GATEWAY_BIND" _ _ _ eq_refl),
    (assign_all_entry "ANTHROPIC_API_KEY" _ _ _ eq_refl),
    (assign_all_entry "OPENAI_API_KEY" _ _ _ eq_refl),
    (assign_all_entry "GOOGLE_AI_API_KEY" _ _ _ eq_refl),
    (assign_all_entry "OLLAMA_BASE_URL" _ _ _ eq_refl),
    (assign_all_entry "OPENCLAW_DOCKER_APT_PACKAGES" _ _ _ eq_refl),
    (assign_all_entry "OPENCLAW_HOME_VOLUME" _ _ _ eq_refl).
  rewrite env_attributes_volume, env_attributes_apt, env_attributes_ollama,
    env_attributes_google, env_attributes_openai, env_attributes_anthropic,
    env_attributes_bind, env_attributes_token.
  reflexivity.
Qed.

Lemma env_entry_merge_None key o : env_entry key (merge o None) = env_entry key o.
Proof.
  unfold merge, truthy_opt, env_entry. destruct o as [v|]; [|done].
  destruct (truthy v) eqn:Hv; [by rewrite Hv | done].
Qed.

Lemma env_entry_merge_str key v old :
  truthy v = true ∨ old = "" →
  env_entry key (Some (merge_str (Some v) old)) = env_entry key (Some v).
Proof.
  unfold merge_str, env_entry.
  destruct (truthy v) eqn:Hv; [by rewrite Hv|].
  intros [?| ->]; done.
Qed.

Lemma assign_all_exports c cwd home :
  truthy (gateway_bind c) = true → truthy (home_volume c) = true →
  to_env_dict (assign_all (to_env_dict c) (default_config cwd home)) =
  to_env_dict c.
Proof.
  intros Hb Hv.
  rewrite (to_env_dict_export (assign_all _ _)), env_attributes_assign_all.
  cbn [export default_config gateway_token gateway_bind anthropic_api_key
       openai_api_key google_ai_api_key ollama_base_url apt_packages
       home_volume].
  rewrite !env_entry_merge_None.
  rewrite !env_entry_merge_str by auto.
  reflexivity.
Qed.

(** X10: saving and loading back.  For a configuration whose exported
    values are tidy (plain text, no white space at the ends) and whose
    [gateway_bind] and [home_volume] are not empty, the file that
    [save_env_file] writes, loaded by [from_env_file], gives a
    configuration that exports the same variables with the same
    values. *)
Theorem env_file_round_trip c cwd home :
  Forall (λ kv : string * string, tidy kv.2 = true) (to_env_dict c) →
  truthy (gateway_bind c) = true → truthy (home_volume c) = true →
  to_env_dict (from_env_text (docker_utils.env_file_content c)
                 (default_config cwd home)) =
  to_env_dict c.
Proof.
  intros Ht Hb Hv. rewrite from_env_text_saved by done.
  by apply assign_all_exports.
Qed.

Lemma env_file_round_trip_witness :
  to_env_dict (from_env_text (docker_utils.env_file_content example_config)
                 (default_config "/srv/openclaw" "/home/op")) =
  to_env_dict example_config.
Proof.
  apply (env_file_round_trip example_config "/srv/openclaw" "/home/op").
  - repeat constructor.
  - reflexivity.
  - reflexivity.
Defined.

End env_file.

(** * More of config.py and docker_utils.py: the configuration object *)

(** The configuration that [load_config] starts from: the YAML file when
    it exists, else the [.env] file when it exists, else the defaults. *)
Definition load_base (config_file env_file : option Path)
    : M DeploymentConfig :=
  b ← opt_exists config_file;
  if b : bool
  then external reply_config (from_yaml (default "" config_file))
  else
    b' ← opt_exists env_file;
    if b' : bool
    then external reply_config (from_env_file (default "" env_file))
    else DeploymentConfig_default.

(** The overrides of [load_config], applied in their order. *)
Definition overrides (o_project_dir : option Path)
    (o_gateway_token : option string) (c : DeploymentConfig)
    : DeploymentConfig :=
  let c := match o_project_dir with
           | Some v => set_project_dir v c
           | None => c
           end in
  match o_gateway_token with
  | Some v => set_gateway_token (Some v) c
  | None => c
  end.

Section load_config.

Lemma load_base_heap config_file env_file w :
  heap (load_base config_file env_file w).2 = heap w.
Proof.
  unfold load_base, opt_exists, mbind, ST_bind, external,
    DeploymentConfig_default.
  destruct config_file as [f|], env_file as [f'|]; simpl;
    repeat match goal with
           | |- context [reply_bool ?a ?b ?c] =>
               destruct (reply_bool a b c) as [[]|?]; simpl
           | |- context [reply_config ?a ?b ?c] =>
               destruct (reply_config a b c); simpl
           end; done.
Qed.

Lemma load_config_eq config_file env_file o_project_dir o_gateway_token w :
  load_config config_file env_file o_project_dir o_gateway_token w =
  match load_base config_file env_file w with
  | (Ret c, w1) =>
      (Ret (fresh (dom (heap w1))),
       set_heap (<[fresh (dom (heap w1)) :=
                     overrides o_project_dir o_gateway_token c]> (heap w1)) w1)
  | (Raise e, w1) => (Raise e, w1)
  end.
Proof.
  unfold load_config, load_base, opt_exists, mbind, ST_bind, external,
    DeploymentConfig_default, alloc, setattr, overrides, set_heap.
  destruct config_file as [f|], env_file as [f'|],
    o_project_dir as [pd|], o_gateway_token as [t|]; simpl;
    repeat match goal with
           | |- context [reply_bool ?a ?b ?c] =>
               destruct (reply_bool a b c) as [[]|?]; simpl
           | |- context [reply_config ?a ?b ?c] =>
               destruct (reply_config a b c); simpl
           end; try done;
    rewrite ?lookup_insert_eq; simpl; rewrite ?lookup_insert_eq; simpl;
    rewrite ?insert_insert_eq; done.
Qed.

(** X11: the object that [load_config] returns is a new one, the objects
    that exist are left as they are, and the overrides win over whatever
    the files say: [project_dir] is the one given, and so is
    [gateway_token] when one is given. *)
Theorem load_config_overrides config_file env_file o_project_dir
    o_gateway_token w config w' :
  load_config config_file env_file o_project_dir o_gateway_token w =
    (Ret config, w') →
  heap w !! config = None ∧
  (∃ c, heap w' !! config = Some c ∧
        (∀ v, o_project_dir = Some v → project_dir c = v) ∧
        (∀ v, o_gateway_token = Some v → gateway_token c = Some v)) ∧
  (∀ l, l ≠ config → heap w' !! l = heap w !! l).
Proof.
  rewrite load_config_eq.
  pose proof (load_base_heap config_file env_file w) as Hh.
  destruct (load_base _ _ w) as [[c|e] w1]; [|done]. simpl in Hh.
  intros [= <- <-]. rewrite Hh. split; [|split].
  - apply (not_elem_of_dom (D:=gset loc)), is_fresh.
  - exists (overrides o_project_dir o_gateway_token c). simpl.
    rewrite lookup_insert_eq. split; [done|]. unfold overrides.
    split; intros v ->; [by destruct o_gateway_token | done].
  - intros l Hl. simpl. by rewrite lookup_insert_ne.
Qed.

Lemma load_config_overrides_witness :
  heap (world_of quiet_environment example_config) !! 1%nat = None ∧
  (∃ c, heap (load_config None (Some "/srv/openclaw/.env")
                (Some "/opt/claw") (Some "t0k3n")
                (world_of quiet_environment example_config)).2 !! 1%nat =
          Some c ∧
        (∀ v, Some "/opt/claw" = Some v → project_dir c = v) ∧
        (∀ v, Some "t0k3n" = Some v → gateway_token c = Some v)) ∧
  (∀ l, l ≠ 1%nat →
        heap (load_config None (Some "/srv/openclaw/.env")
                (Some "/opt/claw") (Some "t0k3n")
                (world_of quiet_environment example_config)).2 !! l =
        heap (world_of quiet_environment example_config) !! l).
Proof.
  apply (load_config_overrides None (Some "/srv/openclaw/.env")
           (Some "/opt/claw") (Some "t0k3n")
           (world_of quiet_environment example_config) 1%nat).
  vm_compute. reflexivity.
Defined.

(** X12: when the YAML file exists, [load_config] reads it and never
    looks at the [.env] file. *)
Theorem load_config_prefers_yaml f env_file o_project_dir o_gateway_token w :
  reply_bool (environment w) (length (issued w)) (Path_exists f) = Ret true →
  issued (load_config (Some f) env_file o_project_dir o_gateway_token w).2 =
  issued w ++ [Path_exists f; from_yaml f].
Proof.
  intros H. rewrite load_config_eq.
  unfold load_base, opt_exists, mbind, ST_bind, external. simpl.
  rewrite H. simpl.
  destruct (reply_config _ _ _); simpl; by rewrite <- app_assoc.
Qed.

Lemma load_config_prefers_yaml_witness :
  issued (load_config (Some "/srv/openclaw/deploy.yml")
            (Some "/srv/openclaw/.env") (Some "/srv/openclaw") None
            (world_of quiet_environment example_config)).2 =
  issued (world_of quiet_environment example_config) ++
  [Path_exists "/srv/openclaw/deploy.yml";
   from_yaml "/srv/openclaw/deploy.yml"].
Proof.
  apply (load_config_prefers_yaml "/srv/openclaw/deploy.yml"
           (Some "/srv/openclaw/.env") (Some "/srv/openclaw") None
           (world_of quiet_environment example_config)).
  reflexivity.
Defined.

End load_config.

Section generate_env_file.

Import docker_utils.

Lemma set_gateway_token_same c : set_gateway_token (gateway_token c) c = c.
Proof. by destruct c. Qed.

Lemma generate_env_file_result config w c :
  heap w !! config = Some c →
  ∃ c', heap (generate_env_file config w).2 !! config = Some c' ∧
        c' = set_gateway_token (gateway_token c') c ∧
        (truthy_opt (gateway_token c) = true → c' = c) ∧
        (∀ l, l ≠ config →
              heap (generate_env_file config w).2 !! l = heap w !! l) ∧
        ((generate_env_file config w).1 = Ret tt →
         last (issued (generate_env_file config w).2) =
           Some (write_file (path_join (project_dir c) ".env")
                   (env_file_content c'))).
Proof.
  intros Hc.
  unfold generate_env_file, save_env_file, mbind, ST_bind, deref, setattr,
    external, log, set_heap. simpl. rewrite Hc. simpl.
  destruct (truthy_opt (gateway_token c)) eqn:Ht; simpl.
  - rewrite Hc. simpl. exists c.
    destruct (reply_unit _ _ _) as [[]|e]; simpl;
      (split; [done|]); (split; [by rewrite set_gateway_token_same|]);
      (split; [done|]); (split; [done|]); [|done].
    intros _. by rewrite last_snoc.
  - destruct (reply_str _ _ _) as [t|e]; simpl.
    + rewrite Hc. simpl. rewrite lookup_insert_eq. simpl.
      exists (set_gateway_token (Some t) c).
      destruct (reply_unit _ _ _) as [[]|e]; simpl;
        rewrite ?lookup_insert_eq;
        (split; [done|]); (split; [done|]); (split; [done|]);
        (split; [intros l Hl; by rewrite lookup_insert_ne|]); [|done].
      intros _. by rewrite last_snoc.
    + exists c. rewrite Hc.
      split; [done|]. split; [by rewrite set_gateway_token_same|]. done.
Qed.

(** X13: [generate_env_file] changes nothing of the configuration object
    but [gateway_token], and does not replace a token that is there; the
    other objects stay as they are; and when it returns, the last thing
    it did was to write, in [.env] of the project directory, what the
    object exports after that. *)
Theorem generate_env_file_keeps_token config w c :
  heap w !! config = Some c →
  ∃ c', heap (generate_env_file config w).2 !! config = Some c' ∧
        c' = set_gateway_token (gateway_token c') c ∧
        (truthy_opt (gateway_token c) = true → c' = c) ∧
        (∀ l, l ≠ config →
              heap (generate_env_file config w).2 !! l = heap w !! l) ∧
        ((generate_env_file config w).1 = Ret tt →
         last (issued (generate_env_file config w).2) =
           Some (write_file (path_join (project_dir c) ".env")
                   (env_file_content c'))).
Proof. apply generate_env_file_result. Qed.

Lemma generate_env_file_keeps_token_witness :
  ∃ c', heap (generate_env_file 0%nat
                (world_of quiet_environment example_config)).2 !! 0%nat =
          Some c' ∧
        c' = set_gateway_token (gateway_token c') example_config ∧
        (truthy_opt (gateway_token example_config) = true →
         c' = example_config) ∧
        (∀ l, l ≠ 0%nat →
              heap (generate_env_file 0%nat
                      (world_of quiet_environment example_config)).2 !! l =
              heap (world_of quiet_environment example_config) !! l) ∧
        ((generate_env_file 0%nat
            (world_of quiet_environment example_config)).1 = Ret tt →
         last (issued (generate_env_file 0%nat
                         (world_of quiet_environment example_config)).2) =
           Some (write_file (path_join (project_dir example_config) ".env")
                   (env_file_content c'))).
Proof.
  apply (generate_env_file_keeps_token 0%nat
           (world_of quiet_environment example_config) example_config).
  reflexivity.
Defined.

End generate_env_file.

(** * More of deploy.py and update.py: what a run does with its sequencer *)

(** The driver returns or is left by an exception outside [Exception]. *)
Definition no_Exception_leaves {A} (r : result A) : Prop :=
  ∀ e, r = Raise e → isinstance_Exception e = false.

(** The calls of a driver that was told not to roll back. *)
Definition disabled_calls (cs : list seq_call) : Prop :=
  head cs = Some call_disable ∧ no_execute cs = true.

(** The calls of a run that reports success. *)
Definition success_calls (r : result bool) (cs : list seq_call) : Prop :=
  r = Ret true → last cs = Some call_clear ∧ no_execute cs = true.

(** An environment in which the interpreter is asked to exit while the
    prerequisites are validated. *)
Definition exiting_environment : Environment :=
  mk_Environment ∅ "/srv/openclaw" "/home/op"
    (reply_proc quiet_environment)
    (λ n c, match c with
            | validate_and_report _ _ _ => Raise (mk_exn SystemExit "1")
            | _ => Ret tt
            end)
    (reply_bool quiet_environment)
    (reply_str quiet_environment)
    (reply_config quiet_environment).

Section driver_runs.

Lemma wp_any {A} (m : D A) (Q : result A → list seq_call → Prop) cs :
  (∀ r cs', Q r cs') → wp m Q cs.
Proof. intros H s _. apply H. Qed.

Lemma wp_execute_raise (Q : result bool → list seq_call → Prop) cs :
  (∀ r, no_Exception_leaves r → Q r (cs ++ [call_execute r])) →
  wp rollback_execute Q cs.
Proof.
  intros H s <-. apply H. intros e He. by apply (execute_raise _ _ _ He).
Qed.

(** *** No [Exception] leaves a driver once it has its configuration *)

Lemma deploy_handlers_no_Exception auto_rollback e cs :
  wp (handle (deploy.except_clauses auto_rollback) e)
    (λ r _, no_Exception_leaves r) cs.
Proof.
  unfold deploy.except_clauses, deploy.info, deploy.warning, deploy.error.
  assert (Hx : ∀ cs', wp (when auto_rollback (rollback_execute;; mret tt);;
                          mret false)
                        (λ r _, no_Exception_leaves r) cs').
  { intros cs'. destruct auto_rollback; simpl.
    - apply wp_bind, wp_bind, wp_execute_raise. intros [b|e'] Hr.
      + by apply wp_ret, wp_ret.
      + intros e'' [= <-]. by apply Hr.
    - by apply wp_bind, wp_ret, wp_ret. }
  apply wp_handle_cons. destruct (_ || _).
  { do 3 (apply wp_bind, wp_log). apply Hx. }
  apply wp_handle_cons. destruct (isinstance e KeyboardInterrupt).
  { do 3 (apply wp_bind, wp_log). apply Hx. }
  apply wp_handle_cons. destruct (isinstance_Exception e) eqn:He.
  { do 3 (apply wp_bind, wp_log). apply Hx. }
  apply wp_handle_nil. by intros e' [= <-].
Qed.

Lemma update_handlers_no_Exception auto_rollback e cs :
  wp (handle (update.except_clauses auto_rollback) e)
    (λ r _, no_Exception_leaves r) cs.
Proof.
  unfold update.except_clauses, update.info, update.warning, update.error.
  apply wp_handle_cons. destruct (_ || _) eqn:He.
  { do 3 (apply wp_bind, wp_log). apply wp_bind.
    destruct auto_rollback; simpl.
    - apply wp_bind, wp_log, wp_bind, wp_execute_raise. intros [b|e'] Hr.
      + by apply wp_ret, wp_ret.
      + intros e'' [= <-]. by apply Hr.
    - by apply wp_ret, wp_ret. }
  apply wp_handle_cons. destruct (isinstance e KeyboardInterrupt).
  { do 3 (apply wp_bind, wp_log). apply wp_bind.
    destruct auto_rollback; simpl.
    - apply wp_bind, wp_execute_raise. intros [b|e'] Hr.
      + by apply wp_ret, wp_ret.
      + intros e'' [= <-]. by apply Hr.
    - by apply wp_ret, wp_ret. }
  apply wp_handle_nil. intros e' [= <-].
  apply orb_false_iff in He. apply He.
Qed.

Lemma run_deploy_no_Exception config_file project_dir gateway_token api_key
    no_cache skip_health_check interactive auto_rollback w config w' :
  deploy.prepare config_file (default (Path_cwd (environment w)) project_dir)
    gateway_token api_key w = (Ret config, w') →
  no_Exception_leaves
    (out_result (deploy.run_deploy config_file project_dir gateway_token
                   api_key no_cache skip_health_check interactive
                   auto_rollback w)).
Proof.
  intros Hp. unfold deploy.run_deploy. rewrite Hp.
  apply (wp_with_rollback _ _ _ (λ r _, no_Exception_leaves r)).
  unfold deploy.info.
  apply wp_bind. destruct auto_rollback; simpl;
    [apply wp_ret|apply wp_disable];
    (do 4 (apply wp_bind, wp_log)); apply wp_try_except;
    (eapply wp_mono; [apply wp_any; intros; exact I|]);
    (intros [b|e] cs _; [done|apply deploy_handlers_no_Exception]).
Qed.

Lemma run_update_no_Exception config_file project_dir
    no_cache skip_health_check auto_rollback w r w' :
  update.prepare config_file (default (Path_cwd (environment w)) project_dir)
    w = (Ret r, w') →
  no_Exception_leaves
    (out_result (update.run_update config_file project_dir
                   no_cache skip_health_check auto_rollback w)).
Proof.
  intros Hp. unfold update.run_update. rewrite Hp.
  destruct r as [config|]; [|done].
  apply (wp_with_rollback _ _ _ (λ r _, no_Exception_leaves r)).
  unfold update.info.
  apply wp_bind. destruct auto_rollback; simpl;
    [apply wp_ret|apply wp_disable];
    (do 4 (apply wp_bind, wp_log)); apply wp_try_except;
    (eapply wp_mono; [apply wp_any; intros; exact I|]);
    (intros [b|e] cs _; [done|apply update_handlers_no_Exception]).
Qed.

(** X14: once [run_deploy] has its configuration object, no exception
    that is an instance of [Exception] leaves it, whatever the external
    calls do: it returns a boolean or is left by an exception outside
    [Exception]. *)
Theorem run_deploy_raises_only_outside_Exception config_file project_dir
    gateway_token api_key no_cache skip_health_check interactive
    auto_rollback w config w' e :
  deploy.prepare config_file (default (Path_cwd (environment w)) project_dir)
    gateway_token api_key w = (Ret config, w') →
  out_result (deploy.run_deploy config_file project_dir gateway_token
                api_key no_cache skip_health_check interactive
                auto_rollback w) = Raise e →
  isinstance_Exception e = false.
Proof. intros Hp. by apply (run_deploy_no_Exception _ _ _ _ _ _ _ _ _ _ _ Hp). Qed.

Lemma run_deploy_raises_only_outside_Exception_witness :
  isinstance_Exception (mk_exn SystemExit "1") = false.
Proof.
  apply (run_deploy_raises_only_outside_Exception None None None None
           false false false true
           (mk_World exiting_environment ∅ [] []) 0%nat
           (deploy.prepare None "/srv/openclaw" None None
              (mk_World exiting_environment ∅ [] [])).2).
  - vm_compute. reflexivity.
  - vm_compute. reflexivity.
Defined.

(** X15: once [run_update] has its configuration object and has looked
    for the container, no exception that is an instance of [Exception]
    leaves it, whatever the external calls do: it returns a boolean or
    is left by an exception outside [Exception]. *)
Theorem run_update_raises_only_outside_Exception config_file project_dir
    no_cache skip_health_check auto_rollback w r w' e :
  update.prepare config_file (default (Path_cwd (environment w)) project_dir)
    w = (Ret r, w') →
  out_result (update.run_update config_file project_dir
                no_cache skip_health_check auto_rollback w) = Raise e →
  isinstance_Exception e = false.
Proof. intros Hp. by apply (run_update_no_Exception _ _ _ _ _ _ _ _ Hp). Qed.

Lemma run_update_raises_only_outside_Exception_witness :
  isinstance_Exception (mk_exn SystemExit "1") = false.
Proof.
  apply (run_update_raises_only_outside_Exception None None
           false false true
           (mk_World exiting_environment ∅ [] []) (Some 0%nat)
           (update.prepare None "/srv/openclaw"
              (mk_World exiting_environment ∅ [] [])).2).
  - vm_compute. reflexivity.
  - vm_compute. reflexivity.
Defined.

(** *** A driver that was told not to roll back *)

Lemma deploy_handlers_disabled e cs :
  disabled_calls cs →
  wp (handle (deploy.except_clauses false) e) (λ _ cs', disabled_calls cs') cs.
Proof.
  intros Hcs.
  unfold deploy.except_clauses, deploy.info, deploy.warning, deploy.error.
  repeat wp_step; done.
Qed.

Lemma deploy_try_block_disabled config no_cache skip_health_check interactive :
  wp (deploy.try_block config no_cache skip_health_check interactive false)
    (λ _ cs, disabled_calls cs) [call_disable].
Proof.
  unfold deploy.try_block, deploy.success, deploy.generate_and_register,
    deploy.info, deploy.warning, deploy.error.
  repeat wp_step; by split.
Qed.

Lemma update_handlers_disabled e cs :
  disabled_calls cs →
  wp (handle (update.except_clauses false) e) (λ _ cs', disabled_calls cs') cs.
Proof.
  intros Hcs.
  unfold update.except_clauses, update.info, update.warning, update.error.
  repeat wp_step; done.
Qed.

Lemma update_try_block_disabled config no_cache skip_health_check :
  wp (update.try_block config no_cache skip_health_check false)
    (λ _ cs, disabled_calls cs) [call_disable].
Proof.
  unfold update.try_block, update.success,
    update.info, update.warning, update.error.
  repeat wp_step; by split.
Qed.

Lemma run_deploy_disabled config_file project_dir gateway_token api_key
    no_cache skip_health_check interactive w :
  let o := deploy.run_deploy config_file project_dir gateway_token api_key
             no_cache skip_health_check interactive false w in
  out_calls o = [] ∨ disabled_calls (out_calls o).
Proof.
  unfold deploy.run_deploy.
  destruct (deploy.prepare _ _ _ _ _) as [[config|e] w']; [|by left].
  right. apply (wp_with_rollback _ _ _ (λ _ cs, disabled_calls cs)).
  unfold deploy.info. simpl negb. unfold when.
  apply wp_bind, wp_disable. do 4 (apply wp_bind, wp_log).
  apply wp_try_except. eapply wp_mono; [apply deploy_try_block_disabled|].
  intros [b|e] cs; [done|]. apply deploy_handlers_disabled.
Qed.

Lemma run_update_disabled config_file project_dir no_cache
    skip_health_check w :
  let o := update.run_update config_file project_dir no_cache
             skip_health_check false w in
  out_calls o = [] ∨ disabled_calls (out_calls o).
Proof.
  unfold update.run_update.
  destruct (update.prepare _ _ _) as [[[config|]|e] w']; [|by left|by left].
  right. apply (wp_with_rollback _ _ _ (λ _ cs, disabled_calls cs)).
  unfold update.info. simpl negb. unfold when.
  apply wp_bind, wp_disable. do 4 (apply wp_bind, wp_log).
  apply wp_try_except. eapply wp_mono; [apply update_try_block_disabled|].
  intros [b|e] cs; [done|]. apply update_handlers_disabled.
Qed.

(** X16: a run of [run_deploy] or [run_update] with [auto_rollback]
    false never calls [execute] on its sequencer, however the run ends,
    and the first call it makes on the sequencer, if it makes one, is
    [disable]. *)
Theorem drivers_without_auto_rollback :
  (∀ config_file project_dir gateway_token api_key no_cache
     skip_health_check interactive w,
     let o := deploy.run_deploy config_file project_dir gateway_token
                api_key no_cache skip_health_check interactive false w in
     no_execute (out_calls o) = true ∧
     (out_calls o = [] ∨ head (out_calls o) = Some call_disable)) ∧
  (∀ config_file project_dir no_cache skip_health_check w,
     let o := update.run_update config_file project_dir no_cache
                skip_health_check false w in
     no_execute (out_calls o) = true ∧
     (out_calls o = [] ∨ head (out_calls o) = Some call_disable)).
Proof.
  split.
  - intros cf pd tok key nc shc inter w o. subst o.
    destruct (run_deploy_disabled cf pd tok key nc shc inter w)
      as [->|[? ?]]; [by split; [|left]|by split; [|right]].
  - intros cf pd nc shc w o. subst o.
    destruct (run_update_disabled cf pd nc shc w)
      as [->|[? ?]]; [by split; [|left]|by split; [|right]].
Qed.

(** *** A run that reports success *)

Lemma deploy_handlers_not_success auto_rollback e cs :
  wp (handle (deploy.except_clauses auto_rollback) e) success_calls cs.
Proof.
  unfold deploy.except_clauses, deploy.info, deploy.warning, deploy.error.
  repeat wp_step; by unfold success_calls.
Qed.

Lemma update_handlers_not_success auto_rollback e cs :
  wp (handle (update.except_clauses auto_rollback) e) success_calls cs.
Proof.
  unfold update.except_clauses, update.info, update.warning, update.error.
  repeat wp_step; by unfold success_calls.
Qed.

Lemma deploy_try_block_success config no_cache skip_health_check interactive
    auto_rollback cs :
  cs = [] ∨ cs = [call_disable] →
  wp (deploy.try_block config no_cache skip_health_check interactive
        auto_rollback)
    (λ r cs', match r with
              | Ret b => success_calls (Ret b) cs'
              | Raise _ => True
              end) cs.
Proof.
  unfold deploy.try_block, deploy.success, deploy.generate_and_register,
    deploy.info, deploy.warning, deploy.error.
  intros [->| ->]; repeat wp_step; first [done | by unfold success_calls].
Qed.

Lemma update_try_block_success config no_cache skip_health_check
    auto_rollback cs :
  cs = [] ∨ cs = [call_disable] →
  wp (update.try_block config no_cache skip_health_check auto_rollback)
    (λ r cs', match r with
              | Ret b => success_calls (Ret b) cs'
              | Raise _ => True
              end) cs.
Proof.
  unfold update.try_block, update.success,
    update.info, update.warning, update.error.
  intros [->| ->]; repeat wp_step; first [done | by unfold success_calls].
Qed.

Lemma run_deploy_success_calls config_file project_dir gateway_token api_key
    no_cache skip_health_check interactive auto_rollback w :
  let o := deploy.run_deploy config_file project_dir gateway_token api_key
             no_cache skip_health_check interactive auto_rollback w in
  success_calls (out_result o) (out_calls o).
Proof.
  unfold deploy.run_deploy.
  destruct (deploy.prepare _ _ _ _ _) as [[config|e] w']; [|done].
  apply wp_with_rollback. unfold deploy.info.
  apply wp_bind.
  destruct auto_rollback; simpl; [apply wp_ret|apply wp_disable];
    (do 4 (apply wp_bind, wp_log)); apply wp_try_except;
    (eapply wp_mono; [apply deploy_try_block_success; first [by left | by right]|]);
    (intros [b|e] cs; [done|]); intros _; apply deploy_handlers_not_success.
Qed.

Lemma run_update_success_calls config_file project_dir
    no_cache skip_health_check auto_rollback w :
  let o := update.run_update config_file project_dir
             no_cache skip_health_check auto_rollback w in
  success_calls (out_result o) (out_calls o).
Proof.
  unfold update.run_update.
  destruct (update.prepare _ _ _) as [[[config|]|e] w']; [|done|done].
  apply wp_with_rollback. unfold update.info.
  apply wp_bind.
  destruct auto_rollback; simpl; [apply wp_ret|apply wp_disable];
    (do 4 (apply wp_bind, wp_log)); apply wp_try_except;
    (eapply wp_mono; [apply update_try_block_success; first [by left | by right]|]);
    (intros [b|e] cs; [done|]); intros _; apply update_handlers_not_success.
Qed.

(** X17: a run of [run_deploy] that returns [True] has never called
    [execute], and its last call on the sequencer is [clear]: the undo
    log of a successful deployment is empty. *)
Theorem run_deploy_success_clears config_file project_dir gateway_token
    api_key no_cache skip_health_check interactive auto_rollback w :
  let o := deploy.run_deploy config_file project_dir gateway_token api_key
             no_cache skip_health_check interactive auto_rollback w in
  out_result o = Ret true →
  last (out_calls o) = Some call_clear ∧ no_execute (out_calls o) = true.
Proof. apply run_deploy_success_calls. Qed.

Lemma run_deploy_success_clears_witness :
  let o := deploy.run_deploy None None None None false false false true
             (mk_World quiet_environment ∅ [] []) in
  last (out_calls o) = Some call_clear ∧ no_execute (out_calls o) = true.
Proof.
  apply (run_deploy_success_clears None None None None false false false true
           (mk_World quiet_environment ∅ [] [])).
  vm_compute. reflexivity.
Defined.

(** X18: a run of [run_update] that returns [True] has never called
    [execute], and its last call on the sequencer is [clear]. *)
Theorem run_update_success_clears config_file project_dir
    no_cache skip_health_check auto_rollback w :
  let o := update.run_update config_file project_dir
             no_cache skip_health_check auto_rollback w in
  out_result o = Ret true →
  last (out_calls o) = Some call_clear ∧ no_execute (out_calls o) = true.
Proof. apply run_update_success_calls. Qed.

Lemma run_update_success_clears_witness :
  let o := update.run_update None None false false true
             (mk_World quiet_environment ∅ [] []) in
  last (out_calls o) = Some call_clear ∧ no_execute (out_calls o) = true.
Proof.
  apply (run_update_success_clears None None false false true
           (mk_World quiet_environment ∅ [] [])).
  vm_compute. reflexivity.
Defined.

End driver_runs.

(** * cleanup.py and the rest of rollback.py: removing a deployment *)

(** [docker_utils.remove_image] *)
Definition remove_image (image_name : string) (force : bool) : M unit :=
  log docker_utils.logger INFO ("Removing image: " +:+ image_name) ≫= λ _,
  let cmd := if force then ["docker"; "rmi"; "-f"; image_name]
             else ["docker"; "rmi"; image_name] in
  r ← docker_utils.run_command cmd None None true None false;
  if returncode r =? 0
  then log docker_utils.logger INFO ("✓ Image removed: " +:+ image_name)
  else log docker_utils.logger WARNING
         ("Could not remove image: " +:+ image_name).

(** [rollback.remove_env_file] *)
Definition remove_env_file (env_file : Path) : M unit :=
  try_except
    (b ← external reply_bool (Path_exists env_file);
     if b : bool then
       external reply_unit (Path_unlink env_file) ≫= λ _,
       log rollback.logger DEBUG ("Removed file: " +:+ env_file)
     else mret tt)
    [ (isinstance_Exception,
       λ e, log rollback.logger WARNING
              ("Error removing env file: " +:+ exn_msg e)) ].

Module cleanup.

Definition logger : string := "openclaw_deploy.cleanup".
Definition info (msg : string) : M unit := log logger INFO msg.
Definition warning (msg : string) : M unit := log logger WARNING msg.
Definition error (msg : string) : M unit := log logger ERROR msg.

(** The functions that [run_cleanup] imports under another name, its
    parameters hiding their own. *)
Definition remove_container_fn := docker_utils.remove_container.
Definition remove_image_fn := remove_image.

Definition prompt : string := "Continue with cleanup? [y/N]: ".

(** The [try] statement of [run_cleanup]. *)
Definition removal (config : loc)
    (remove_volumes remove_image remove_config : bool) : M bool :=
  try_except
    (info "Stopping services...";;
     docker_utils.stop_services config remove_volumes;;
     c ← deref config;
     info ("Removing container: " +:+ container_name c);;
     remove_container_fn (container_name c) true;;
     when remove_volumes
       (info ("Removing volume: " +:+ home_volume c);;
        docker_utils.remove_volume (home_volume c) true;;
        warning "";;
        warning "Host directories still exist:";;
        warning ("  - " +:+ openclaw_home c);;
        warning ("  - " +:+ workspace_dir c);;
        warning "";;
        warning "To remove them manually, run:";;
        warning ("  rm -rf " +:+ openclaw_home c);;
        warning ("  rm -rf " +:+ workspace_dir c);;
        warning "");;
     when remove_image
       (info ("Removing image: " +:+ image_name c);;
        remove_image_fn (image_name c) true);;
     when remove_config
       (let env_file := path_join (project_dir c) ".env" in
        b ← external reply_bool (Path_exists env_file);
        when b
          (info ("Removing config: " +:+ env_file);;
           external reply_unit (Path_unlink env_file)));;
     info "";;
     info (str_mul "=" 50);;
     info "âœ“ Cleanup completed successfully";;
     info (str_mul "=" 50);;
     info "";;
     mret true)
    [ (isinstance_Exception,
       λ e, error ("Cleanup failed: " +:+ exn_msg e);; mret false) ].

(** What [run_cleanup] does with the configuration object. *)
Definition after_load (config : loc)
    (remove_volumes remove_image remove_config interactive : bool) : M bool :=
  info (str_mul "=" 50);;
  info "OpenClaw Cleanup";;
  info (str_mul "=" 50);;
  info "";;
  c ← deref config;
  b ← docker_utils.check_container_exists (container_name c);
  if negb b then
    warning ("Container '" +:+ container_name c +:+ "' does not exist");;
    info "Nothing to clean up";;
    mret true
  else if interactive then
    warning "This will remove the OpenClaw deployment:";;
    warning ("  - Container: " +:+ container_name c);;
    when remove_volumes
      (warning ("  - Volume: " +:+ home_volume c);;
       warning ("  - Data: " +:+ openclaw_home c));;
    when remove_image (warning ("  - Image: " +:+ image_name c));;
    when remove_config
      (warning ("  - Config: " +:+ path_join (project_dir c) ".env"));;
    warning "";;
    response ← external reply_str (input prompt);
    if negb (String.eqb (lower (strip response)) "y") then
      info "Cleanup cancelled";;
      mret false
    else
      info "";;
      removal config remove_volumes remove_image remove_config
  else removal config remove_volumes remove_image remove_config.

Definition run_cleanup (config_file project_dir : option Path)
    (remove_volumes remove_image remove_config interactive : bool)
    : M bool := λ w,
  let project_dir := default (Path_cwd (environment w)) project_dir in
  (config ← load_config config_file (Some (path_join project_dir ".env"))
              (Some project_dir) None;
   after_load config remove_volumes remove_image remove_config interactive) w.

End cleanup.

(** ** The external calls of a computation

    From a world of environment [env] and heap [h], the computation [m]
    keeps both, and its result and the external calls it has added to
    the calls [pre] satisfy [Q]. *)
Definition mwp {A} (env : Environment) (h : gmap loc DeploymentConfig)
    (m : M A) (Q : result A → list ext_call → Prop) (pre : list ext_call)
    : Prop :=
  ∀ w, environment w = env → heap w = h →
    environment (m w).2 = env ∧ heap (m w).2 = h ∧
    ∃ cs, issued (m w).2 = issued w ++ cs ∧ Q (m w).1 (pre ++ cs).

(** [cmd] is [docker <sub> ...]. *)
Definition docker_subcommand (sub : string) (cmd : list string) : bool :=
  match cmd with
  | a :: b :: _ => String.eqb a "docker" && String.eqb b sub
  | _ => false
  end.

Definition ends_with (x : string) (cmd : list string) : bool :=
  match last cmd with
  | Some y => String.eqb y x
  | None => false
  end.

(** The external calls that read a configuration. *)
Definition reads_file (c : ext_call) : bool :=
  match c with
  | Path_exists _ | from_yaml _ | from_env_file _ => true
  | _ => false
  end.

(** The external calls that change nothing: looking for a file, reading
    one, listing the containers, asking the operator. *)
Definition changes_nothing (c : ext_call) : bool :=
  match c with
  | Path_exists _ | from_yaml _ | from_env_file _ | input _ => true
  | subprocess_run cmd _ _ _ _ => docker_subcommand "ps" cmd
  | _ => false
  end.

(** Text of ASCII characters only: on such text [strip] and [lower]
    are Python's [str.strip] and [str.lower]. *)
Fixpoint ascii_only (s : string) : bool :=
  match s with
  | EmptyString => true
  | String a rest => (Ascii.nat_of_ascii a <? 128)%nat && ascii_only rest
  end.

Definition is_input (c : ext_call) : bool :=
  match c with input _ => true | _ => false end.

Definition is_unlink (c : ext_call) : bool :=
  match c with Path_unlink _ => true | _ => false end.

(** The external calls that a cleanup with these options may make: the
    volumes go only with [remove_volumes] ([docker compose down -v],
    [docker volume rm]), the image only with [remove_image]
    ([docker rmi]), and a file only with [remove_config]. *)
Definition cleanup_call (remove_volumes remove_image remove_config : bool)
    (c : ext_call) : bool :=
  match c with
  | Path_exists _ | from_yaml _ | from_env_file _ | input _ => true
  | Path_unlink _ => remove_config
  | subprocess_run cmd _ _ _ _ =>
      docker_subcommand "ps" cmd || docker_subcommand "rm" cmd ||
      docker_subcommand "compose" cmd &&
        (remove_volumes || negb (ends_with "-v" cmd)) ||
      docker_subcommand "volume" cmd && remove_volumes ||
      docker_subcommand "rmi" cmd && remove_image
  | _ => false
  end.

(** The operator declines, whenever asked. *)
Definition declining_environment : Environment :=
  mk_Environment ∅ "/srv/openclaw" "/home/op"
    (reply_proc quiet_environment) (reply_unit quiet_environment)
    (reply_bool quiet_environment) (λ _ _, Ret "N ")
    (reply_config quiet_environment).


Section mwp.

Context {A B : Type} (env : Environment) (h : gmap loc DeploymentConfig).

Lemma mwp_ret (a : A) Q pre : Q (Ret a) pre → mwp env h (mret a) Q pre.
Proof.
  intros H w He Hh. split; [done|]. split; [done|].
  exists []. by rewrite !app_nil_r.
Qed.

Lemma mwp_raise e (Q : result A → list ext_call → Prop) pre :
  Q (Raise e) pre → mwp env h (raise e) Q pre.
Proof.
  intros H w He Hh. split; [done|]. split; [done|].
  exists []. by rewrite !app_nil_r.
Qed.

Lemma mwp_bind (m : M A) (k : A → M B) Q pre :
  mwp env h m (λ r pre', match r with
                         | Ret a => mwp env h (k a) Q pre'
                         | Raise e => Q (Raise e) pre'
                         end) pre →
  mwp env h (m ≫= k) Q pre.
Proof.
  intros H w He Hh. destruct (H w He Hh) as (He1 & Hh1 & cs & Hcs & HQ).
  unfold mbind, ST_bind. destruct (m w) as [[a|e] w1]; simpl in *.
  - destruct (HQ w1 He1 Hh1) as (He2 & Hh2 & cs2 & Hcs2 & HQ2).
    split; [done|]. split; [done|]. exists (cs ++ cs2).
    rewrite Hcs2, Hcs, !app_assoc. done.
  - split; [done|]. split; [done|]. by exists cs.
Qed.

Lemma mwp_external (reply : Environment → nat → ext_call → result A) c
    (Q : result A → list ext_call → Prop) pre :
  (∀ n, Q (reply env n c) (pre ++ [c])) → mwp env h (external reply c) Q pre.
Proof.
  intros H w He Hh. unfold external. simpl. split; [done|]. split; [done|].
  exists [c]. split; [done|]. rewrite He. apply H.
Qed.

Lemma mwp_try_except (body : M A) clauses Q pre :
  mwp env h body (λ r pre', match r with
                            | Ret a => Q (Ret a) pre'
                            | Raise e => mwp env h (handle clauses e) Q pre'
                            end) pre →
  mwp env h (try_except body clauses) Q pre.
Proof.
  intros H w He Hh. destruct (H w He Hh) as (He1 & Hh1 & cs & Hcs & HQ).
  unfold try_except. destruct (body w) as [[a|e] w1]; simpl in *.
  - split; [done|]. split; [done|]. by exists cs.
  - destruct (HQ w1 He1 Hh1) as (He2 & Hh2 & cs2 & Hcs2 & HQ2).
    split; [done|]. split; [done|]. exists (cs ++ cs2).
    rewrite Hcs2, Hcs, !app_assoc. done.
Qed.

Lemma mwp_handle_nil e (Q : result A → list ext_call → Prop) pre :
  Q (Raise e) pre → mwp env h (handle [] e) Q pre.
Proof. apply mwp_raise. Qed.

Lemma mwp_handle_cons e test handler clauses
    (Q : result A → list ext_call → Prop) pre :
  (if test e : bool then mwp env h (handler e) Q pre
   else mwp env h (handle clauses e) Q pre) →
  mwp env h (handle ((test, handler) :: clauses) e) Q pre.
Proof. simpl. by destruct (test e). Qed.

Lemma mwp_mono (m : M A) (Q1 Q2 : result A → list ext_call → Prop) pre :
  mwp env h m Q1 pre → (∀ r cs, Q1 r cs → Q2 r cs) → mwp env h m Q2 pre.
Proof.
  intros H HQ w He Hh. destruct (H w He Hh) as (He1 & Hh1 & cs & Hcs & HQ1).
  split; [done|]. split; [done|]. exists cs. split; [done|]. by apply HQ.
Qed.

End mwp.

Section mwp_operations.

Context (env : Environment) (h : gmap loc DeploymentConfig).

Lemma mwp_log name lvl msg (Q : result unit → list ext_call → Prop) pre :
  Q (Ret tt) pre → mwp env h (log name lvl msg) Q pre.
Proof.
  intros H w He Hh. split; [done|]. split; [done|].
  exists []. by rewrite !app_nil_r.
Qed.

Lemma mwp_deref l (Q : result DeploymentConfig → list ext_call → Prop) pre :
  match h !! l with
  | Some c => Q (Ret c) pre
  | None => ∀ e, Q (Raise e) pre
  end →
  mwp env h (deref l) Q pre.
Proof.
  intros H w He Hh. unfold deref. rewrite Hh.
  destruct (h !! l) as [c|]; simpl;
    (split; [done|]); (split; [done|]); exists []; by rewrite !app_nil_r.
Qed.

Lemma mwp_compose_env c
    (Q : result (gmap string string) → list ext_call → Prop) pre :
  (∀ e, Q (Ret e) pre) → mwp env h (docker_utils.compose_env c) Q pre.
Proof.
  intros H w He Hh. split; [done|]. split; [done|].
  exists []. unfold docker_utils.compose_env. simpl. rewrite !app_nil_r.
  split; [done|apply H].
Qed.

(** Whatever exception [run_command] raises, it has made its call. *)
Lemma mwp_run_command cmd cwd e capture_output timeout check
    (Q : result CompletedProcess → list ext_call → Prop) pre :
  (∀ r, Q r (pre ++ [subprocess_run cmd cwd e capture_output timeout])) →
  mwp env h (docker_utils.run_command cmd cwd e capture_output timeout check)
    Q pre.
Proof.
  intros H w He Hh. rewrite run_command_eq. simpl.
  split; [done|]. split; [done|]. eexists. split; [done|]. apply H.
Qed.

(** [check_container_exists] lets no instance of [Exception] out. *)
Lemma mwp_check_container_exists n
    (Q : result bool → list ext_call → Prop) pre :
  (∀ r, (∀ e, r = Raise e → isinstance_Exception e = false) →
        Q r (pre ++ [subprocess_run (ps_command n) None None true None])) →
  mwp env h (docker_utils.check_container_exists n) Q pre.
Proof.
  intros H w He Hh. rewrite check_container_exists_eq. simpl.
  split; [done|]. split; [done|]. eexists. split; [done|]. apply H.
  intros e. destruct (run_reply _ _ _ _ _ _) as [p|e']; [done|].
  destruct (isinstance_Exception e') eqn:He'; [done|]. by intros [= <-].
Qed.

End mwp_operations.

(** One step through a computation. *)
Ltac mwp_step :=
  cbv beta iota zeta;
  lazymatch goal with
  | |- mwp _ _ (mbind _ _) _ _ => apply mwp_bind
  | |- mwp _ _ (mret _) _ _ => apply mwp_ret
  | |- mwp _ _ (log _ _ _) _ _ => apply mwp_log
  | |- mwp _ _ (deref _) _ _ =>
      apply mwp_deref;
      lazymatch goal with
      | H : ?h !! ?l = Some _ |- context [?h !! ?l] => rewrite H
      end
  | |- mwp _ _ (docker_utils.compose_env _) _ _ =>
      apply mwp_compose_env; intros ?
  | |- mwp _ _ (docker_utils.run_command _ _ _ _ _ _) _ _ =>
      apply mwp_run_command; intros [?|?]
  | |- mwp _ _ (docker_utils.check_container_exists _) _ _ =>
      apply mwp_check_container_exists; intros [?|?] ?
  | |- mwp _ _ (external _ (input _)) _ _ => fail
  | |- mwp ?env _ (external ?reply ?c) _ _ =>
      apply mwp_external;
      let n := fresh "n" in
      intros n; generalize (reply env n c); intros [?|?]
  | |- mwp _ _ (try_except _ _) _ _ => apply mwp_try_except
  | |- mwp _ _ (handle [] _) _ _ => apply mwp_handle_nil
  | |- mwp _ _ (handle (_ :: _) ?e) _ _ =>
      apply mwp_handle_cons; destruct (isinstance_Exception e) eqn:?
  | |- mwp _ _ (when _ _) _ _ => unfold when
  | |- mwp _ _ (if ?b then _ else _) _ _ => destruct b eqn:?
  end.

Section cleanup_runs.

Import cleanup.

Lemma forallb_reads_file_cleanup_call rv ri rc cs :
  forallb reads_file cs = true → forallb (cleanup_call rv ri rc) cs = true.
Proof.
  induction cs as [|c cs IH]; [done|]. simpl.
  intros [Hc Hcs]%andb_true_iff. rewrite (IH Hcs), andb_true_r.
  by destruct c.
Qed.

Lemma forallb_reads_file_changes_nothing cs :
  forallb reads_file cs = true →
  forallb changes_nothing cs = true ∧ existsb is_input cs = false.
Proof.
  induction cs as [|c cs IH]; [done|]. simpl.
  intros [Hc Hcs]%andb_true_iff. destruct (IH Hcs) as [-> ->].
  by destruct c.
Qed.

Lemma load_base_calls config_file env_file w :
  environment (load_base config_file env_file w).2 = environment w ∧
  ∃ cs, issued (load_base config_file env_file w).2 = issued w ++ cs ∧
        forallb reads_file cs = true.
Proof.
  unfold load_base, opt_exists, mbind, ST_bind, external,
    DeploymentConfig_default.
  destruct config_file as [f|], env_file as [f'|]; simpl;
    repeat match goal with
           | |- context [reply_bool ?a ?b ?c] =>
               destruct (reply_bool a b c) as [[]|?]; simpl
           | |- context [reply_config ?a ?b ?c] =>
               destruct (reply_config a b c); simpl
           end;
    (split; [done|]); eexists;
    (split; [rewrite <- ?app_assoc;
             first [reflexivity | symmetry; apply app_nil_r]
            |reflexivity]).
Qed.

Lemma load_config_calls config_file env_file o_project_dir o_gateway_token w :
  let x := load_config config_file env_file o_project_dir o_gateway_token w in
  environment x.2 = environment w ∧
  (∃ cs, issued x.2 = issued w ++ cs ∧ forallb reads_file cs = true) ∧
  (∀ config, x.1 = Ret config → is_Some (heap x.2 !! config)).
Proof.
  simpl. rewrite load_config_eq.
  destruct (load_base_calls config_file env_file w) as (He & cs & Hcs & Hr).
  destruct (load_base config_file env_file w) as [[c|e] w1]; simpl in *.
  - split; [done|]. split; [by exists cs|].
    intros config [= <-]. rewrite lookup_insert_eq. by eexists.
  - split; [done|]. split; [by exists cs|]. done.
Qed.

(** What holds of every run of [after_load] holds of [run_cleanup], when
    it holds of a run in which the configuration cannot be loaded. *)
Lemma run_cleanup_mwp config_file project_dir remove_volumes remove_image
    remove_config interactive w (Q : result bool → list ext_call → Prop) :
  (∀ h config c pre,
     h !! config = Some c → forallb reads_file pre = true →
     mwp (environment w) h
       (after_load config remove_volumes remove_image remove_config
          interactive) Q pre) →
  (∀ e pre, forallb reads_file pre = true → Q (Raise e) pre) →
  let x := run_cleanup config_file project_dir remove_volumes remove_image
             remove_config interactive w in
  ∃ cs, issued x.2 = issued w ++ cs ∧ Q x.1 cs.
Proof.
  intros Hrun Hload. unfold run_cleanup, mbind, ST_bind. simpl.
  match goal with
  | |- context [load_config ?a ?b ?c ?d w] =>
      destruct (load_config_calls a b c d w) as (He & (cs & Hcs & Hr) & Hh);
      destruct (load_config a b c d w) as [[config|e] w1]
  end; simpl in *.
  - destruct (Hh config eq_refl) as [c Hc].
    destruct (Hrun _ config c cs Hc Hr w1 He eq_refl)
      as (_ & _ & cs2 & Hcs2 & HQ).
    exists (cs ++ cs2). by rewrite Hcs2, Hcs, app_assoc.
  - exists cs. split; [done|]. by apply Hload.
Qed.

(** *** What a cleanup removes *)

Ltac unfold_removal :=
  unfold removal, cleanup.info, cleanup.warning, cleanup.error,
    remove_container_fn, remove_image_fn, remove_image,
    docker_utils.stop_services, docker_utils.remove_container,
    docker_utils.remove_volume.

Ltac unfold_after_load :=
  unfold after_load, cleanup.info, cleanup.warning, cleanup.error.

Lemma removal_calls env h config c rv ri rc pre :
  h !! config = Some c →
  forallb (cleanup_call rv ri rc) pre = true →
  mwp env h (removal config rv ri rc)
    (λ _ cs, forallb (cleanup_call rv ri rc) cs = true) pre.
Proof.
  intros Hc Hpre. unfold_removal.
  destruct rv, ri, rc; repeat mwp_step;
    rewrite ?forallb_app, ?Hpre; reflexivity.
Qed.

Lemma after_load_calls env h config c rv ri rc interactive pre :
  h !! config = Some c →
  forallb reads_file pre = true →
  mwp env h (after_load config rv ri rc interactive)
    (λ _ cs, forallb (cleanup_call rv ri rc) cs = true) pre.
Proof.
  intros Hc Hpre%(forallb_reads_file_cleanup_call rv ri rc).
  unfold_after_load.
  repeat mwp_step;
    try (rewrite ?forallb_app, ?Hpre; reflexivity);
    try (apply mwp_external; intros n;
         destruct (reply_str _ _ _) as [s|e];
         [|rewrite ?forallb_app, ?Hpre; reflexivity];
         repeat mwp_step;
         try (rewrite ?forallb_app, ?Hpre; reflexivity));
    (eapply removal_calls; [eassumption|]);
    rewrite ?forallb_app, ?Hpre; reflexivity.
Qed.

(** X19: whatever the external calls answer, [run_cleanup] removes only
    what it was asked to: beyond looking for and reading the
    configuration, asking the operator, and the [docker ps], [docker rm]
    and [docker compose] commands, it removes the volumes ([down -v],
    [docker volume rm]) only with [remove_volumes], the image
    ([docker rmi]) only with [remove_image], and a file only with
    [remove_config]. *)
Theorem run_cleanup_removes_what_is_asked config_file project_dir
    remove_volumes remove_image remove_config interactive w :
  let x := run_cleanup config_file project_dir remove_volumes remove_image
             remove_config interactive w in
  ∃ cs, issued x.2 = issued w ++ cs ∧
        forallb (cleanup_call remove_volumes remove_image remove_config) cs
          = true.
Proof.
  apply (run_cleanup_mwp _ _ _ _ _ _ _
           (λ _ cs, forallb (cleanup_call remove_volumes remove_image
                               remove_config) cs = true)).
  - intros. by eapply after_load_calls.
  - intros. by apply forallb_reads_file_cleanup_call.
Qed.

(** *** A cleanup that the operator declines *)

Lemma after_load_declined env h config c rv ri rc s pre :
  h !! config = Some c →
  forallb reads_file pre = true →
  (∀ n, reply_str env n (input prompt) = Ret s) →
  lower (strip s) ≠ "y" →
  mwp env h (after_load config rv ri rc true)
    (λ r cs, forallb changes_nothing cs = true ∧
             (existsb is_input cs = true → r = Ret false)) pre.
Proof.
  intros Hc [Hpre Hin]%forallb_reads_file_changes_nothing Hs Hne.
  apply String.eqb_neq in Hne.
  unfold_after_load.
  repeat mwp_step;
    try (rewrite ?forallb_app, ?existsb_app, ?Hpre, ?Hin; by split);
    apply mwp_external; intros n; rewrite Hs, Hne; simpl;
    repeat mwp_step;
    rewrite ?forallb_app, ?existsb_app, ?Hpre, ?Hin; by split.
Qed.

(** X20: when the operator's answer to the prompt of an interactive
    [run_cleanup] is ASCII text other than [y] (in any case, spaces
    around it aside), nothing is stopped or removed: the external calls
    of the run only look for and read the configuration, list the
    containers and ask; and a run that has asked returns [False]. *)
Theorem run_cleanup_declined config_file project_dir remove_volumes
    remove_image remove_config w s :
  (∀ n, reply_str (environment w) n (input prompt) = Ret s) →
  ascii_only s = true →
  lower (strip s) ≠ "y" →
  let x := run_cleanup config_file project_dir remove_volumes remove_image
             remove_config true w in
  ∃ cs, issued x.2 = issued w ++ cs ∧
        forallb changes_nothing cs = true ∧
        (existsb is_input cs = true → x.1 = Ret false).
Proof.
  intros Hs _ Hne.
  apply (run_cleanup_mwp _ _ _ _ _ _ _
           (λ r cs, forallb changes_nothing cs = true ∧
                    (existsb is_input cs = true → r = Ret false))).
  - intros. by eapply after_load_declined.
  - intros e pre [-> ->]%forallb_reads_file_changes_nothing. by split.
Qed.

Lemma run_cleanup_declined_witness :
  let x := run_cleanup None None true true true true
             (mk_World declining_environment ∅ [] []) in
  ∃ cs, issued x.2 = issued (mk_World declining_environment ∅ [] []) ++ cs ∧
        forallb changes_nothing cs = true ∧
        (existsb is_input cs = true → x.1 = Ret false).
Proof.
  apply (run_cleanup_declined None None true true true
           (mk_World declining_environment ∅ [] []) "N ").
  - intros n. reflexivity.
  - reflexivity.
  - vm_compute. discriminate.
Defined.

(** The calls of that run. *)
Example run_cleanup_declined_run :
  let x := run_cleanup None None true true true true
             (mk_World declining_environment ∅ [] []) in
  x.1 = Ret false ∧
  issued x.2 = [Path_exists "/srv/openclaw/.env";
                from_env_file "/srv/openclaw/.env";
                subprocess_run (ps_command "openclaw-gateway")
                  None None true None;
                input prompt].
Proof. vm_compute. done. Qed.

(** *** The exceptions that leave a cleanup *)





(** *** Removing the [.env] file *)

(** X22: [remove_env_file] lets no instance of [Exception] out, and it
    asks for the file to be removed exactly when the file is reported
    to exist. *)
Theorem remove_env_file_guarded env_file w :
  (∀ e, (remove_env_file env_file w).1 = Raise e →
        isinstance_Exception e = false) ∧
  issued (remove_env_file env_file w).2 =
    issued w ++ Path_exists env_file ::
      match reply_bool (environment w) (length (issued w))
              (Path_exists env_file) with
      | Ret true => [Path_unlink env_file]
      | _ => []
      end.
Proof.
  unfold remove_env_file, try_except, mbind, ST_bind, external, log. simpl.
  destruct (reply_bool _ _ _) as [[]|e]; simpl.
  - destruct (reply_unit _ _ _) as [[]|e]; simpl.
    + split; [done|]. by rewrite <- app_assoc.
    + destruct (isinstance_Exception e) eqn:He; simpl;
        (split; [|by rewrite <- app_assoc]); [done|by intros ? [= <-]].
  - by split.
  - destruct (isinstance_Exception e) eqn:He; simpl;
      (split; [|done]); [done|by intros ? [= <-]].
Qed.

End cleanup_runs.

(** * validators.py: the checks that use the file system and [docker] *)

Module validators.

Definition logger : string := "openclaw_deploy.validators".

(** [subprocess.run(cmd, capture_output=True, text=True, timeout=t)] *)
Definition run (cmd : list string) (timeout : Z) : M CompletedProcess :=
  external reply_proc (subprocess_run cmd None None true (Some timeout)).

Definition check_docker_compose : M (bool * string) :=
  try_except
    (result ← run ["docker"; "compose"; "version"] 5;
     if returncode result =? 0
     then mret (true, "Docker Compose found: " +:+ strip (stdout result))
     else mret (false, "Docker Compose V2 not available. Update Docker or install compose plugin."))
    [ (isinstance_Exception,
       λ e, mret (false, "Error checking Docker Compose: " +:+ exn_msg e)) ].

Definition check_docker_running : M (bool * string) :=
  try_except
    (result ← run ["docker"; "info"] 10;
     if returncode result =? 0
     then mret (true, "Docker daemon is running")
     else mret (false, "Docker daemon is not running. Start Docker and try again."))
    [ (λ e, isinstance e TimeoutExpired,
       λ _, mret (false, "Docker daemon check timed out"));
      (isinstance_Exception,
       λ e, mret (false, "Error checking Docker daemon: " +:+ exn_msg e)) ].

Definition check_docker_permissions : M (bool * string) :=
  try_except
    (result ← run ["docker"; "ps"] 10;
     if returncode result =? 0
     then mret (true, "Docker permissions OK")
     else if str_in "permission denied" (lower (stderr result))
     then mret (false, "Permission denied. Add user to docker group or run with sudo.")
     else mret (false, "Docker permissions check failed: " +:+ stderr result))
    [ (isinstance_Exception,
       λ e, mret (false, "Error checking Docker permissions: " +:+ exn_msg e)) ].

Definition required_files : list string :=
  ["Dockerfile"; "docker-compose.yml"; ".env.example"].

(** The loop of [check_required_files]. *)
Fixpoint missing_among (project_dir : Path) (files missing_files : list string)
    : M (list string) :=
  match files with
  | [] => mret missing_files
  | file :: rest =>
      b ← external reply_bool (Path_exists (path_join project_dir file));
      missing_among project_dir rest
        (if negb b then missing_files ++ [file] else missing_files)
  end.

Definition check_required_files (project_dir : Path) : M (bool * string) :=
  missing_files ← missing_among project_dir required_files [];
  match missing_files with
  | _ :: _ =>
      mret (false, "Missing required files: " +:+
                   String.concat ", " missing_files)
  | [] => mret (true, "All required files present")
  end.

(** A line of the list that [validate_all_prerequisites] returns. *)
Definition check : Type := string * bool * string.

Definition passed (c : check) : bool := c.1.2.

(** The line that [validate_and_report] logs for a check. *)
Definition report_line (c : check) : LogRecord :=
  let '(check_name, success, message) := c in
  if success
  then mk_LogRecord logger INFO ("✓ " +:+ check_name +:+ ": " +:+ message)
  else mk_LogRecord logger ERROR ("✗ " +:+ check_name +:+ ": " +:+ message).

(** The loop of [validate_and_report]. *)
Fixpoint report (checks : list check) (all_passed : bool) : M bool :=
  match checks with
  | [] => mret all_passed
  | (check_name, success, message) :: rest =>
      if success then
        log logger INFO ("✓ " +:+ check_name +:+ ": " +:+ message) ≫= λ _,
        report rest all_passed
      else
        log logger ERROR ("✗ " +:+ check_name +:+ ": " +:+ message) ≫= λ _,
        report rest false
  end.

Section validate_and_report.

(** [validate_all_prerequisites], whose checks look at the search path,
    a socket and the disk, is taken as given. *)
Context {float : Type}.
Variable validate_all_prerequisites : Z → Path → float → M (list check).

Definition validate_and_report (port : Z) (project_dir : Path)
    (required_disk_gb : float) (strict : bool) : M bool :=
  log logger INFO "Validating prerequisites..." ≫= λ _,
  checks ← validate_all_prerequisites port project_dir required_disk_gb;
  all_passed ← report checks true;
  if negb all_passed && strict
  then raise (mk_exn ValidationError
                "Prerequisites validation failed. Fix the issues above and try again.")
  else mret all_passed.

End validate_and_report.

End validators.

(** What a check of [docker] does: one command, success exactly when it
    ran and left with status 0, and no instance of [Exception] out. *)
Definition docker_check (check : M (bool * string)) (cmd : list string)
    (timeout : Z) : Prop :=
  ∀ w,
    let call := subprocess_run cmd None None true (Some timeout) in
    issued (check w).2 = issued w ++ [call] ∧
    (∀ e, (check w).1 = Raise e → isinstance_Exception e = false) ∧
    (∀ ok msg, (check w).1 = Ret (ok, msg) →
       ok = true ↔
       ∃ r, reply_proc (environment w) (length (issued w)) call = Ret r ∧
            returncode r = 0).

(** A file system that does not change: [present] tells the files of
    the project directory that exist. *)
Definition files_present (env : Environment) (project_dir : Path)
    (present : string → bool) : Prop :=
  ∀ n file, reply_bool env n (Path_exists (path_join project_dir file)) =
            Ret (present file).

Definition absent (present : string → bool) (files : list string)
    : list string :=
  List.filter (λ file, negb (present file)) files.

(** Only the Dockerfile is there. *)
Definition bare_environment : Environment :=
  mk_Environment ∅ "/srv/openclaw" "/home/op"
    (reply_proc quiet_environment) (reply_unit quiet_environment)
    (λ _ c, match c with
            | Path_exists p => Ret (String.eqb p "/srv/openclaw/Dockerfile")
            | _ => Ret true
            end)
    (reply_str quiet_environment) (reply_config quiet_environment).

Section validators_checks.

Lemma docker_check_intro (check : M (bool * string)) cmd timeout :
  (∀ w, ∃ r' : result (bool * string),
     check w =
       (r', mk_World (environment w) (heap w)
              (issued w ++ [subprocess_run cmd None None true (Some timeout)])
              (logs w)) ∧
     match reply_proc (environment w) (length (issued w))
             (subprocess_run cmd None None true (Some timeout)) with
     | Ret r => ∃ msg, r' = Ret (bool_decide (returncode r = 0), msg)
     | Raise e => if isinstance_Exception e
                  then ∃ msg, r' = Ret (false, msg)
                  else r' = Raise e
     end) →
  docker_check check cmd timeout.
Proof.
  intros H w. destruct (H w) as (r' & -> & Hr). simpl.
  split; [done|].
  destruct (reply_proc _ _ _) as [r|e].
  - destruct Hr as [msg ->]. split; [done|].
    intros ok msg' [= <- <-]. rewrite bool_decide_eq_true.
    split; [intros Hz; by exists r|]. by intros (r0 & [= <-] & Hz).
  - destruct (isinstance_Exception e) eqn:He.
    + destruct Hr as [msg ->]. split; [done|].
      intros ok msg' [= <- <-]. split; [done|]. by intros (r0 & [=] & _).
    + subst r'. split; [by intros ? [= <-]|]. done.
Qed.

Lemma eqb_0_bool_decide z : (z =? 0) = bool_decide (z = 0).
Proof.
  destruct (Z.eqb_spec z 0) as [->|Hz]; [done|].
  by rewrite bool_decide_eq_false_2.
Qed.

Lemma check_docker_compose_ok :
  docker_check validators.check_docker_compose ["docker"; "compose"; "version"] 5.
Proof.
  apply docker_check_intro. intros w.
  unfold validators.check_docker_compose, validators.run, try_except,
    mbind, ST_bind, external. simpl.
  destruct (reply_proc _ _ _) as [r|e]; simpl.
  - rewrite eqb_0_bool_decide.
    destruct (bool_decide _); eexists; (split; [done|]); by eexists.
  - destruct (isinstance_Exception e);
      eexists; (split; [done|]); [by eexists|done].
Qed.

Lemma check_docker_running_ok :
  docker_check validators.check_docker_running ["docker"; "info"] 10.
Proof.
  apply docker_check_intro. intros w.
  unfold validators.check_docker_running, validators.run, try_except,
    mbind, ST_bind, external. simpl.
  destruct (reply_proc _ _ _) as [r|e]; simpl.
  - rewrite eqb_0_bool_decide.
    destruct (bool_decide _); eexists; (split; [done|]); by eexists.
  - destruct (isinstance e TimeoutExpired) eqn:Ht.
    + unfold isinstance in Ht. apply bool_decide_eq_true in Ht.
      unfold isinstance_Exception. rewrite Ht.
      eexists; (split; [done|]); by eexists.
    + destruct (isinstance_Exception e);
        eexists; (split; [done|]); [by eexists|done].
Qed.

Lemma check_docker_permissions_ok :
  docker_check validators.check_docker_permissions ["docker"; "ps"] 10.
Proof.
  apply docker_check_intro. intros w.
  unfold validators.check_docker_permissions, validators.run, try_except,
    mbind, ST_bind, external. simpl.
  destruct (reply_proc _ _ _) as [r|e]; simpl.
  - rewrite eqb_0_bool_decide.
    destruct (bool_decide _); [|destruct (str_in _ _)];
      eexists; (split; [done|]); by eexists.
  - destruct (isinstance_Exception e);
      eexists; (split; [done|]); [by eexists|done].
Qed.

(** X23: each of [check_docker_compose], [check_docker_running] and
    [check_docker_permissions] runs its one command, reports success
    exactly when the command ran and left with status 0, and lets no
    instance of [Exception] out: a command that cannot be run or times
    out is a failed check. *)
Theorem docker_checks :
  docker_check validators.check_docker_compose
    ["docker"; "compose"; "version"] 5 ∧
  docker_check validators.check_docker_running ["docker"; "info"] 10 ∧
  docker_check validators.check_docker_permissions ["docker"; "ps"] 10.
Proof.
  split; [apply check_docker_compose_ok|].
  split; [apply check_docker_running_ok|apply check_docker_permissions_ok].
Qed.

Lemma missing_among_present project_dir present files missing_files w :
  files_present (environment w) project_dir present →
  validators.missing_among project_dir files missing_files w =
  (Ret (missing_files ++ absent present files),
   mk_World (environment w) (heap w)
     (issued w ++ map (λ file, Path_exists (path_join project_dir file)) files)
     (logs w)).
Proof.
  intros Hp. revert missing_files w Hp.
  induction files as [|file rest IH]; intros missing_files w Hp; simpl.
  - unfold absent. simpl. rewrite !app_nil_r. by destruct w.
  - unfold mbind, ST_bind, external. rewrite Hp. simpl.
    rewrite IH by exact Hp. simpl. rewrite <- app_assoc. simpl.
    unfold absent. simpl.
    destruct (present file); simpl; [done|]. by rewrite <- app_assoc.
Qed.

Lemma check_required_files_present project_dir present w :
  files_present (environment w) project_dir present →
  (validators.check_required_files project_dir w).1 =
    Ret (if forallb present validators.required_files
         then (true, "All required files present")
         else (false, "Missing required files: " +:+
                      String.concat ", "
                        (absent present validators.required_files))) ∧
  issued (validators.check_required_files project_dir w).2 =
    issued w ++ map (λ file, Path_exists (path_join project_dir file))
                  validators.required_files.
Proof.
  intros Hp. unfold validators.check_required_files, mbind, ST_bind.
  rewrite (missing_among_present _ present) by exact Hp.
  unfold absent, validators.required_files. simpl.
  by destruct (present "Dockerfile"), (present "docker-compose.yml"),
    (present ".env.example").
Qed.

(** X24: over a file system that does not change, [check_required_files]
    looks for each of the three required files, also after one is found
    missing; it succeeds exactly when all three exist, and else its
    message names the missing ones, in the order of the list. *)
Theorem check_required_files_missing project_dir present w :
  files_present (environment w) project_dir present →
  (validators.check_required_files project_dir w).1 =
    Ret (if forallb present validators.required_files
         then (true, "All required files present")
         else (false, "Missing required files: " +:+
                      String.concat ", "
                        (absent present validators.required_files))) ∧
  issued (validators.check_required_files project_dir w).2 =
    issued w ++ map (λ file, Path_exists (path_join project_dir file))
                  validators.required_files.
Proof. apply check_required_files_present. Qed.

Lemma check_required_files_missing_witness :
  (validators.check_required_files "/srv/openclaw"
     (mk_World bare_environment ∅ [] [])).1 =
    Ret (false, "Missing required files: docker-compose.yml, .env.example") ∧
  issued (validators.check_required_files "/srv/openclaw"
            (mk_World bare_environment ∅ [] [])).2 =
    [Path_exists "/srv/openclaw/Dockerfile";
     Path_exists "/srv/openclaw/docker-compose.yml";
     Path_exists "/srv/openclaw/.env.example"].
Proof.
  apply (check_required_files_missing "/srv/openclaw"
           (λ file, String.eqb file "Dockerfile")
           (mk_World bare_environment ∅ [] [])).
  intros n file. reflexivity.
Defined.

Lemma report_eq checks all_passed w :
  validators.report checks all_passed w =
  (Ret (all_passed && forallb validators.passed checks),
   mk_World (environment w) (heap w) (issued w)
     (logs w ++ map validators.report_line checks)).
Proof.
  revert all_passed w.
  induction checks as [|[[check_name success] message] rest IH];
    intros all_passed w; simpl.
  - rewrite andb_true_r, app_nil_r. by destruct w.
  - destruct success; unfold mbind, ST_bind, log; simpl;
      rewrite IH; simpl; rewrite <- app_assoc; simpl; [done|].
    by rewrite andb_false_r.
Qed.

Lemma validate_and_report_eq {float : Type}
    (prerequisites : Z → Path → float → M (list validators.check))
    port project_dir required_disk_gb strict w checks w1 :
  prerequisites port project_dir required_disk_gb
    (log validators.logger INFO "Validating prerequisites..." w).2 =
    (Ret checks, w1) →
  let x := validators.validate_and_report prerequisites port project_dir
             required_disk_gb strict w in
  x.1 = (if strict && negb (forallb validators.passed checks)
         then Raise (mk_exn ValidationError
                       "Prerequisites validation failed. Fix the issues above and try again.")
         else Ret (forallb validators.passed checks)) ∧
  logs x.2 = logs w1 ++ map validators.report_line checks ∧
  unlogged x.2 = unlogged w1.
Proof.
  intros Hc. unfold validators.validate_and_report, mbind, ST_bind.
  simpl in *. rewrite Hc, report_eq. simpl.
  destruct (forallb validators.passed checks), strict; by simpl.
Qed.

(** X25: whatever checks [validate_all_prerequisites] returns,
    [validate_and_report] logs one line for each of them, in their
    order and also after one has failed, and does nothing else; it
    raises [ValidationError] exactly when it is strict and some check has
    failed, and else returns whether all of them passed. *)
Theorem validate_and_report_strict {float : Type}
    (prerequisites : Z → Path → float → M (list validators.check))
    port project_dir required_disk_gb strict w checks w1 :
  prerequisites port project_dir required_disk_gb
    (log validators.logger INFO "Validating prerequisites..." w).2 =
    (Ret checks, w1) →
  let x := validators.validate_and_report prerequisites port project_dir
             required_disk_gb strict w in
  x.1 = (if strict && negb (forallb validators.passed checks)
         then Raise (mk_exn ValidationError
                       "Prerequisites validation failed. Fix the issues above and try again.")
         else Ret (forallb validators.passed checks)) ∧
  logs x.2 = logs w1 ++ map validators.report_line checks ∧
  unlogged x.2 = unlogged w1.
Proof. apply validate_and_report_eq. Qed.

Lemma validate_and_report_strict_witness :
  let checks := [("Docker Compose", true, "Docker Compose found: v2");
                 ("Port Available", false, "Port 18789 is already in use");
                 ("Required Files", true, "All required files present")] in
  let w := mk_World quiet_environment ∅ [] [] in
  let x := validators.validate_and_report (λ _ _ (_ : Z), mret checks)
             18789 "/srv/openclaw" 5 true w in
  x.1 = Raise (mk_exn ValidationError
                 "Prerequisites validation failed. Fix the issues above and try again.") ∧
  logs x.2 =
    logs (log validators.logger INFO "Validating prerequisites..." w).2 ++
    map validators.report_line checks ∧
  unlogged x.2 =
    unlogged (log validators.logger INFO "Validating prerequisites..." w).2.
Proof.
  exact (validate_and_report_strict
           (λ _ _ (_ : Z),
              mret [("Docker Compose", true, "Docker Compose found: v2");
                    ("Port Available", false, "Port 18789 is already in use");
                    ("Required Files", true, "All required files present")])
           18789 "/srv/openclaw" 5 true
           (mk_World quiet_environment ∅ [] [])
           [("Docker Compose", true, "Docker Compose found: v2");
            ("Port Available", false, "Port 18789 is already in use");
            ("Required Files", true, "All required files present")]
           (log validators.logger INFO "Validating prerequisites..."
              (mk_World quiet_environment ∅ [] [])).2
           eq_refl).
Defined.

End validators_checks.

(** * status.py and the rest of the container checks of docker_utils.py *)

Definition upper_ascii (a : Ascii.ascii) : Ascii.ascii :=
  let n := Ascii.nat_of_ascii a in
  if ((97 <=? n) && (n <=? 122))%nat then Ascii.ascii_of_nat (n - 32) else a.

Fixpoint upper (s : string) : string :=
  match s with
  | String a rest => String (upper_ascii a) (upper rest)
  | EmptyString => EmptyString
  end.

(** [f"{x}"] for an [Optional[str]] *)
Definition fmt_opt (x : option string) : string := default "None" x.

(** The [docker ps] command of [check_container_running]. *)
Definition ps_running_command (container_name : string) : list string :=
  ["docker"; "ps"; "--filter"; "name=" +:+ container_name;
   "--format"; "{{.Names}}"].

(** The [docker inspect] command of the two functions below. *)
Definition inspect_command (format container_name : string) : list string :=
  ["docker"; "inspect"; "--format"; format; container_name].

Definition check_container_running (container_name : string) : M bool :=
  try_except
    (r ← docker_utils.run_command (ps_running_command container_name)
           None None true None false;
     mret (str_in container_name (stdout r)))
    [ (isinstance_Exception, λ _, mret false) ].

Definition get_container_status (container_name : string)
    : M (option string) :=
  try_except
    (r ← docker_utils.run_command
           (inspect_command "{{.State.Status}}" container_name)
           None None true None false;
     if returncode r =? 0 then mret (Some (strip (stdout r))) else mret None)
    [ (isinstance_Exception, λ _, mret None) ].

Definition get_container_health (container_name : string)
    : M (option string) :=
  try_except
    (r ← docker_utils.run_command
           (inspect_command "{{.State.Health.Status}}" container_name)
           None None true None false;
     if returncode r =? 0 then
       let health := strip (stdout r) in
       mret (if truthy health && negb (String.eqb health "<no value>")
             then Some health else None)
     else mret None)
    [ (isinstance_Exception, λ _, mret None) ].

(** The dictionary that [get_deployment_info] returns, by its keys; the
    key [gateway_url_with_token] is there when its field is. *)
Record DeploymentInfo := mk_DeploymentInfo {
  container_exists : bool;
  container_running : bool;
  container_status : option string;
  container_health : option string;
  gateway_url : string;
  gateway_url_with_token : option string
}.

Definition get_deployment_info (config : loc) : M DeploymentInfo :=
  c ← deref config;
  e ← docker_utils.check_container_exists (container_name c);
  r ← check_container_running (container_name c);
  s ← get_container_status (container_name c);
  h ← get_container_health (container_name c);
  mret (mk_DeploymentInfo e r s h
          ("http://localhost:" +:+ pretty (gateway_port c))
          (if truthy_opt (gateway_token c)
           then Some ("http://localhost:" +:+ pretty (gateway_port c) +:+
                      "?token=" +:+ default "" (gateway_token c))
           else None)).

Module status.

Definition logger : string := "openclaw_deploy.status".
Definition info (msg : string) : M unit := log logger INFO msg.
Definition warning (msg : string) : M unit := log logger WARNING msg.
Definition error (msg : string) : M unit := log logger ERROR msg.

(** ['✓ Yes' if b else '✗ No'] *)
Definition yes_no (b : bool) : string := if b then "✓ Yes" else "✗ No".

(** What [run_status] does with the configuration object. *)
Definition after_load (config : loc) (verbose : bool) : M bool :=
  info (str_mul "=" 50);;
  info "OpenClaw Deployment Status";;
  info (str_mul "=" 50);;
  info "";;
  i ← get_deployment_info config;
  c ← deref config;
  info ("Container Name:    " +:+ container_name c);;
  info ("Container Exists:  " +:+ yes_no (container_exists i));;
  (if container_exists i then
     let status := container_status i in
     let running := container_running i in
     let health := container_health i in
     info ("Container Running: " +:+ yes_no running);;
     info ("Container Status:  " +:+ fmt_opt status);;
     (if truthy_opt health then
        if String.eqb (default "" health) "healthy"
        then info ("Health Check:      ✓ " +:+ upper (default "" health))
        else if String.eqb (default "" health) "unhealthy"
        then error ("Health Check:      ✗ " +:+ upper (default "" health))
        else warning ("Health Check:      " +:+ default "" health)
      else info "Health Check:      N/A");;
     info "";;
     info ("Gateway URL:       " +:+ gateway_url i);;
     when (bool_decide (is_Some (gateway_url_with_token i)))
       (info ("Access URL:        " +:+
              default "" (gateway_url_with_token i)));;
     when verbose
       (info "";;
        info "Configuration:";;
        info ("  Project Dir:     " +:+ project_dir c);;
        info ("  OpenClaw Home:   " +:+ openclaw_home c);;
        info ("  Workspace:       " +:+ workspace_dir c);;
        info ("  Image:           " +:+ image_name c);;
        info ("  Gateway Port:    " +:+ pretty (gateway_port c));;
        info ("  Gateway Bind:    " +:+ gateway_bind c);;
        info "";;
        info "API Keys Configured:";;
        info ("  Anthropic:       " +:+
              yes_no (truthy_opt (anthropic_api_key c)));;
        info ("  OpenAI:          " +:+
              yes_no (truthy_opt (openai_api_key c)));;
        info ("  Google AI:       " +:+
              yes_no (truthy_opt (google_ai_api_key c)));;
        info ("  Ollama URL:      " +:+
              yes_no (truthy_opt (ollama_base_url c))))
   else
     warning "Container does not exist. Run 'openclaw-deploy deploy' to create it.");;
  info "";;
  let is_healthy :=
    container_exists i && container_running i &&
    (bool_decide (container_health i = Some "healthy") ||
     bool_decide (container_health i = None)) in
  (if is_healthy then info "Status: ✓ HEALTHY"
   else warning "Status: ⚠ NOT HEALTHY");;
  info "";;
  mret is_healthy.

Definition run_status (config_file project_dir : option Path)
    (verbose : bool) : M bool := λ w,
  let project_dir := default (Path_cwd (environment w)) project_dir in
  (config ← load_config config_file (Some (path_join project_dir ".env"))
              (Some project_dir) None;
   after_load config verbose) w.

End status.

(** The external calls that look at the deployment and change nothing
    of it. *)
Definition observes (c : ext_call) : bool :=
  match c with
  | Path_exists _ | from_yaml _ | from_env_file _ => true
  | subprocess_run cmd _ _ _ _ =>
      docker_subcommand "ps" cmd || docker_subcommand "inspect" cmd
  | _ => false
  end.

(** The health that [docker inspect] tells, as [get_container_health]
    reads it. *)
Definition health_of (r : result CompletedProcess) : result (option string) :=
  match r with
  | Ret p =>
      Ret (if (returncode p =? 0) && truthy (strip (stdout p)) &&
              negb (String.eqb (strip (stdout p)) "<no value>")
           then Some (strip (stdout p)) else None)
  | Raise e => if isinstance_Exception e then Ret None else Raise e
  end.

Definition status_of (r : result CompletedProcess) : result (option string) :=
  match r with
  | Ret p => Ret (if returncode p =? 0 then Some (strip (stdout p)) else None)
  | Raise e => if isinstance_Exception e then Ret None else Raise e
  end.

Definition running_of (n : string) (r : result CompletedProcess)
    : result bool :=
  match r with
  | Ret p => Ret (str_in n (stdout p))
  | Raise e => if isinstance_Exception e then Ret false else Raise e
  end.

(** [docker inspect] is not there. *)
Definition no_inspect_environment : Environment :=
  mk_Environment ∅ "/srv/openclaw" "/home/op"
    (λ _ c, match c with
            | subprocess_run ("docker" :: "inspect" :: _) _ _ _ _ =>
                Raise (mk_exn OSError "No such file or directory")
            | _ => Ret (mk_CompletedProcess 0 "openclaw-gateway" "")
            end)
    (reply_unit quiet_environment) (reply_bool quiet_environment)
    (reply_str quiet_environment) (reply_config quiet_environment).

Section status.

Import docker_utils.

Lemma guarded_run_command_eq {A} (body : CompletedProcess → M A)
    (f : CompletedProcess → A) (a : A) cmd w :
  (∀ p w', body p w' = (Ret (f p), w')) →
  try_except (r ← run_command cmd None None true None false; body r)
    [ (isinstance_Exception, λ _, mret a) ] w =
  (match run_reply cmd None None true None w with
   | Ret p => Ret (f p)
   | Raise e => if isinstance_Exception e then Ret a else Raise e
   end,
   after_run_command cmd None None true None w).
Proof.
  intros Hbody. unfold try_except, mbind, ST_bind.
  rewrite run_command_eq.
  destruct (run_reply _ _ _ _ _ _) as [p|e]; simpl.
  - by rewrite Hbody.
  - destruct (isinstance e TimeoutExpired) eqn:Ht; simpl.
    + unfold isinstance in Ht. apply bool_decide_eq_true in Ht.
      unfold isinstance_Exception. rewrite Ht. reflexivity.
    + destruct (isinstance_Exception e) eqn:He; simpl; rewrite ?He;
        reflexivity.
Qed.

Lemma check_container_running_eq n w :
  check_container_running n w =
  (running_of n (run_reply (ps_running_command n) None None true None w),
   after_run_command (ps_running_command n) None None true None w).
Proof.
  unfold check_container_running.
  by rewrite (guarded_run_command_eq _ (λ p, str_in n (stdout p))).
Qed.

Lemma get_container_status_eq n w :
  get_container_status n w =
  (status_of (run_reply (inspect_command "{{.State.Status}}" n)
                None None true None w),
   after_run_command (inspect_command "{{.State.Status}}" n)
     None None true None w).
Proof.
  unfold get_container_status.
  rewrite (guarded_run_command_eq _
             (λ p, if returncode p =? 0 then Some (strip (stdout p))
                   else None)); [done|].
  intros p w'. by destruct (returncode p =? 0).
Qed.

Lemma get_container_health_eq n w :
  get_container_health n w =
  (health_of (run_reply (inspect_command "{{.State.Health.Status}}" n)
                None None true None w),
   after_run_command (inspect_command "{{.State.Health.Status}}" n)
     None None true None w).
Proof.
  unfold get_container_health.
  rewrite (guarded_run_command_eq _
             (λ p, if (returncode p =? 0) && truthy (strip (stdout p)) &&
                      negb (String.eqb (strip (stdout p)) "<no value>")
                   then Some (strip (stdout p)) else None)); [done|].
  intros p w'. by destruct (returncode p =? 0).
Qed.

Lemma get_container_health_value n w :
  (∀ e, (get_container_health n w).1 = Raise e →
        isinstance_Exception e = false) ∧
  (∀ health, (get_container_health n w).1 = Ret (Some health) →
     health ≠ "" ∧ health ≠ "<no value>" ∧
     ∃ p, run_reply (inspect_command "{{.State.Health.Status}}" n)
            None None true None w = Ret p ∧
          returncode p = 0 ∧ health = strip (stdout p)) ∧
  ((get_container_health n w).1 = Ret None ∨
   (∃ health, (get_container_health n w).1 = Ret (Some health)) ∨
   ∃ e, run_reply (inspect_command "{{.State.Health.Status}}" n)
          None None true None w = Raise e ∧
        (get_container_health n w).1 = Raise e).
Proof.
  rewrite get_container_health_eq. simpl.
  destruct (run_reply _ _ _ _ _ _) as [p|e]; simpl.
  - split; [done|].
    destruct (returncode p =? 0) eqn:Hz; simpl;
      [|split; [done|by left]].
    destruct (truthy (strip (stdout p))) eqn:Ht; simpl;
      [|split; [done|by left]].
    destruct (String.eqb (strip (stdout p)) "<no value>") eqn:Hv; simpl;
      [split; [done|by left]|].
    split; [|right; left; by eexists].
    intros health [= <-]. split; [by apply truthy_nonempty|].
    split; [by apply String.eqb_neq|].
    exists p. split; [done|]. split; [by apply Z.eqb_eq|done].
  - destruct (isinstance_Exception e) eqn:He.
    + split; [done|]. split; [done|]. by left.
    + split; [by intros ? [= <-]|]. split; [done|].
      right; right. by exists e.
Qed.

(** X26: [get_container_health] lets no instance of [Exception] out;
    the health it returns is never empty nor ["<no value>"]: it is the
    output of a [docker inspect] that left with status 0, without the
    white space around it; and it returns [None] otherwise, also when
    the command cannot be run. *)
Theorem get_container_health_never_empty n w :
  (∀ e, (get_container_health n w).1 = Raise e →
        isinstance_Exception e = false) ∧
  (∀ health, (get_container_health n w).1 = Ret (Some health) →
     health ≠ "" ∧ health ≠ "<no value>" ∧
     ∃ p, run_reply (inspect_command "{{.State.Health.Status}}" n)
            None None true None w = Ret p ∧
          returncode p = 0 ∧ health = strip (stdout p)) ∧
  ((get_container_health n w).1 = Ret None ∨
   (∃ health, (get_container_health n w).1 = Ret (Some health)) ∨
   ∃ e, run_reply (inspect_command "{{.State.Health.Status}}" n)
          None None true None w = Raise e ∧
        (get_container_health n w).1 = Raise e).
Proof. apply get_container_health_value. Qed.

(** *** The calls of [run_status] *)

Context (env : Environment) (h : gmap loc DeploymentConfig).

Lemma mwp_guarded_command {A} (m : M A)
    (f : result CompletedProcess → result A) cmd
    (Q : result A → list ext_call → Prop) pre :
  (∀ w, m w = (f (run_reply cmd None None true None w),
               after_run_command cmd None None true None w)) →
  (∀ r e, f r = Raise e → isinstance_Exception e = false) →
  (∀ r, (∀ e, r = Raise e → isinstance_Exception e = false) →
        Q r (pre ++ [subprocess_run cmd None None true None])) →
  mwp env h m Q pre.
Proof.
  intros Hm Hf H w He Hh. rewrite Hm. simpl.
  split; [done|]. split; [done|]. eexists. split; [done|].
  apply H. apply Hf.
Qed.

Lemma running_of_no_Exception n r e :
  running_of n r = Raise e → isinstance_Exception e = false.
Proof.
  destruct r as [p|e']; [done|]. simpl.
  destruct (isinstance_Exception e') eqn:He; [done|]. by intros [= <-].
Qed.

Lemma status_of_no_Exception r e :
  status_of r = Raise e → isinstance_Exception e = false.
Proof.
  destruct r as [p|e']; [done|]. simpl.
  destruct (isinstance_Exception e') eqn:He; [done|]. by intros [= <-].
Qed.

Lemma health_of_no_Exception r e :
  health_of r = Raise e → isinstance_Exception e = false.
Proof.
  destruct r as [p|e']; [done|]. simpl.
  destruct (isinstance_Exception e') eqn:He; [done|]. by intros [= <-].
Qed.

Lemma get_deployment_info_calls config c pre :
  h !! config = Some c →
  forallb observes pre = true →
  mwp env h (get_deployment_info config)
    (λ r cs, forallb observes cs = true ∧
             ∀ e, r = Raise e → isinstance_Exception e = false) pre.
Proof.
  intros Hc Hpre. unfold get_deployment_info.
  apply mwp_bind, mwp_deref. rewrite Hc.
  apply mwp_bind, mwp_check_container_exists. intros [b1|e1] H1;
    [|split; [rewrite ?forallb_app, Hpre; reflexivity
             |intros ? [= <-]; by apply H1]].
  apply mwp_bind.
  apply (mwp_guarded_command _ (running_of (container_name c)) _ _ _
           (check_container_running_eq _) (running_of_no_Exception _)).
  intros [b2|e2] H2;
    [|split; [rewrite ?forallb_app, Hpre; reflexivity
             |intros ? [= <-]; by apply H2]].
  apply mwp_bind.
  apply (mwp_guarded_command _ status_of _ _ _
           (get_container_status_eq _) status_of_no_Exception).
  intros [b3|e3] H3;
    [|split; [rewrite ?forallb_app, Hpre; reflexivity
             |intros ? [= <-]; by apply H3]].
  apply mwp_bind.
  apply (mwp_guarded_command _ health_of _ _ _
           (get_container_health_eq _) health_of_no_Exception).
  intros [b4|e4] H4;
    [|split; [rewrite ?forallb_app, Hpre; reflexivity
             |intros ? [= <-]; by apply H4]].
  apply mwp_ret. split; [rewrite ?forallb_app, Hpre; reflexivity|done].
Qed.

Lemma status_after_load_calls config c verbose pre :
  h !! config = Some c →
  forallb reads_file pre = true →
  mwp env h (status.after_load config verbose)
    (λ r cs, forallb observes cs = true ∧
             ∀ e, r = Raise e → isinstance_Exception e = false) pre.
Proof.
  intros Hc Hpre.
  assert (Hobs : forallb observes pre = true).
  { clear -Hpre. induction pre as [|x pre IH]; [done|]. simpl in *.
    apply andb_true_iff in Hpre as [Hx Hpre]. rewrite (IH Hpre), andb_true_r.
    by destruct x. }
  unfold status.after_load, status.info, status.warning, status.error.
  do 4 (apply mwp_bind, mwp_log).
  apply mwp_bind.
  eapply mwp_mono; [by eapply get_deployment_info_calls|].
  intros [i|e] cs [Hcs He];
    [|split; [done|intros ? [= <-]; by apply He]].
  repeat mwp_step; by split.
Qed.

End status.

Section run_status.

Lemma run_status_calls config_file project_dir verbose w :
  let x := status.run_status config_file project_dir verbose w in
  ∃ cs, issued x.2 = issued w ++ cs ∧
        forallb observes cs = true ∧
        ∀ e, x.1 = Raise e → isinstance_Exception e = true →
             forallb reads_file cs = true.
Proof.
  unfold status.run_status, mbind, ST_bind. simpl.
  match goal with
  | |- context [load_config ?a ?b ?c ?d w] =>
      destruct (load_config_calls a b c d w) as (He & (cs & Hcs & Hr) & Hh);
      destruct (load_config a b c d w) as [[config|e] w1]
  end; simpl in *.
  - destruct (Hh config eq_refl) as [c Hc].
    destruct (status_after_load_calls (environment w1) (heap w1) config c
                verbose cs Hc Hr w1 eq_refl eq_refl)
      as (_ & _ & cs2 & Hcs2 & Hobs & HQ).
    exists (cs ++ cs2). rewrite Hcs2, Hcs, app_assoc.
    split; [done|]. split; [done|].
    intros e Heq Hexc. rewrite (HQ e Heq) in Hexc. discriminate Hexc.
  - exists cs. split; [done|]. split; [|done].
    clear -Hr. induction cs as [|x cs IH]; [done|]. simpl in *.
    apply andb_true_iff in Hr as [Hx Hr]. rewrite (IH Hr), andb_true_r.
    by destruct x.
Qed.

(** X27: [run_status] only looks: beyond looking for and reading the
    configuration, its external calls are [docker ps] and
    [docker inspect] commands.  And the only instances of [Exception]
    that leave it come from the loading of the configuration: a [docker]
    command that fails or cannot be run is reported as a state, not
    raised. *)
Theorem run_status_only_looks config_file project_dir verbose w :
  let x := status.run_status config_file project_dir verbose w in
  ∃ cs, issued x.2 = issued w ++ cs ∧
        forallb observes cs = true ∧
        ∀ e, x.1 = Raise e → isinstance_Exception e = true →
             forallb reads_file cs = true.
Proof. apply run_status_calls. Qed.

(** When [docker inspect] cannot be run, the container that [docker ps]
    lists is reported as healthy. *)
Example run_status_without_inspect :
  (status.run_status None None false
     (mk_World no_inspect_environment ∅ [] [])).1 = Ret true.
Proof. vm_compute. reflexivity. Qed.

End run_status.

(** * The runs of the drivers that report failure, and why *)

(** From the state [s], the driver computation [m] ends with a result
    and a state that satisfy [Q]. *)
Definition dwp {A} (m : D A) (Q : result A → Run → Prop) (s : Run) : Prop :=
  Q (m s).1 (m s).2.

(** [run_update] finds no container: the configuration is loaded, and
    [check_container_exists] answers [False] for its container. *)
Definition container_missing (config_file : option Path) (project_dir : Path)
    (w : World) : Prop :=
  ∃ config w1 c,
    load_config config_file (Some (path_join project_dir ".env"))
      (Some project_dir) None w = (Ret config, w1) ∧
    heap w1 !! config = Some c ∧
    (docker_utils.check_container_exists (container_name c) w1).1 = Ret false.

(** The external calls of a run end with the health check, which the
    environment [env] answered with [False], and the
    [docker compose ... down] that follows it. *)
Definition stopped_after_health_check (env : Environment)
    (cs : list ext_call) : Prop :=
  ∃ before name cmd cwd cenv timeout,
    cs = before ++ [wait_for_healthy name 120 5;
                    subprocess_run cmd cwd cenv true timeout] ∧
    reply_bool env (length before) (wait_for_healthy name 120 5) = Ret false ∧
    docker_subcommand "compose" cmd = true ∧ last cmd = Some "down".

(** What holds at the end of the part of [run_update] that owns the
    sequencer, when it reports failure. *)
Definition update_failure (env : Environment) (skip_health_check : bool)
    (r : result bool) (s : Run) : Prop :=
  r = Ret false →
  (calls s = [call_add_action "Start services"; call_clear] ∧
   skip_health_check = false ∧
   stopped_after_health_check env (issued (world s))) ∨
  executed_once_last (calls s) = true.

Section dwp.

Context {A B : Type}.

Lemma dwp_ret (a : A) Q s : Q (Ret a) s → dwp (mret a) Q s.
Proof. done. Qed.

Lemma dwp_bind (m : D A) (k : A → D B) Q s :
  dwp m (λ r s', match r with
                 | Ret a => dwp (k a) Q s'
                 | Raise e => Q (Raise e) s'
                 end) s →
  dwp (m ≫= k) Q s.
Proof.
  unfold dwp, mbind, ST_bind. by destruct (m s) as [[a|e] s'].
Qed.

Lemma dwp_try_except (body : D A) clauses Q s :
  dwp body (λ r s', match r with
                    | Ret a => Q (Ret a) s'
                    | Raise e => dwp (handle clauses e) Q s'
                    end) s →
  dwp (try_except body clauses) Q s.
Proof.
  unfold dwp, try_except. by destruct (body s) as [[a|e] s'].
Qed.

Lemma dwp_handle_nil e (Q : result A → Run → Prop) s :
  Q (Raise e) s → dwp (handle [] e) Q s.
Proof. done. Qed.

Lemma dwp_handle_cons e test handler clauses (Q : result A → Run → Prop) s :
  (if test e : bool then dwp (handler e) Q s
   else dwp (handle clauses e) Q s) →
  dwp (handle ((test, handler) :: clauses) e) Q s.
Proof. unfold dwp. simpl. by destruct (test e). Qed.

Lemma dwp_mono (m : D A) (Q1 Q2 : result A → Run → Prop) s :
  dwp m Q1 s → (∀ r s', Q1 r s' → Q2 r s') → dwp m Q2 s.
Proof. intros H HQ. by apply HQ. Qed.

(** A step below the driver keeps the environment and the objects, and
    adds its external calls. *)
Lemma dwp_lift env h cs l ro seq (m : M A) (Q : result A → Run → Prop) :
  mwp env h m (λ r cs', ∀ l', Q r (mk_Run (mk_World env h cs' l') ro seq)) cs →
  dwp (lift m) Q (mk_Run (mk_World env h cs l) ro seq).
Proof.
  intros H.
  destruct (H (mk_World env h cs l) eq_refl eq_refl)
    as (He & Hh & new & Hnew & HQ).
  unfold dwp, lift. simpl in *.
  destruct (m _) as [r [env' h' cs' l']]. simpl in *. subst. apply HQ.
Qed.

(** An external call of the driver itself, with the answer it gets. *)
Lemma dwp_external env h cs l ro seq
    (reply : Environment → nat → ext_call → result A) c
    (Q : result A → Run → Prop) :
  Q (reply env (length cs) c) (mk_Run (mk_World env h (cs ++ [c]) l) ro seq) →
  dwp (lift (external reply c)) Q (mk_Run (mk_World env h cs l) ro seq).
Proof. done. Qed.

End dwp.

Lemma dwp_log env h cs l ro seq name lvl msg
    (Q : result unit → Run → Prop) :
  (∀ l', Q (Ret tt) (mk_Run (mk_World env h cs l') ro seq)) →
  dwp (lift (log name lvl msg)) Q (mk_Run (mk_World env h cs l) ro seq).
Proof. intros H. apply H. Qed.

Lemma dwp_add_action env h cs l ro seq name action args
    (Q : result unit → Run → Prop) :
  (∀ ro' l', Q (Ret tt) (mk_Run (mk_World env h cs l') ro'
                            (seq ++ [call_add_action name]))) →
  dwp (rollback_add_action name action args) Q
    (mk_Run (mk_World env h cs l) ro seq).
Proof. intros H. apply H. Qed.

Lemma dwp_clear env h cs l ro seq (Q : result unit → Run → Prop) :
  (∀ ro' l', Q (Ret tt) (mk_Run (mk_World env h cs l') ro'
                            (seq ++ [call_clear]))) →
  dwp rollback_clear Q (mk_Run (mk_World env h cs l) ro seq).
Proof. intros H. apply H. Qed.

Lemma dwp_execute w ro seq (Q : result bool → Run → Prop) :
  (∀ r s', calls s' = seq ++ [call_execute r] → Q r s') →
  dwp rollback_execute Q (mk_Run w ro seq).
Proof. intros H. by apply H. Qed.

(** One step through a driver, with its world. *)
Ltac dwp_step :=
  cbv beta iota zeta;
  lazymatch goal with
  | |- ∀ _, _ => intro
  | |- dwp (mbind _ _) _ _ => apply dwp_bind
  | |- dwp (mret _) _ _ => apply dwp_ret
  | |- dwp (lift (log _ _ _)) _ _ => apply dwp_log
  | |- dwp (lift (external ?reply ?c)) _
         (mk_Run (mk_World ?env _ ?cs _) _ _) =>
      apply dwp_external;
      destruct (reply env (length cs) c) as [?|?] eqn:?
  | |- dwp (lift _) _ _ => apply dwp_lift
  | |- dwp (rollback_add_action _ _ _) _ _ => apply dwp_add_action
  | |- dwp rollback_clear _ _ => apply dwp_clear
  | |- dwp rollback_execute _ _ => apply dwp_execute; intros [?|?] ? ?
  | |- dwp (try_except _ _) _ _ => apply dwp_try_except
  | |- dwp (handle [] _) _ _ => apply dwp_handle_nil
  | |- dwp (handle (_ :: _) _) _ _ =>
      apply dwp_handle_cons;
      lazymatch goal with |- if ?t then _ else _ => destruct t end
  | |- dwp (when _ _) _ _ => unfold when
  | |- dwp (if negb ?b then _ else _) _ _ => destruct b; simpl negb
  | |- dwp (if ?b then _ else _) _ _ => destruct b
  | |- mwp _ _ _ _ _ => mwp_step
  end.

Section failing_runs.

Lemma with_rollback_eq rollback body w :
  with_rollback rollback body w =
  mk_Outcome (body (mk_Run w rollback [])).1
    (calls (body (mk_Run w rollback [])).2)
    (world (body (mk_Run w rollback [])).2).
Proof. unfold with_rollback. by destruct (body _). Qed.

Lemma update_handlers_failure env skip_health_check e s :
  no_execute (calls s) = true →
  dwp (handle (update.except_clauses true) e)
    (update_failure env skip_health_check) s.
Proof.
  intros Hno. destruct s as [[env' h cs l] ro seq]. simpl in Hno.
  unfold update.except_clauses, update.info, update.warning, update.error.
  repeat dwp_step;
    first [ by intros [=]
          | intros _; right;
            match goal with
            | H : calls _ = _ |- _ => rewrite H
            end;
            by rewrite executed_once_last_snoc ].
Qed.

Lemma update_try_block_failure env h cs l ro config c no_cache
    skip_health_check :
  h !! config = Some c →
  dwp (update.try_block config no_cache skip_health_check true)
    (λ r s, match r with
            | Ret b => update_failure env skip_health_check (Ret b) s
            | Raise _ => no_execute (calls s) = true
            end)
    (mk_Run (mk_World env h cs l) ro []).
Proof.
  intros Hc.
  unfold update.try_block, update.success,
    update.info, update.warning, update.error,
    docker_utils.stop_services, docker_utils.build_image,
    docker_utils.start_services.
  repeat dwp_step;
    first [ reflexivity
          | by intros [=]
          | unfold update_failure; intros _; left;
            split; [reflexivity|]; split; [reflexivity|];
            do 6 eexists;
            split; [simpl; symmetry; exact (app_assoc _ [_] [_])|];
            split; [eassumption|]; split; reflexivity ].
Qed.

Lemma update_prepare_cases config_file project_dir w :
  match update.prepare config_file project_dir w with
  | (Ret None, _) => container_missing config_file project_dir w
  | (Ret (Some config), w') =>
      environment w' = environment w ∧ is_Some (heap w' !! config)
  | (Raise _, _) => True
  end.
Proof.
  unfold update.prepare, container_missing, mbind, ST_bind.
  destruct (load_config_calls config_file
              (Some (path_join project_dir ".env")) (Some project_dir)
              None w) as (He & _ & Hh).
  destruct (load_config _ _ _ _ w) as [[config|e] w1]; simpl in *; [|done].
  destruct (Hh config eq_refl) as [c Hc].
  unfold deref. rewrite Hc.
  destruct (docker_utils.check_container_exists (container_name c) w1)
    as [[b|e] w2] eqn:Hb; [|done].
  assert (Hw2 : environment w2 = environment w ∧ heap w2 = heap w1).
  { rewrite check_container_exists_eq in Hb. injection Hb as _ <-. done. }
  destruct b; simpl.
  - destruct Hw2 as [-> ->]. by rewrite Hc.
  - exists config, w1, c. by rewrite Hb.
Qed.

Lemma run_update_failure config_file project_dir no_cache skip_health_check
    w :
  let o := update.run_update config_file project_dir no_cache
             skip_health_check true w in
  out_result o = Ret false →
  (out_calls o = [] ∧
   container_missing config_file
     (default (Path_cwd (environment w)) project_dir) w) ∨
  (out_calls o = [call_add_action "Start services"; call_clear] ∧
   skip_health_check = false ∧
   stopped_after_health_check (environment w) (issued (out_world o))) ∨
  executed_once_last (out_calls o) = true.
Proof.
  unfold update.run_update.
  pose proof (update_prepare_cases config_file
                (default (Path_cwd (environment w)) project_dir) w) as Hp.
  destruct (update.prepare _ _ w) as [[[config|]|e] w']; simpl;
    [|by left|done].
  destruct Hp as [He [c Hc]]. rewrite with_rollback_eq. simpl.
  destruct w' as [env h cs l]. simpl in He, Hc. subst env.
  match goal with
  | |- context [?body (mk_Run ?w0 ?ro [])] =>
      assert (Hd : dwp body (update_failure (environment w)
                               skip_health_check) (mk_Run w0 ro []))
  end.
  { unfold update.info.
    repeat (lazymatch goal with
            | |- dwp (try_except _ _) _ _ => fail
            | _ => dwp_step
            end).
    apply dwp_try_except.
    eapply dwp_mono; [by eapply update_try_block_failure|].
    intros [b|e] s; [done|]. apply update_handlers_failure. }
  intros Hr. destruct (Hd Hr) as [(H1 & H2 & H3)|H]; right; [left|by right].
  done.
Qed.

(** C6, amended.  A run of [run_deploy] with [auto_rollback] that reports
    failure, and in which no call of [execute] was itself left by an
    exception, has called [execute] exactly once, as its last call on the
    sequencer: neither [add_action] nor [clear] follows it.  A run of
    [run_update] with [auto_rollback] that reports failure has called
    [execute] in the same way, or not at all, and then for one of two
    reasons only.  Either it made no call on a sequencer, and the
    container does not exist: the configuration was loaded and
    [check_container_exists] answered [False].  Or its calls are the
    registration of "Start services" and [clear], the health check was
    not skipped and was answered [False], and the last two external
    calls of the run are that health check and the
    [docker compose ... down] that stops the services. *)
Theorem driver_rollback_contract :
  (∀ config_file project_dir gateway_token api_key no_cache
     skip_health_check interactive w,
     let o := deploy.run_deploy config_file project_dir gateway_token
                api_key no_cache skip_health_check interactive true w in
     out_result o = Ret false →
     existsb execute_raised (out_calls o) = false →
     executed_once_last (out_calls o) = true) ∧
  (∀ config_file project_dir no_cache skip_health_check w,
     let o := update.run_update config_file project_dir no_cache
                skip_health_check true w in
     out_result o = Ret false →
     (out_calls o = [] ∧
      container_missing config_file
        (default (Path_cwd (environment w)) project_dir) w) ∨
     (out_calls o = [call_add_action "Start services"; call_clear] ∧
      skip_health_check = false ∧
      stopped_after_health_check (environment w) (issued (out_world o))) ∨
     executed_once_last (out_calls o) = true).
Proof.
  split.
  - intros cf pd tok key nc shc inter w. by apply run_deploy_calls.
  - intros cf pd nc shc w. by apply run_update_failure.
Qed.

Lemma driver_rollback_contract_witness :
  executed_once_last
    (out_calls (deploy.run_deploy None None None None false false true true
                  (mk_World unhealthy_environment ∅ [] []))) = true.
Proof.
  apply (proj1 driver_rollback_contract None None None None false false true
           (mk_World unhealthy_environment ∅ [] [])).
  - vm_compute. reflexivity.
  - vm_compute. reflexivity.
Defined.

End failing_runs.
